(** * Lighthouse: the asynchronous repository-analysis pipeline

    A shallow embedding of the backend of the repository analyser (tree
    walker, metrics, Python extractor, parser dispatch, record store, HTTP
    handlers and the queue worker), followed by the properties established
    about it.

    Conventions of the embedding.
    - JavaScript strings are [string]s over ASCII; the functions of the
      [String] prototype and of Node's [path] module that the code calls are
      defined in module [Js], restricted to that alphabet.
    - JavaScript numbers that hold sizes, counts and timestamps are [Z];
      the one division whose result can be NaN is modelled by [Js.Number].
    - A rejected promise or a thrown exception is the [Throw] case of
      [Js.Result]; [try]/[catch] is a [match] on it.
    - The file system seen by one walk is a finite tree, [Fs.Entry]. *)

From Stdlib Require Import ZArith Bool Ascii String List Lia Sorted Permutation.
From stdpp Require Import base option list gmap strings sorting.

Set Warnings "-register-all,-comment-terminator-in-string".

Local Open Scope string_scope.
Local Open Scope Z_scope.

(* ===================================================================== *)
(** * JavaScript runtime: strings, paths, numbers, exceptions             *)
(* ===================================================================== *)

Module Js.

(** ** Exceptions *)

Inductive Result (A : Type) : Type :=
| Ok (a : A)
| Throw (message : string).
Arguments Ok {A} a.
Arguments Throw {A} message.

(** ** Numbers: the results of [a / b] followed by [Math.round] *)

Inductive Number : Type :=
| Num (z : Z)
| NaN
| PosInfinity
| NegInfinity.

(** [Math.round(a / b)] for integral [a] and [b]: rounding is to the
    nearest integer, halves towards plus infinity; [0 / 0] is NaN and a
    non-zero numerator over zero is an infinity, both fixed points of
    [Math.round]. *)
Definition round_div (a b : Z) : Number :=
  if b =? 0 then
    if a =? 0 then NaN else if 0 <? a then PosInfinity else NegInfinity
  else Num ((2 * a + b) / (2 * b)).

(** ** Characters *)

Definition LF : ascii := ascii_of_nat 10.

Definition is_upper (c : ascii) : bool :=
  let n := nat_of_ascii c in (65 <=? n)%nat && (n <=? 90)%nat.

Definition is_space (c : ascii) : bool :=
  let n := nat_of_ascii c in ((9 <=? n)%nat && (n <=? 13)%nat) || (n =? 32)%nat.

Definition is_word (c : ascii) : bool :=
  let n := nat_of_ascii c in
  ((48 <=? n)%nat && (n <=? 57)%nat) || ((65 <=? n)%nat && (n <=? 90)%nat)
  || ((97 <=? n)%nat && (n <=? 122)%nat) || (n =? 95)%nat.

Definition lower_char (c : ascii) : ascii :=
  if is_upper c then ascii_of_nat (nat_of_ascii c + 32) else c.

(** ** [String.prototype] *)

Definition chars (s : string) : list ascii := list_ascii_of_string s.
Definition str (l : list ascii) : string := string_of_list_ascii l.

Definition toLowerCase (s : string) : string := str (map lower_char (chars s)).

Fixpoint starts_with (p l : list ascii) : bool :=
  match p, l with
  | [], _ => true
  | a :: p', b :: l' => Ascii.eqb a b && starts_with p' l'
  | _ :: _, [] => false
  end.

Definition startsWith (s p : string) : bool := starts_with (chars p) (chars s).

Fixpoint includes_chars (l p : list ascii) : bool :=
  starts_with p l || match l with [] => false | _ :: l' => includes_chars l' p end.

Definition includes (s p : string) : bool := includes_chars (chars s) (chars p).

(** [s.split(c)] for a one-character separator: never empty, one more
    piece than there are separators. *)
Fixpoint split (c : ascii) (s : string) : list string :=
  match s with
  | EmptyString => [EmptyString]
  | String a s' =>
      if Ascii.eqb a c then EmptyString :: split c s'
      else match split c s' with
           | h :: t => String a h :: t
           | [] => [String a EmptyString]
           end
  end.

Fixpoint count (c : ascii) (s : string) : nat :=
  match s with
  | EmptyString => 0%nat
  | String a s' => ((if Ascii.eqb a c then 1 else 0) + count c s')%nat
  end.

Fixpoint drop_spaces (l : list ascii) : list ascii :=
  match l with
  | a :: l' => if is_space a then drop_spaces l' else l
  | [] => []
  end.

Definition trim (s : string) : string :=
  str (rev (drop_spaces (rev (drop_spaces (chars s))))).

Definition substring (s : string) (from to : nat) : string :=
  str (take (to - from) (drop from (chars s))).

(** ** Node's [path] module, POSIX flavour *)

Definition slash : ascii := "/"%char.
Definition dot : ascii := "."%char.

Fixpoint drop_slashes (l : list ascii) : list ascii :=
  match l with
  | a :: l' => if Ascii.eqb a slash then drop_slashes l' else l
  | [] => []
  end.

Fixpoint take_segment (l : list ascii) : list ascii :=
  match l with
  | a :: l' => if Ascii.eqb a slash then [] else a :: take_segment l'
  | [] => []
  end.

(** [path.basename(p)]: the last segment, trailing separators ignored. *)
Definition basename (p : string) : string :=
  str (rev (take_segment (drop_slashes (rev (chars p))))).

Fixpoint take_ext (l : list ascii) : option (list ascii) :=
  match l with
  | a :: l' =>
      if Ascii.eqb a dot then Some [a]
      else match take_ext l' with Some e => Some (a :: e) | None => None end
  | [] => None
  end.

(** [path.extname(p)]: from the last dot of the basename to its end;
    empty when there is no dot, when the only dot leads the basename, and
    for [..]. *)
Definition extname (p : string) : string :=
  let b := chars (basename p) in
  match take_ext (rev b) with
  | Some e =>
      if (length e =? length b)%nat || String.eqb (str b) ".." then EmptyString
      else str (rev e)
  | None => EmptyString
  end.

(** [path.join(dir, entry)] for a normalised [dir] and a directory entry
    [entry] as [readdir] returns them (one segment, neither [.] nor [..]). *)
Definition join (dir entry : string) : string := dir ++ "/" ++ entry.

(** [path.relative(from, to)] for a [to] that is [from] or below it, which
    is how the walker calls it. *)
Definition relative (from to : string) : string :=
  if String.eqb from to then EmptyString
  else if starts_with (chars (from ++ "/")) (chars to)
       then str (drop (String.length from + 1) (chars to))
       else to.

(** ** More of [String.prototype] *)

Definition endsWith (s p : string) : bool :=
  starts_with (rev (chars p)) (rev (chars s)).

Fixpoint index_of (l p : list ascii) (i : nat) : option nat :=
  if starts_with p l then Some i
  else match l with [] => None | _ :: l' => index_of l' p (S i) end.

(** [s.indexOf(p)], [None] for -1. *)
Definition indexOf (s p : string) : option nat := index_of (chars s) (chars p) 0.

(** [s.substring(from)]. *)
Definition substring_from (s : string) (from : nat) : string :=
  str (drop from (chars s)).

(** [pieces.join(sep)]. *)
Fixpoint join_with (sep : string) (pieces : list string) : string :=
  match pieces with
  | [] => EmptyString
  | [x] => x
  | x :: rest => x ++ sep ++ join_with sep rest
  end.

Definition quote : ascii := ascii_of_nat 34.
Definition triple_double : string := str [quote; quote; quote].
Definition triple_single : string := "'''".

(** ** [Array.prototype.slice] *)

(** The index a relative [start] or [end] stands for: a negative one
    counts from the end, and both are clamped to the array. *)
Definition relative_index (n len : Z) : Z :=
  if n <? 0 then Z.max (len + n) 0 else Z.min n len.

(** [array.slice(start, end)]. *)
Definition slice {T : Type} (array : list T) (start end_ : Z) : list T :=
  let len := Z.of_nat (length array) in
  let k := relative_index start len in
  let final := relative_index end_ len in
  take (Z.to_nat (final - k)) (drop (Z.to_nat k) array).

(** ** A global [replace] of a pattern of two literal characters *)

(** [s.replace(/xy/g, by_)] on the characters of [s]: the matches are
    found from left to right and do not overlap. *)
Fixpoint replace_pair (x y : ascii) (by_ : list ascii) (l : list ascii) : list ascii :=
  match l with
  | a :: l' =>
      match l' with
      | b :: r =>
          if Ascii.eqb a x && Ascii.eqb b y then (by_ ++ replace_pair x y by_ r)%list
          else a :: replace_pair x y by_ l'
      | [] => [a]
      end
  | [] => []
  end.

(** ** Property lookup in an object literal *)

(** The members every object literal inherits from [Object.prototype].  A
    lookup [literal[key]] with one of these keys, when the literal does not
    define the key itself, yields the inherited member, a function or an
    object, and not [undefined]: it is truthy. *)
Definition objectPrototypeMembers : list string :=
  [ "constructor"; "__defineGetter__"; "__defineSetter__"; "hasOwnProperty";
    "__lookupGetter__"; "__lookupSetter__"; "isPrototypeOf";
    "propertyIsEnumerable"; "toString"; "valueOf"; "__proto__"; "toLocaleString" ].

(** An inherited member, where the code carries it in a variable meant for
    a string: it is no string, and is written by the expression that
    denotes it. *)
Definition inheritedMember (key : string) : string := "Object.prototype." ++ key.

End Js.

(* ===================================================================== *)
(** * The file system of one working copy                                 *)
(* ===================================================================== *)

Module Fs.

(** What [fs.stat], [fs.readdir] and [fs.readFile] can observe of an
    entry.  [content = None] is a file that cannot be read, [entries =
    None] a directory that cannot be listed, [Special] an entry that is
    neither a regular file nor a directory, [Broken] one on which
    [fs.stat] rejects. *)
Inductive Entry : Type :=
| File (name : string) (size mtime : Z) (content : option string)
| Dir (name : string) (entries : option (list Entry))
| Special (name : string)
| Broken (name : string).

Definition name (e : Entry) : string :=
  match e with
  | File n _ _ _ | Dir n _ | Special n | Broken n => n
  end.

Record Stats : Type := mkStats
  { isFile : bool; isDirectory : bool; size : Z; mtime : Z }.

Definition stat (e : Entry) : Js.Result Stats :=
  match e with
  | File _ sz mt _ => Js.Ok (mkStats true false sz mt)
  | Dir _ _ => Js.Ok (mkStats false true 4096 0)
  | Special _ => Js.Ok (mkStats false false 0 0)
  | Broken _ => Js.Throw "ENOENT: no such file or directory"
  end.

Definition readFile (e : Entry) : Js.Result string :=
  match e with
  | File _ _ _ (Some c) => Js.Ok c
  | File _ _ _ None => Js.Throw "EACCES: permission denied"
  | Dir _ _ => Js.Throw "EISDIR: illegal operation on a directory"
  | Special _ => Js.Throw "EINVAL: invalid argument"
  | Broken _ => Js.Throw "ENOENT: no such file or directory"
  end.

Definition readdir (e : Entry) : Js.Result (list Entry) :=
  match e with
  | Dir _ (Some es) => Js.Ok es
  | Dir _ None => Js.Throw "EACCES: permission denied"
  | _ => Js.Throw "ENOTDIR: not a directory"
  end.

(** The entry a path below [e] resolves to; [Broken] when a segment is
    missing or its parent is no listable directory. *)
Fixpoint resolve (e : Entry) (segments : list string) : Entry :=
  match segments with
  | [] => e
  | segment :: rest =>
      match e with
      | Dir _ (Some es) =>
          match find (fun c => String.eqb (name c) segment) es with
          | Some c => resolve c rest
          | None => Broken segment
          end
      | _ => Broken segment
      end
  end.

(** The entry at the absolute path [p], for a tree [root] mounted at
    [rootPath]. *)
Definition lookup (root : Entry) (rootPath p : string) : Entry :=
  resolve root
    (filter (fun segment => negb (String.eqb segment ""))
       (Js.split Js.slash (Js.relative rootPath p))).

End Fs.

(* ===================================================================== *)
(** * lib/utils: file classification                                     *)
(* ===================================================================== *)

Module Utils.

Definition getFileExtension (filePath : string) : string :=
  Js.toLowerCase (Js.extname filePath).

Definition isTestFile (filePath : string) : bool :=
  let fileName := Js.toLowerCase filePath in
  Js.includes fileName ".test." || Js.includes fileName ".spec."
  || Js.includes fileName "__tests__" || Js.includes fileName "/test/"
  || Js.includes fileName "/tests/".

Definition configPatterns : list string :=
  [ "config"; "configuration"; ".rc"; "package.json"; "tsconfig"; "webpack";
    "babel"; "eslint"; "prettier"; ".env" ].

Definition isConfigFile (filePath : string) : bool :=
  let fileName := Js.toLowerCase (Js.basename filePath) in
  existsb (fun pattern => Js.includes fileName pattern) configPatterns.

(** [sanitizeFilePath(filePath)]:
    [filePath.replace("/\.\./g", '').replace("/\/\//g", '/')]. *)
Definition sanitizeFilePath (filePath : string) : string :=
  Js.str (Js.replace_pair Js.slash Js.slash [Js.slash]
            (Js.replace_pair Js.dot Js.dot [] (Js.chars filePath))).

(** [chunk(array, size)].  The loop [for (i = 0; i < array.length; i +=
    size)] ends only when [i] grows: [fuel] bounds its iterations, and
    [None] is a loop that has not ended within the bound. *)
Fixpoint chunk_loop {T : Type} (fuel : nat) (array : list T) (size i : Z)
  : option (list (list T)) :=
  if i <? Z.of_nat (length array) then
    match fuel with
    | O => None
    | S fuel' =>
        match chunk_loop fuel' array size (i + size) with
        | Some chunks => Some (Js.slice array i (i + size) :: chunks)
        | None => None
        end
    end
  else Some [].

Definition chunk {T : Type} (fuel : nat) (array : list T) (size : Z)
  : option (list (list T)) :=
  chunk_loop fuel array size 0.

(** What [retry] settles to: [Rejected None] is [throw undefined], the
    value of [lastError] when no call was made. *)
Inductive Outcome (T : Type) : Type :=
| Resolved (value : T)
| Rejected (error : option string).
Arguments Resolved {T} value.
Arguments Rejected {T} error.

Record RetryOptions : Type := mkRetryOptions
  { maxAttempts : option Z; delay : option Z; backoff : option Z }.

(** One run of [retry]: how it settles, the waits passed to [sleep] in
    order, and the number of calls of [fn]. *)
Record RetryRun (T : Type) : Type := mkRetryRun
  { outcome : Outcome T; slept : list Z; calls : nat }.
Arguments mkRetryRun {T} outcome slept calls.
Arguments outcome {T} r.
Arguments slept {T} r.
Arguments calls {T} r.

Section Retry.

Context {T : Type}.

(** [fn], as the outcome of its call in each attempt (counted from 1). *)
Variable fn : nat -> Js.Result T.

(** The loop [for (attempt = 1; attempt <= maxAttempts; attempt++)], with
    [remaining] iterations to go from [attempt] on. *)
Fixpoint retry_loop (maxAttempts delay backoff : Z) (remaining attempt : nat)
  (lastError : option string) (slept : list Z) : RetryRun T :=
  match remaining with
  | O => mkRetryRun (Rejected lastError) slept (attempt - 1)
  | S remaining' =>
      match fn attempt with
      | Js.Ok value => mkRetryRun (Resolved value) slept attempt
      | Js.Throw error =>
          let slept :=
            if Z.of_nat attempt <? maxAttempts
            then (slept ++ [delay * backoff ^ (Z.of_nat attempt - 1)])%list
            else slept in
          retry_loop maxAttempts delay backoff remaining' (S attempt) (Some error) slept
      end
  end.

(** [retry(fn, options)], with the defaults of the destructuring. *)
Definition retry (options : RetryOptions) : RetryRun T :=
  let maxAttempts := default 3 (maxAttempts options) in
  let delay := default 1000 (delay options) in
  let backoff := default 2 (backoff options) in
  retry_loop maxAttempts delay backoff (Z.to_nat maxAttempts) 1 None [].

End Retry.

End Utils.

(* ===================================================================== *)
(** * modules/filesystem/file-scanner.service                             *)
(* ===================================================================== *)

Module FileScanner.

Definition LANGUAGE_MAP : gmap string string :=
  list_to_map
    [ (".ts", "typescript"); (".tsx", "typescript"); (".js", "javascript");
      (".jsx", "javascript"); (".py", "python"); (".java", "java");
      (".go", "go"); (".rs", "rust"); (".c", "c"); (".cpp", "cpp");
      (".h", "c"); (".hpp", "cpp"); (".cs", "csharp"); (".rb", "ruby");
      (".php", "php"); (".swift", "swift"); (".kt", "kotlin");
      (".scala", "scala"); (".sh", "shell"); (".bash", "shell");
      (".sql", "sql"); (".html", "html"); (".css", "css"); (".scss", "scss");
      (".sass", "sass"); (".json", "json"); (".xml", "xml");
      (".yaml", "yaml"); (".yml", "yaml"); (".md", "markdown");
      (".txt", "text") ].

Definition detectLanguage (filePath : string) : string :=
  let ext := Utils.getFileExtension filePath in
  default "unknown" (LANGUAGE_MAP !! ext).

(** The object [getFileMetadata] returns; [linesOfCode] is added by the
    tree builder. *)
Record ScannedMetadata : Type := mkScanned
  { s_language : string; s_extension : string; s_size : Z;
    s_isTest : bool; s_isConfig : bool; s_lastModified : Z }.

(** [getFileMetadata(filePath)]: [null] when [fs.stat] rejects. *)
Definition getFileMetadata (filePath : string) (e : Fs.Entry)
  : option ScannedMetadata :=
  match Fs.stat e with
  | Js.Ok stats =>
      Some {| s_language := detectLanguage filePath;
              s_extension := Utils.getFileExtension filePath;
              s_size := Fs.size stats;
              s_isTest := Utils.isTestFile filePath;
              s_isConfig := Utils.isConfigFile filePath;
              s_lastModified := Fs.mtime stats |}
  | Js.Throw _ => None
  end.

(** [countLines(filePath)]: [content.split('\n').length], and 0 when the
    read rejects. *)
Definition countLines (e : Fs.Entry) : Z :=
  match Fs.readFile e with
  | Js.Ok content => Z.of_nat (length (Js.split Js.LF content))
  | Js.Throw _ => 0
  end.

(** [categorizeByLanguage(files)]: the object is a map from a language
    to the files detected as such, in the order of [files]. *)
Definition categorizeByLanguage (files : list string) : gmap string (list string) :=
  fold_left
    (fun categorized file =>
       let language := detectLanguage file in
       <[language := (default [] (categorized !! language) ++ [file])%list]> categorized)
    files ∅.

End FileScanner.

(* ===================================================================== *)
(** * modules/filesystem/tree-builder.service                             *)
(* ===================================================================== *)

Module TreeBuilder.

Inductive NodeType : Type := file | directory.

Definition NodeType_eqb (a b : NodeType) : bool :=
  match a, b with
  | file, file | directory, directory => true
  | _, _ => false
  end.

Record FileMetadata : Type := mkMetadata
  { language : string; extension : string; size : Z; linesOfCode : Z;
    isTest : bool; isConfig : bool; lastModified : Z }.

(** [FileTreeNode] of types/models; the optional fields [metadata] and
    [children] are [None] when the property is absent. *)
Inductive FileTreeNode : Type := mkNode
  { id : nat; name : string; type : NodeType; path : string;
    relativePath : string; metadata : option FileMetadata;
    children : option (list FileTreeNode) }.

Record Options : Type := mkOptions
  { excludePatterns : option (list string);
    maxFileSizeKB : option Z;
    includeTests : option bool }.

(** [generateId('node')] draws a fresh identifier from the clock and the
    random source; the supply is threaded as a counter. *)
Definition Gen (A : Type) : Type := nat -> A * nat.

Definition generateId : Gen nat := fun st => (st, S st).

Definition skipDirs : list string :=
  [ "node_modules"; ".git"; "dist"; "build"; "coverage"; ".next"; ".nuxt";
    "out"; "vendor"; "__pycache__"; ".venv"; "venv"; "target"; "bin"; "obj";
    ".idea"; ".vscode" ].

(** [shouldSkipDirectory(dirName)]: [skipDirs.includes(dirName)]. *)
Definition shouldSkipDirectory (dirName : string) : bool :=
  existsb (String.eqb dirName) skipDirs.

(** The filter the loop applies to a child of type [file]: [true] when
    the child is dropped ([continue]). *)
Definition dropped (options : Options) (childNode : FileTreeNode) : bool :=
  match type childNode with
  | file =>
      (match metadata childNode, maxFileSizeKB options with
       | Some m, Some maxKB =>
           (* truthy [maxFileSizeKB], then [size / 1024 > maxFileSizeKB] *)
           negb (maxKB =? 0) && (1024 * maxKB <? size m)
       | _, _ => false
       end)
      || (negb (default false (includeTests options))
          && match metadata childNode with
             | Some m => isTest m
             | None => false
             end)
  | directory => false
  end.

Section Sorting.

(** [String.prototype.localeCompare] is the host's collation: its sign
    is all the code looks at. *)
Variable localeCompare : string -> string -> Z.

(** The comparator passed to [children.sort]. *)
Definition compareNodes (a b : FileTreeNode) : Z :=
  if NodeType_eqb (type a) (type b) then localeCompare (name a) (name b)
  else match type a with directory => -1 | file => 1 end.

(** [Array.prototype.sort] is stable; with a comparator that is a total
    preorder the result is the stable sorted rearrangement, which stable
    insertion computes. *)
Fixpoint insert (x : FileTreeNode) (l : list FileTreeNode) : list FileTreeNode :=
  match l with
  | [] => [x]
  | y :: l' => if compareNodes x y <=? 0 then x :: l else y :: insert x l'
  end.

Fixpoint sort (l : list FileTreeNode) : list FileTreeNode :=
  match l with
  | [] => []
  | x :: l' => insert x (sort l')
  end.

(** [buildTreeRecursive(currentPath, rootPath, options)], on the entry
    [e] found at [currentPath]. *)
Fixpoint buildTreeRecursive (e : Fs.Entry) (currentPath rootPath : string)
  (options : Options) : Gen (Js.Result FileTreeNode) :=
  fun st =>
  match Fs.stat e with
  | Js.Throw msg => (Js.Throw msg, st)
  | Js.Ok stats =>
      let name := Js.basename currentPath in
      let relativePath := Js.relative rootPath currentPath in
      let '(nodeId, st) := generateId st in
      let node :=
        {| id := nodeId; name := name;
           type := if Fs.isDirectory stats then directory else file;
           path := currentPath;
           relativePath := if String.eqb relativePath "" then "." else relativePath;
           metadata := None; children := None |} in
      if Fs.isFile stats then
        match FileScanner.getFileMetadata currentPath e with
        | Some m =>
            let linesOfCode := FileScanner.countLines e in
            (Js.Ok (mkNode (id node) name (type node) (path node)
                      (TreeBuilder.relativePath node)
                      (Some {| language := FileScanner.s_language m;
                               extension := FileScanner.s_extension m;
                               size := FileScanner.s_size m;
                               linesOfCode := linesOfCode;
                               isTest := FileScanner.s_isTest m;
                               isConfig := FileScanner.s_isConfig m;
                               lastModified := FileScanner.s_lastModified m |})
                      None), st)
        | None => (Js.Ok node, st)
        end
      else if Fs.isDirectory stats then
        if shouldSkipDirectory name then (Js.Ok node, st)
        else
          (* [fs.readdir(currentPath)], written out so that the
             recursion on the entries is structural *)
          match e with
          | Fs.Dir _ (Some entries) =>
              let '(children, st) :=
                (fix loop (entries : list Fs.Entry) (st : nat)
                   : list FileTreeNode * nat :=
                   match entries with
                   | [] => ([], st)
                   | entry :: rest =>
                       let entryPath := Js.join currentPath (Fs.name entry) in
                       let '(r, st) :=
                         buildTreeRecursive entry entryPath rootPath options st in
                       let '(more, st) := loop rest st in
                       match r with
                       | Js.Ok childNode =>
                           if dropped options childNode then (more, st)
                           else (childNode :: more, st)
                       | Js.Throw _ => (more, st)
                       end
                   end) entries st in
              (Js.Ok (mkNode (id node) name (type node) (path node)
                        (TreeBuilder.relativePath node) None
                        (Some (sort children))), st)
          | Fs.Dir _ None => (Js.Throw "EACCES: permission denied", st)
          | _ => (Js.Throw "ENOTDIR: not a directory", st)
          end
      else (Js.Ok node, st)
  end.

(** [buildFileTree(rootPath, options)]. *)
Definition buildFileTree (root : Fs.Entry) (rootPath : string)
  (options : Options) : Gen (Js.Result FileTreeNode) :=
  fun st =>
  let rootName := Js.basename rootPath in
  match buildTreeRecursive root rootPath rootPath options st with
  | (Js.Throw msg, st) => (Js.Throw msg, st)
  | (Js.Ok tree, st) =>
      let '(nodeId, st) := generateId st in
      (Js.Ok {| id := nodeId; name := rootName; type := directory;
                path := rootPath; relativePath := "";
                metadata := None; children := children tree |}, st)
  end.

End Sorting.

(** [flattenTree] and the nodes of a tree. *)
Fixpoint nodes (n : FileTreeNode) : list FileTreeNode :=
  n :: match children n with
       | Some cs => flat_map nodes cs
       | None => []
       end.

Definition flattenTree (tree : FileTreeNode) : list FileTreeNode :=
  List.filter (fun n => NodeType_eqb (type n) file) (nodes tree).


End TreeBuilder.

(* ===================================================================== *)
(** * Regular expressions, with the backtracking semantics of [RegExp]    *)
(* ===================================================================== *)

Module RegExp.

(** The fragment of the pattern language the code uses.  [Bol m] is the
    assertion [^], with the [m] (multiline) flag; [WordBoundary] is [\b];
    [Group n r] is the [n]-th capturing group; quantifiers are greedy. *)
Inductive Regex : Type :=
| Eps
| Char (p : ascii -> bool)
| Bol (multiline : bool)
| WordBoundary
| Seq (r1 r2 : Regex)
| Alt (r1 r2 : Regex)
| Star (r : Regex)
| Group (n : nat) (r : Regex).

Definition Plus (r : Regex) : Regex := Seq r (Star r).
Definition Opt (r : Regex) : Regex := Alt r Eps.
Definition Lit (s : string) : Regex :=
  fold_right (fun a r => Seq (Char (Ascii.eqb a)) r) Eps (Js.chars s).
Definition Seqs (rs : list Regex) : Regex := fold_right Seq Eps rs.

(** Character classes. *)
Definition space : Regex := Char Js.is_space.                  (* \s *)
Definition word : Regex := Char Js.is_word.                    (* \w *)
Definition none_of (s : string) : Regex :=                     (* [^...] *)
  Char (fun a => negb (existsb (Ascii.eqb a) (Js.chars s))).
Definition one_of (s : string) : Regex :=                      (* [...] *)
  Char (fun a => existsb (Ascii.eqb a) (Js.chars s)).
Definition is_line_terminator (a : ascii) : bool :=
  let n := nat_of_ascii a in (n =? 10)%nat || (n =? 13)%nat.
Definition any : Regex := Char (fun a => negb (is_line_terminator a)). (* . *)

(** Captures: group number to the half-open range it matched, the most
    recent binding first. *)
Definition Captures : Type := list (nat * (nat * nat)).

Fixpoint capture (c : Captures) (n : nat) : option (nat * nat) :=
  match c with
  | [] => None
  | (k, range) :: c' => if (k =? n)%nat then Some range else capture c' n
  end.

Record Match : Type := mkMatch
  { index : nat;            (* match.index *)
    stop : nat;             (* match.index + match[0].length *)
    captures : Captures }.

Section Matcher.

Variable input : list ascii.

(** [m r i c k]: match [r] at position [i] with captures [c], then
    continue with [k]; alternatives are tried in order and the first
    that lets the continuation succeed wins. *)
Fixpoint m (r : Regex) (i : nat) (c : Captures)
  (k : nat -> Captures -> option (nat * Captures)) : option (nat * Captures) :=
  match r with
  | Eps => k i c
  | Char p =>
      match nth_error input i with
      | Some a => if p a then k (S i) c else None
      | None => None
      end
  | Bol multiline =>
      if (i =? 0)%nat
         || (multiline &&
             match nth_error input (i - 1) with
             | Some a => is_line_terminator a
             | None => false
             end)
      then k i c else None
  | WordBoundary =>
      let before :=
        match i with
        | O => false
        | S i' => match nth_error input i' with
                  | Some a => Js.is_word a
                  | None => false
                  end
        end in
      let after :=
        match nth_error input i with
        | Some a => Js.is_word a
        | None => false
        end in
      if xorb before after then k i c else None
  | Seq r1 r2 => m r1 i c (fun j c' => m r2 j c' k)
  | Alt r1 r2 =>
      match m r1 i c k with
      | Some x => Some x
      | None => m r2 i c k
      end
  | Star r' =>
      (fix iterate (n : nat) (i : nat) (c : Captures) : option (nat * Captures) :=
         match n with
         | O => k i c
         | S n' =>
             match m r' i c (fun j c' => if (i <? j)%nat then iterate n' j c' else None) with
             | Some x => Some x
             | None => k i c
             end
         end) (S (length input - i)) i c
  | Group n r' => m r' i c (fun j c' => k j ((n, (i, j)) :: c'))
  end.

Definition match_at (r : Regex) (i : nat) : option Match :=
  match m r i [] (fun j c => Some (j, c)) with
  | Some (j, c) => Some (mkMatch i j c)
  | None => None
  end.

Fixpoint search (r : Regex) (n : nat) (i : nat) : option Match :=
  match n with
  | O => None
  | S n' =>
      match match_at r i with
      | Some x => Some x
      | None => search r n' (S i)
      end
  end.

(** [r.exec(input)] with [r.lastIndex = lastIndex]: the leftmost match
    that starts at or after [lastIndex]. *)
Definition exec (r : Regex) (lastIndex : nat) : option Match :=
  if (lastIndex <=? length input)%nat
  then search r (S (length input - lastIndex)) lastIndex
  else None.

(** The matches a [while ((match = r.exec(input)) !== null)] loop sees
    for a global [r]: each search resumes where the previous match
    stopped.  The patterns below never match the empty string. *)
Fixpoint exec_loop (r : Regex) (fuel : nat) (lastIndex : nat) : list Match :=
  match fuel with
  | O => []
  | S fuel' =>
      match exec r lastIndex with
      | Some x => x :: exec_loop r fuel' (stop x)
      | None => []
      end
  end.

Definition exec_all (r : Regex) : list Match :=
  exec_loop r (S (length input)) 0.

Definition slice (from to : nat) : string :=
  Js.str (take (to - from) (drop from input)).

(** [match[n]], [undefined] when the group did not take part. *)
Definition group (x : Match) (n : nat) : option string :=
  match capture (captures x) n with
  | Some (from, to) => Some (slice from to)
  | None => None
  end.

End Matcher.

(** [r.test(s)] for a pattern without the [g] flag. *)
Definition test (r : Regex) (s : string) : bool :=
  match exec (Js.chars s) r 0 with Some _ => true | None => false end.

(** [s.split(r)] for a pattern [r] without capturing groups: the search
    position [q] advances until [r] matches there with an end [e] beyond
    the start [p] of the current piece. *)
Fixpoint split_loop (input : list ascii) (r : Regex) (fuel p q : nat)
  : list string :=
  match fuel with
  | O => [slice input p (length input)]
  | S fuel' =>
      if (q <? length input)%nat then
        match match_at input r q with
        | None => split_loop input r fuel' p (S q)
        | Some x =>
            let e := Nat.min (stop x) (length input) in
            if (e =? p)%nat then split_loop input r fuel' p (S q)
            else slice input p q :: split_loop input r fuel' e e
        end
      else [slice input p (length input)]
  end.

Definition split (r : Regex) (s : string) : list string :=
  let input := Js.chars s in
  match input with
  | [] => match match_at input r 0 with Some _ => [] | None => [s] end
  | _ => split_loop input r (2 * S (length input)) 0 0
  end.

End RegExp.

(* ===================================================================== *)
(** * Parser models: the objects the extractors build                     *)
(* ===================================================================== *)

Module Models.

Record ImportSpecifier : Type := mkSpecifier
  { spec_name : string; spec_alias : option string }.

Record ImportStatement : Type := mkImport
  { source : string; specifiers : list ImportSpecifier; isTypeOnly : bool }.

Record ExportStatement : Type := mkExport
  { export_name : string; export_type : string }.

Record ParameterInfo : Type := mkParameter
  { param_name : string; param_type : option string }.

Record Location : Type := mkLocation
  { loc_start : nat; loc_end : nat; loc_line : nat }.

Record FunctionInfo : Type := mkFunction
  { fn_name : string; parameters : list ParameterInfo; returnType : option string;
    isAsync : bool; isGenerator : bool; location : Location;
    docstring : option string; modifiers : option (list string) }.

Record ClassInfo : Type := mkClass
  { class_name : string; methods : list FunctionInfo;
    properties : list ParameterInfo; superClass : option string;
    decorators : list string; class_location : Location;
    class_docstring : option string }.

(** [interfaces], [types], [constants] and [enums] are always the empty
    array in the extractors embedded here; they are kept as lists of
    names. *)
Record ParsedFile : Type := mkParsedFile
  { path : string; language : string;
    imports : list ImportStatement; exports : list ExportStatement;
    functions : list FunctionInfo; classes : list ClassInfo;
    interfaces : list string; types : list string;
    constants : list string; enums : list string }.

(** The object both extractors return from their [catch] block. *)
Definition emptyParsedFile (path language : string) : ParsedFile :=
  mkParsedFile path language [] [] [] [] [] [] [] [].

End Models.

(* ===================================================================== *)
(** * modules/parser/parsers/python.parser                                *)
(* ===================================================================== *)

Module PythonParser.
Import RegExp Models.

(** The pattern "/^(\s*)(async\s+)?def\s+(\w+)\s*\(([^)]*)\)\s*(?:->?\s*([^:]+))?:/gm". *)
Definition funcRegex : Regex :=
  Seqs [ Bol true; Group 1 (Star space);
         Opt (Group 2 (Seq (Lit "async") (Plus space)));
         Lit "def"; Plus space; Group 3 (Plus word); Star space; Lit "(";
         Group 4 (Star (none_of ")")); Lit ")"; Star space;
         Opt (Seqs [Lit "-"; Opt (Lit ">"); Star space; Group 5 (Plus (none_of ":"))]);
         Lit ":" ].

(** The pattern "/^(\s+)(async\s+)?def\s+(\w+)\s*\(([^)]*)\)\s*(?:->\s*([^:]+))?:/gm". *)
Definition methodRegex : Regex :=
  Seqs [ Bol true; Group 1 (Plus space);
         Opt (Group 2 (Seq (Lit "async") (Plus space)));
         Lit "def"; Plus space; Group 3 (Plus word); Star space; Lit "(";
         Group 4 (Star (none_of ")")); Lit ")"; Star space;
         Opt (Seqs [Lit "->"; Star space; Group 5 (Plus (none_of ":"))]);
         Lit ":" ].

(** The pattern "/^(\s*)class\s+(\w+)(?:\(([^)]+)\))?:/gm". *)
Definition classRegex : Regex :=
  Seqs [ Bol true; Group 1 (Star space); Lit "class"; Plus space;
         Group 2 (Plus word);
         Opt (Seqs [Lit "("; Group 3 (Plus (none_of ")")); Lit ")"]);
         Lit ":" ].

(** The pattern "/^class\s+\w+/gm", built with [new RegExp]. *)
Definition nextClassRegex : Regex :=
  Seqs [ Bol true; Lit "class"; Plus space; Plus word ].

(** The patterns "/^(\w+)\s*:\s*([^=]+)/" and "/^(\*{0,2}\w+)/". *)
Definition typeRegex : Regex :=
  Seqs [ Bol false; Group 1 (Plus word); Star space; Lit ":"; Star space;
         Group 2 (Plus (none_of "=")) ].
Definition nameRegex : Regex :=
  Seqs [ Bol false; Group 1 (Seqs [Opt (Lit "*"); Opt (Lit "*"); Plus word]) ].

Definition comma : ascii := ","%char.

(** [parseParameters(paramsStr)]. *)
Definition parseParameters (paramsStr : string) : list ParameterInfo :=
  if String.eqb (Js.trim paramsStr) "" then []
  else
    let params := map Js.trim (Js.split comma paramsStr) in
    flat_map
      (fun param =>
         if String.eqb param "" then []
         else
           let cs := Js.chars param in
           match exec cs typeRegex 0 with
           | Some typeMatch =>
               [ mkParameter (default "" (group cs typeMatch 1))
                   (Some (Js.trim (default "" (group cs typeMatch 2)))) ]
           | None =>
               match exec cs nameRegex 0 with
               | Some nameMatch =>
                   [ mkParameter (default "" (group cs nameMatch 1)) None ]
               | None => []
               end
           end)
      params.

(** The multi-line branch of [extractDocstring]: the lines after the
    first, up to the one that holds the closing delimiter. *)
Fixpoint docstringLines (delimiter : string) (lines : list string)
  : option (list string) :=
  match lines with
  | [] => None
  | line :: rest =>
      match Js.indexOf line delimiter with
      | Some i =>
          let content := Js.substring line 0 i in
          Some (if String.eqb (Js.trim content) "" then [] else [Js.trim content])
      | None =>
          match docstringLines delimiter rest with
          | Some more => Some (Js.trim line :: more)
          | None => None
          end
      end
  end.

(** [extractDocstring(lines, defLineNumber)]; [defLineNumber] is
    1-indexed, so it is the 0-based index of the following line. *)
Definition extractDocstring (lines : list string) (defLineNumber : nat)
  : option string :=
  let nextLineIndex := defLineNumber in
  match nth_error lines nextLineIndex with
  | None => None
  | Some line =>
      let nextLine := Js.trim line in
      if String.eqb nextLine ""
         || (negb (Js.startsWith nextLine Js.triple_double)
             && negb (Js.startsWith nextLine Js.triple_single))
      then None
      else
        let delimiter :=
          if Js.startsWith nextLine Js.triple_double
          then Js.triple_double else Js.triple_single in
        let dl := String.length delimiter in
        if Js.endsWith nextLine delimiter
           && (dl * 2 <? String.length nextLine)%nat
        then Some (Js.trim (Js.substring nextLine dl (String.length nextLine - dl)))
        else
          let first :=
            let content :=
              Js.substring_from line (default 0%nat (Js.indexOf line delimiter) + dl) in
            if String.eqb (Js.trim content) "" then [] else [Js.trim content] in
          match docstringLines delimiter (drop (S nextLineIndex) lines) with
          | Some more => Some (Js.join_with (Js.str [Js.LF]) (first ++ more))
          | None => None
          end
  end.

(** [content.substring(0, position).split('\n').length]. *)
Definition lineNumberAt (content : string) (position : nat) : nat :=
  length (Js.split Js.LF (Js.substring content 0 position)).

(** [extractFunctions(content, lines, functions)]: what it pushes. *)
Definition extractFunctions (content : string) (lines : list string)
  : list FunctionInfo :=
  let cs := Js.chars content in
  flat_map
    (fun x =>
       let indent := default "" (group cs x 1) in
       let asyncKeyword := group cs x 2 in
       let name := default "" (group cs x 3) in
       let paramsStr := default "" (group cs x 4) in
       let returnType := group cs x 5 in
       if (0 <? String.length indent)%nat then []
       else
         let parameters := parseParameters paramsStr in
         let position := index x in
         let lineNumber := lineNumberAt content position in
         let docstring := extractDocstring lines lineNumber in
         [ {| fn_name := name; parameters := parameters;
              returnType := option_map Js.trim returnType;
              isAsync := bool_decide (is_Some asyncKeyword);
              isGenerator := false;
              location := mkLocation position (stop x) lineNumber;
              docstring := docstring; modifiers := None |} ])
    (exec_all cs funcRegex).

(** The object [extractMethodsFromClass] pushes for the match [x]. *)
Definition methodInfo (content : string) (lines : list string) (x : Match)
  : FunctionInfo :=
  let cs := Js.chars content in
  let asyncKeyword := group cs x 2 in
  let name := default "" (group cs x 3) in
  let paramsStr := default "" (group cs x 4) in
  let returnType := group cs x 5 in
  let position := index x in
  let lineNumber := lineNumberAt content position in
  (* parameters, without 'self' and 'cls' *)
  let parameters :=
    filter (fun p => negb (String.eqb (param_name p) "self")
                     && negb (String.eqb (param_name p) "cls"))
           (parseParameters paramsStr) in
  let docstring := extractDocstring lines lineNumber in
  let modifiers :=
    if Js.startsWith name "_" && negb (Js.startsWith name "__")
    then ["protected"]
    else if Js.startsWith name "__" then ["private"] else [] in
  {| fn_name := name; parameters := parameters;
     returnType := option_map Js.trim returnType;
     isAsync := bool_decide (is_Some asyncKeyword);
     isGenerator := false;
     location := mkLocation position (stop x) lineNumber;
     docstring := docstring; modifiers := Some modifiers |}.

(** [extractMethodsFromClass(content, lines, classLine, className)]: the
    three [continue] tests on each match of [methodRegex], then the push. *)
Definition extractMethodsFromClass (content : string) (lines : list string)
  (classLine : nat) (className : string) : list FunctionInfo :=
  let cs := Js.chars content in
  flat_map
    (fun x =>
       let indent := default "" (group cs x 1) in
       let lineNumber := lineNumberAt content (index x) in
       (* only methods that come after the class definition *)
       if (lineNumber <=? classLine)%nat then []
       (* only if indented *)
       else if (String.length indent =? 0)%nat then []
       else
         (* nextClassRegex.lastIndex = match.index + fullMatch.length *)
         let nextClassMatch := exec cs nextClassRegex (stop x) in
         if match nextClassMatch with
            | Some next => (index next <? index x)%nat
            | None => false
            end
         then []
         else [methodInfo content lines x])
    (exec_all cs methodRegex).

(** [extractClasses(content, lines, classes)]: what it pushes. *)
Definition extractClasses (content : string) (lines : list string)
  : list ClassInfo :=
  let cs := Js.chars content in
  flat_map
    (fun x =>
       let indent := default "" (group cs x 1) in
       let name := default "" (group cs x 2) in
       let baseClasses := group cs x 3 in
       (* skip nested classes *)
       if (0 <? String.length indent)%nat then []
       else
         let position := index x in
         let lineNumber := lineNumberAt content position in
         let docstring := extractDocstring lines lineNumber in
         let methods := extractMethodsFromClass content lines lineNumber name in
         let superClass :=
           option_map (fun b => Js.trim (hd "" (Js.split comma b))) baseClasses in
         [ {| class_name := name; methods := methods; properties := [];
              superClass := superClass; decorators := [];
              class_location := mkLocation position (stop x) lineNumber;
              class_docstring := docstring |} ])
    (exec_all cs classRegex).

(** The patterns "/^\s*import\s+([\w.]+)(?:\s+as\s+(\w+))?/",
    "/^\s*from\s+([\w.]+)\s+import\s+(.+)/" and "/\s+as\s+/". *)
Definition dotted : Regex := Char (fun a => Js.is_word a || Ascii.eqb a "."%char).
Definition importRegex : Regex :=
  Seqs [ Bol false; Star space; Lit "import"; Plus space; Group 1 (Plus dotted);
         Opt (Seqs [Plus space; Lit "as"; Plus space; Group 2 (Plus word)]) ].
Definition fromImportRegex : Regex :=
  Seqs [ Bol false; Star space; Lit "from"; Plus space; Group 1 (Plus dotted);
         Plus space; Lit "import"; Plus space; Group 2 (Plus any) ].
Definition asRegex : Regex := Seqs [ Plus space; Lit "as"; Plus space ].

(** [importedNames.replace(/[()]/g, '')]. *)
Definition removeParentheses (s : string) : string :=
  Js.str (filter (fun a => negb (Ascii.eqb a "("%char || Ascii.eqb a ")"%char))
            (Js.chars s)).

(** [extractImports(lines, imports)]: what it pushes. *)
Definition extractImports (lines : list string) : list ImportStatement :=
  flat_map
    (fun line =>
       let trimmed := Js.trim line in
       if Js.startsWith trimmed "#" then []
       else
         let cs := Js.chars line in
         match exec cs importRegex 0 with
         | Some importMatch =>
             let moduleName := default "" (group cs importMatch 1) in
             let alias := group cs importMatch 2 in
             [ mkImport moduleName [mkSpecifier moduleName alias] false ]
         | None =>
             match exec cs fromImportRegex 0 with
             | Some fromMatch =>
                 let moduleName := default "" (group cs fromMatch 1) in
                 let importedNames := default "" (group cs fromMatch 2) in
                 let names :=
                   filter (fun name => negb (String.eqb name "")
                                       && negb (Js.startsWith name "#"))
                     (map Js.trim (Js.split comma (removeParentheses importedNames))) in
                 let specifiers :=
                   map (fun name =>
                          match RegExp.split asRegex name with
                          | [a; b] => mkSpecifier (Js.trim a) (Some (Js.trim b))
                          | a :: _ => mkSpecifier (Js.trim a) None
                          | [] => mkSpecifier "" None
                          end)
                       names in
                 [ mkImport moduleName specifiers false ]
             | None => []
             end
         end)
    lines.

(** The body of the [try] block of [parseFile]. *)
Definition extract (filePath content : string) : ParsedFile :=
  let lines := Js.split Js.LF content in
  let imports := extractImports lines in
  let functions := extractFunctions content lines in
  let classes := extractClasses content lines in
  let exports :=
    (map (fun func => mkExport (fn_name func) "named")
         (filter (fun func => negb (Js.startsWith (fn_name func) "_")) functions)
     ++ map (fun cls => mkExport (class_name cls) "named")
         (filter (fun cls => negb (Js.startsWith (class_name cls) "_")) classes))%list in
  mkParsedFile filePath "python" imports exports functions classes [] [] [] [].

(** [parseFile(filePath)]: the read is outside the [try] block, so its
    rejection is the rejection of [parseFile]; the extraction itself is a
    total function of the content. *)
Definition parseFile (filePath : string) (e : Fs.Entry) : Js.Result ParsedFile :=
  match Fs.readFile e with
  | Js.Throw msg => Js.Throw msg
  | Js.Ok content => Js.Ok (extract filePath content)
  end.

End PythonParser.

(* ===================================================================== *)
(** * modules/parser/language-detector                                    *)
(* ===================================================================== *)

Module LanguageDetector.
Import RegExp.

Inductive Confidence : Type := high | medium | low.
Inductive Basis : Type := by_extension | by_content | by_shebang.

Record LanguageDetectionResult : Type := mkDetection
  { language : string; confidence : Confidence; detectedBy : Basis }.

Definition EXTENSION_MAP : gmap string string :=
  list_to_map
    [ (".js", "javascript"); (".jsx", "javascript"); (".ts", "typescript");
      (".tsx", "typescript"); (".mjs", "javascript"); (".cjs", "javascript");
      (".py", "python"); (".pyw", "python"); (".pyx", "python");
      (".java", "java"); (".kt", "kotlin"); (".kts", "kotlin");
      (".c", "c"); (".h", "c"); (".cpp", "cpp"); (".cc", "cpp"); (".cxx", "cpp");
      (".hpp", "cpp"); (".hh", "cpp"); (".hxx", "cpp"); (".cs", "csharp");
      (".go", "go"); (".rs", "rust"); (".rb", "ruby"); (".rake", "ruby");
      (".php", "php"); (".swift", "swift"); (".dart", "dart");
      (".scala", "scala"); (".sh", "shell"); (".bash", "shell");
      (".zsh", "shell"); (".sql", "sql"); (".r", "r"); (".R", "r");
      (".m", "objective-c"); (".mm", "objective-c") ].

Definition SHEBANG_MAP : gmap string string :=
  list_to_map
    [ ("python", "python"); ("python2", "python"); ("python3", "python");
      ("node", "javascript"); ("ruby", "ruby"); ("perl", "perl");
      ("php", "php"); ("bash", "shell"); ("sh", "shell"); ("zsh", "shell") ].

Definition quotes : Regex :=
  Char (fun a => Ascii.eqb a Js.quote || Ascii.eqb a "'"%char).
Definition Alts (words : list string) : Regex :=
  fold_right (fun w r => Alt (Lit w) r) (Char (fun _ => false)) words.
Definition spaces : Regex := Plus space.
Definition words1 : Regex := Plus word.
Definition dotted : Regex := Char (fun a => Js.is_word a || Ascii.eqb a "."%char).
Definition coloned : Regex := Char (fun a => Js.is_word a || Ascii.eqb a ":"%char).

(** [CONTENT_PATTERNS]: language, patterns, [minMatches]; the patterns in
    the order of the source. *)
Definition CONTENT_PATTERNS : list (string * list Regex * nat) :=
  [ ("typescript",
     [ Seqs [WordBoundary; Lit "interface"; spaces; words1];
       Seqs [WordBoundary; Lit "type"; spaces; words1; Star space; Lit "="];
       Seqs [Lit ":"; Star space;
             Group 1 (Alts ["string"; "number"; "boolean"; "any"; "void"; "unknown"; "never"])];
       Seqs [WordBoundary; Lit "as"; spaces; Group 1 (Alts ["const"; "any"; "unknown"])];
       Seqs [Lit "<"; words1; Lit ">"] ],
     2%nat);
    ("javascript",
     [ Seqs [WordBoundary; Lit "import"; spaces; Star any; WordBoundary; Lit "from";
             spaces; quotes];
       Seqs [WordBoundary; Lit "export"; spaces;
             Group 1 (Alts ["default"; "const"; "function"; "class"])];
       Seqs [WordBoundary; Lit "require"; Star space; Lit "("; quotes];
       Seqs [WordBoundary; Lit "module.exports"; Star space; Lit "="];
       Seqs [WordBoundary; Lit "const"; spaces; words1; Star space; Lit "="];
       Seqs [WordBoundary; Lit "let"; spaces; words1; Star space; Lit "="];
       Seqs [WordBoundary; Lit "var"; spaces; words1; Star space; Lit "="] ],
     1%nat);
    ("python",
     [ Seqs [WordBoundary; Lit "def"; spaces; words1; Star space; Lit "("];
       Seqs [WordBoundary; Lit "class"; spaces; words1; Star space; one_of ":("];
       Seqs [WordBoundary; Lit "import"; spaces; words1];
       Seqs [WordBoundary; Lit "from"; spaces; words1; spaces; Lit "import"];
       Seqs [WordBoundary; Lit "if"; spaces; Lit "__name__"; Star space; Lit "==";
             Star space; quotes; Lit "__main__"; quotes];
       Seqs [WordBoundary; Lit "self."] ],
     2%nat);
    ("java",
     [ Seqs [WordBoundary; Lit "public"; spaces; Lit "class"; spaces; words1];
       Seqs [WordBoundary; Lit "private"; spaces;
             Opt (Group 1 (Seq (Lit "static") spaces));
             Opt (Group 2 (Seq words1 spaces)); Group 3 words1; Star space; Lit "("];
       Seqs [WordBoundary; Lit "public"; spaces;
             Opt (Group 1 (Seq (Lit "static") spaces));
             Opt (Group 2 (Seq words1 spaces)); Group 3 words1; Star space; Lit "("];
       Seqs [WordBoundary; Lit "import"; spaces; Plus dotted; Lit ";"];
       Seqs [WordBoundary; Lit "package"; spaces; Plus dotted; Lit ";"] ],
     2%nat);
    ("go",
     [ Seqs [WordBoundary; Lit "package"; spaces; words1];
       Seqs [WordBoundary; Lit "func"; spaces; words1; Star space; Lit "("];
       Seqs [WordBoundary; Lit "import"; spaces; Lit "("];
       Seqs [WordBoundary; Lit "type"; spaces; words1; spaces; Lit "struct"];
       Seqs [WordBoundary; Lit "var"; spaces; words1; spaces; words1] ],
     2%nat);
    ("rust",
     [ Seqs [WordBoundary; Lit "fn"; spaces; words1; Star space; Lit "("];
       Seqs [WordBoundary; Lit "struct"; spaces; words1];
       Seqs [WordBoundary; Lit "impl"; spaces; words1];
       Seqs [WordBoundary; Lit "use"; spaces; Plus coloned; Lit ";"];
       Seqs [WordBoundary; Lit "let"; spaces; Lit "mut"; spaces];
       Seqs [WordBoundary; Lit "pub"; spaces; Group 1 (Alts ["fn"; "struct"; "enum"])] ],
     2%nat) ].

(** [detectFromExtension(filePath)]. *)
Definition detectFromExtension (filePath : string) : option string :=
  EXTENSION_MAP !! Js.toLowerCase (Js.extname filePath).

(** [detectFromShebang(content)].  The lookup [SHEBANG_MAP[interpreter]]
    is one in an object literal: for an interpreter that is no key of the
    table but names a member of [Object.prototype] it yields that member,
    which is truthy, so the member is what is returned; for any other
    interpreter the result is [null]. *)
Definition detectFromShebang (content : string) : option string :=
  let firstLine := Js.trim (hd "" (Js.split Js.LF content)) in
  if negb (Js.startsWith firstLine "#!") then None
  else
    let shebang := Js.trim (Js.substring_from firstLine 2) in
    let parts := RegExp.split (Plus space) shebang in
    let interpreter := Js.basename (hd "" parts) in
    match SHEBANG_MAP !! interpreter with
    | Some language => Some language
    | None =>
        if existsb (String.eqb interpreter) Js.objectPrototypeMembers
        then Some (Js.inheritedMember interpreter)
        else None
    end.

(** [detectFromContent(content)]: the best score [matches /
    patterns.length] among the candidates that reach [minMatches]; a later
    candidate replaces the best only with a strictly greater score. *)
Definition detectFromContent (content : string) : option string :=
  option_map fst
    (fold_left
       (fun (bestMatch : option (string * (nat * nat))) candidate =>
          let '(language, patterns, minMatches) := candidate in
          let matches := length (filter (fun pattern => test pattern content) patterns) in
          if (minMatches <=? matches)%nat then
            match bestMatch with
            | None => Some (language, (matches, length patterns))
            | Some (_, (bm, bl)) =>
                (* matches / patterns.length > bestMatch.score *)
                if (bm * length patterns <? matches * bl)%nat
                then Some (language, (matches, length patterns))
                else bestMatch
            end
          else bestMatch)
       CONTENT_PATTERNS None).

(** [detectLanguage(filePath)], on the entry found at [filePath]. *)
Definition detectLanguage (filePath : string) (e : Fs.Entry)
  : LanguageDetectionResult :=
  match detectFromExtension filePath with
  | Some extLang => mkDetection extLang high by_extension
  | None =>
      let unknown := mkDetection "unknown" low by_extension in
      match Fs.readFile e with
      | Js.Throw _ => unknown
      | Js.Ok content =>
          match detectFromShebang content with
          | Some shebangLang => mkDetection shebangLang high by_shebang
          | None =>
              let sample := Js.substring content 0 5000 in
              match detectFromContent sample with
              | Some contentLang => mkDetection contentLang medium by_content
              | None => unknown
              end
          end
      end
  end.

(** [isSupportedForParsing(language)]. *)
Definition isSupportedForParsing (language : string) : bool :=
  existsb (String.eqb language) ["typescript"; "javascript"; "python"].

End LanguageDetector.

(* ===================================================================== *)
(** * modules/parser/parsers/typescript.parser                            *)
(* ===================================================================== *)

Module TypeScriptParser.
Import Models.

(** What the traversal of the syntax tree collects. *)
Record Extracted : Type := mkExtracted
  { x_imports : list ImportStatement; x_exports : list ExportStatement;
    x_functions : list FunctionInfo; x_classes : list ClassInfo }.

Section Parser.

(** The body of the [try] block: [parse(content, ...)] of
    [@typescript-eslint/parser] followed by [traverseNode]; [Throw] when
    either raises (a syntax error, for one). *)
Variable parseAndTraverse : string -> Js.Result Extracted.

(** [parseFile(filePath)]: the read is outside the [try] block; an
    exception inside it is logged and an empty parsed file is returned. *)
Definition parseFile (filePath : string) (e : Fs.Entry) : Js.Result ParsedFile :=
  match Fs.readFile e with
  | Js.Throw msg => Js.Throw msg
  | Js.Ok content =>
      let relativePath := filePath in
      match parseAndTraverse content with
      | Js.Ok x =>
          Js.Ok (mkParsedFile relativePath "typescript" (x_imports x) (x_exports x)
                   (x_functions x) (x_classes x) [] [] [] [])
      | Js.Throw _ => Js.Ok (emptyParsedFile relativePath "typescript")
      end
  end.

End Parser.

End TypeScriptParser.

(* ===================================================================== *)
(** * modules/parser/parser.service                                       *)
(* ===================================================================== *)

Module ParserService.
Import Models.

Record ParserOptions : Type := mkParserOptions
  { skipLargeFiles : option bool; maxFileSize : option Z }.

Definition DEFAULT_MAX_FILE_SIZE : Z := 1024 * 1024.

Section Service.

(** The working copy, as the entry each path resolves to. *)
Variable fs : string -> Fs.Entry.
(** The syntax-tree extraction of the TypeScript parser. *)
Variable parseAndTraverse : string -> Js.Result TypeScriptParser.Extracted.
(** [javascriptParser.parseFile], whose module is outside this embedding. *)
Variable javascriptParser_parseFile : string -> Fs.Entry -> Js.Result ParsedFile.

(** The size check of [parseFile]: [true] when it returns [null], for a
    file above [maxFileSize] and for one on which [fs.stat] rejects. *)
Definition skippedBySize (options : ParserOptions) (e : Fs.Entry) : bool :=
  let maxSize :=
    match maxFileSize options with
    | Some n => if n =? 0 then DEFAULT_MAX_FILE_SIZE else n
    | None => DEFAULT_MAX_FILE_SIZE
    end in
  if default false (skipLargeFiles options) then
    match Fs.stat e with
    | Js.Ok stats => maxSize <? Fs.size stats
    | Js.Throw _ => true
    end
  else false.

(** The [switch] of [parseFile] on the detected language; its [default:]
    branch returns [null] as the [catch] block does. *)
Definition route (language filePath : string) (e : Fs.Entry) : Js.Result ParsedFile :=
  if String.eqb language "typescript"
  then TypeScriptParser.parseFile parseAndTraverse filePath e
  else if String.eqb language "javascript"
  then javascriptParser_parseFile filePath e
  else if String.eqb language "python"
  then PythonParser.parseFile filePath e
  else Js.Throw "No parser available".

(** [parseFile(filePath, options)]: [Ok None] is the [null] result. *)
Definition parseFile (filePath : string) (options : ParserOptions)
  : Js.Result (option ParsedFile) :=
  let e := fs filePath in
  if skippedBySize options e then Js.Ok None
  else
    let detection := LanguageDetector.detectLanguage filePath e in
    if negb (LanguageDetector.isSupportedForParsing (LanguageDetector.language detection))
    then Js.Ok None
    else
      match route (LanguageDetector.language detection) filePath e with
      | Js.Ok file => Js.Ok (Some file)
      | Js.Throw _ => Js.Ok None
      end.

(** What [parseFile] resolves to. *)
Definition parsedOrNull (filePath : string) (options : ParserOptions)
  : option ParsedFile :=
  match parseFile filePath options with
  | Js.Ok r => r
  | Js.Throw _ => None
  end.

(** [Promise.all]: the first rejection, or all the values. *)
Fixpoint all {A : Type} (promises : list (Js.Result A)) : Js.Result (list A) :=
  match promises with
  | [] => Js.Ok []
  | Js.Throw msg :: _ => Js.Throw msg
  | Js.Ok a :: rest =>
      match all rest with
      | Js.Ok l => Js.Ok (a :: l)
      | Js.Throw msg => Js.Throw msg
      end
  end.

(** [parseFilesParallel(filePaths, options)]. *)
Definition parseFilesParallel (filePaths : list string) (options : ParserOptions)
  : Js.Result (list ParsedFile) :=
  match all (map (fun filePath => parseFile filePath options) filePaths) with
  | Js.Throw msg => Js.Throw msg
  | Js.Ok results => Js.Ok (omap (fun r => r) results)
  end.

(** [shouldParse(filePath)]. *)
Definition shouldParse (filePath : string) : bool :=
  LanguageDetector.isSupportedForParsing
    (LanguageDetector.language (LanguageDetector.detectLanguage filePath (fs filePath))).

(** [parseFiles(filePaths, options)]: the files one after the other, each
    awaited before the next; [results] is the array it pushes to. *)
Fixpoint parseFiles_from (filePaths : list string) (options : ParserOptions)
  (results : list ParsedFile) : Js.Result (list ParsedFile) :=
  match filePaths with
  | [] => Js.Ok results
  | filePath :: rest =>
      match parseFile filePath options with
      | Js.Throw msg => Js.Throw msg
      | Js.Ok (Some parsed) => parseFiles_from rest options (results ++ [parsed])%list
      | Js.Ok None => parseFiles_from rest options results
      end
  end.

Definition parseFiles (filePaths : list string) (options : ParserOptions)
  : Js.Result (list ParsedFile) :=
  parseFiles_from filePaths options [].

End Service.

(** [getSupportedLanguages()]. *)
Definition getSupportedLanguages : list string := ["typescript"; "javascript"; "python"].

End ParserService.

(* ===================================================================== *)
(** * modules/filesystem/metrics.service                                  *)
(* ===================================================================== *)

Module Metrics.
Import TreeBuilder.

Record SizeBreakdown : Type := mkSizeBreakdown
  { totalSize : Z; averageFileSize : Js.Number }.

Record FileTreeStatistics : Type := mkStatistics
  { totalFiles : Z; totalDirectories : Z; totalLines : Z;
    languageBreakdown : gmap string Z; sizeBreakdown : SizeBreakdown }.

(** One visit of [traverseAndCount], children apart. *)
Definition countNode (node : FileTreeNode) (stats : FileTreeStatistics)
  : FileTreeStatistics :=
  match type node with
  | directory =>
      mkStatistics (totalFiles stats) (totalDirectories stats + 1) (totalLines stats)
        (languageBreakdown stats) (sizeBreakdown stats)
  | file =>
      match metadata node with
      | Some m =>
          let lang := language m in
          mkStatistics (totalFiles stats + 1) (totalDirectories stats)
            (totalLines stats + linesOfCode m)
            (<[lang := default 0 (languageBreakdown stats !! lang) + 1]>
               (languageBreakdown stats))
            (mkSizeBreakdown (totalSize (sizeBreakdown stats) + size m)
               (averageFileSize (sizeBreakdown stats)))
      | None =>
          mkStatistics (totalFiles stats + 1) (totalDirectories stats) (totalLines stats)
            (languageBreakdown stats) (sizeBreakdown stats)
      end
  end.

(** [traverseAndCount(node, stats)]; the statistics object it mutates is
    threaded through.  Children are visited only under a directory. *)
Fixpoint traverseAndCount (node : FileTreeNode) (stats : FileTreeStatistics)
  : FileTreeStatistics :=
  let stats := countNode node stats in
  match type node, children node with
  | directory, Some cs => fold_left (fun st child => traverseAndCount child st) cs stats
  | _, _ => stats
  end.

Definition initialStatistics : FileTreeStatistics :=
  mkStatistics 0 0 0 ∅ (mkSizeBreakdown 0 (Js.Num 0)).

(** [calculateMetrics(tree)]. *)
Definition calculateMetrics (tree : FileTreeNode) : FileTreeStatistics :=
  let stats := traverseAndCount tree initialStatistics in
  if 0 <? totalFiles stats then
    mkStatistics (totalFiles stats) (totalDirectories stats) (totalLines stats)
      (languageBreakdown stats)
      (mkSizeBreakdown (totalSize (sizeBreakdown stats))
         (Js.round_div (totalSize (sizeBreakdown stats)) (totalFiles stats)))
  else stats.

End Metrics.

(* ===================================================================== *)
(** * The relational store behind the Prisma client                       *)
(* ===================================================================== *)

Module Prisma.

Inductive JobStatus : Type := queued | processing | completed | failed | cancelled.

#[global] Instance JobStatus_eq_dec : EqDecision JobStatus.
Proof. solve_decision. Defined.

Definition parseStatus (s : string) : option JobStatus :=
  if String.eqb s "queued" then Some queued
  else if String.eqb s "processing" then Some processing
  else if String.eqb s "completed" then Some completed
  else if String.eqb s "failed" then Some failed
  else if String.eqb s "cancelled" then Some cancelled
  else None.

Record AnalysisOptions : Type := mkAnalysisOptions
  { opt_includeTests : bool; opt_maxFileSizeKB : Z;
    opt_languages : option (list string);
    opt_excludePatterns : option (list string); opt_deepAnalysis : bool }.

(** Modelled from the spec: the persisted state layout (the schema file is
    not part of the sources).  [Analysis(id pk, repositoryUrl, owner, name,
    branch, commitSha?, status, error?, options json, createdAt, startedAt?,
    completedAt?)]. *)
Record AnalysisRow : Type := mkAnalysis
  { id : string; repositoryUrl : string; owner : string; name : string;
    branch : string; commitSha : option string; status : JobStatus;
    error : option string; options : AnalysisOptions; createdAt : Z;
    startedAt : option Z; completedAt : option Z }.

(** Modelled from the spec: [FileTree(analysisId pk fk, tree json,
    totalFiles, totalDirectories, totalLines, totalSize int64,
    languageBreakdown json)]. *)
Record FileTreeRow : Type := mkFileTree
  { ft_analysisId : string; ft_tree : TreeBuilder.FileTreeNode; ft_totalFiles : Z;
    ft_totalDirectories : Z; ft_totalLines : Z; ft_totalSize : Z;
    ft_languageBreakdown : gmap string Z }.

(** Modelled from the spec: [ParsedFile(id pk, analysisId fk, filePath,
    language, data json, unique(analysisId, filePath))].  [data] holds the
    value whose JSON text the column stores. *)
Record ParsedFileRow : Type := mkParsedFileRow
  { pf_id : nat; pf_analysisId : string; pf_filePath : string;
    pf_language : string; pf_data : Models.ParsedFile }.

(** The database: [connected = false] is a store that cannot be reached,
    on which every query rejects. *)
Record Db : Type := mkDb
  { connected : bool;
    analysis : gmap string AnalysisRow;
    fileTree : gmap string FileTreeRow;
    parsedFile : list ParsedFileRow;
    nextId : nat }.

Definition unreachable {A : Type} : Js.Result A := Js.Throw "Can't reach database server".

(** The [data] of an [update]: the columns that are set. *)
Record UpdateData : Type := mkUpdate
  { u_status : option JobStatus; u_startedAt : option Z;
    u_completedAt : option Z; u_error : option string;
    u_commitSha : option string }.

Definition applyUpdate (data : UpdateData) (r : AnalysisRow) : AnalysisRow :=
  {| id := id r; repositoryUrl := repositoryUrl r; owner := owner r;
     name := name r; branch := branch r;
     commitSha := match u_commitSha data with Some c => Some c | None => commitSha r end;
     status := default (status r) (u_status data);
     error := match u_error data with Some m => Some m | None => error r end;
     options := options r; createdAt := createdAt r;
     startedAt := match u_startedAt data with Some t => Some t | None => startedAt r end;
     completedAt :=
       match u_completedAt data with Some t => Some t | None => completedAt r end |}.

Definition withAnalysis (db : Db) (rows : gmap string AnalysisRow) : Db :=
  mkDb (connected db) rows (fileTree db) (parsedFile db) (nextId db).

(** [prisma.analysis.create({ data })]: rejects on a duplicate [id]. *)
Definition analysis_create (row : AnalysisRow) (db : Db) : Js.Result AnalysisRow * Db :=
  if negb (connected db) then (unreachable, db)
  else match analysis db !! id row with
       | Some _ => (Js.Throw "Unique constraint failed on the fields: (id)", db)
       | None => (Js.Ok row, withAnalysis db (<[id row := row]> (analysis db)))
       end.

(** [prisma.analysis.update({ where: { id }, data })]: rejects when no row
    has the id. *)
Definition analysis_update (key : string) (data : UpdateData) (db : Db)
  : Js.Result AnalysisRow * Db :=
  if negb (connected db) then (unreachable, db)
  else match analysis db !! key with
       | Some r =>
           let r' := applyUpdate data r in
           (Js.Ok r', withAnalysis db (<[key := r']> (analysis db)))
       | None => (Js.Throw "Record to update not found.", db)
       end.

Definition analysis_findUnique (key : string) (db : Db) : Js.Result (option AnalysisRow) :=
  if negb (connected db) then unreachable else Js.Ok (analysis db !! key).

(** The rows a [where] clause selects; the status comes from the query
    string as it is, and one that is no member of the enumeration is a
    validation error of the client. *)
Definition selectWhere (where_status : option string) (db : Db)
  : Js.Result (list AnalysisRow) :=
  if negb (connected db) then unreachable
  else
    let rows := (map_to_list (analysis db)).*2 in
    match where_status with
    | None => Js.Ok rows
    | Some s =>
        match parseStatus s with
        | Some st => Js.Ok (filter (fun r => status r = st) rows)
        | None => Js.Throw "Invalid value for argument `status`. Expected JobStatus."
        end
    end.

(** [orderBy: { createdAt: 'desc' }]. *)
Definition newerFirst (a b : AnalysisRow) : Prop := createdAt b <= createdAt a.

#[global] Instance newerFirst_dec : RelDecision newerFirst.
Proof. intros a b. unfold newerFirst. apply _. Defined.

(** [prisma.analysis.findMany({ where, take, skip, orderBy: { createdAt:
    'desc' } })], for non-negative [take] and [skip]. *)
Definition analysis_findMany (where_status : option string) (take_ skip : Z) (db : Db)
  : Js.Result (list AnalysisRow) :=
  match selectWhere where_status db with
  | Js.Throw msg => Js.Throw msg
  | Js.Ok rows =>
      let ordered := merge_sort newerFirst rows in
      Js.Ok (take (Z.to_nat take_) (drop (Z.to_nat skip) ordered))
  end.

(** [prisma.analysis.count({ where })]. *)
Definition analysis_count (where_status : option string) (db : Db) : Js.Result Z :=
  match selectWhere where_status db with
  | Js.Throw msg => Js.Throw msg
  | Js.Ok rows => Js.Ok (Z.of_nat (length rows))
  end.

(** [prisma.analysis.delete({ where: { id } })]: rejects when no row has the
    id; dependent rows go with it. *)
Definition analysis_delete (key : string) (db : Db) : Js.Result unit * Db :=
  if negb (connected db) then (unreachable, db)
  else match analysis db !! key with
       | Some _ =>
           (Js.Ok tt,
            mkDb (connected db) (delete key (analysis db)) (delete key (fileTree db))
              (filter (fun r => pf_analysisId r ≠ key) (parsedFile db)) (nextId db))
       | None => (Js.Throw "Record to delete does not exist.", db)
       end.

(** [prisma.fileTree.create({ data })]: rejects on a second tree for the
    analysis and on an analysis that does not exist. *)
Definition fileTree_create (row : FileTreeRow) (db : Db) : Js.Result FileTreeRow * Db :=
  if negb (connected db) then (unreachable, db)
  else match analysis db !! ft_analysisId row, fileTree db !! ft_analysisId row with
       | None, _ => (Js.Throw "Foreign key constraint failed on the field: analysisId", db)
       | Some _, Some _ =>
           (Js.Throw "Unique constraint failed on the fields: (analysisId)", db)
       | Some _, None =>
           (Js.Ok row,
            mkDb (connected db) (analysis db) (<[ft_analysisId row := row]> (fileTree db))
              (parsedFile db) (nextId db))
       end.

(** The data of one row of [createMany]: the columns the caller gives. *)
Record ParsedFileData : Type := mkParsedFileData
  { d_analysisId : string; d_filePath : string; d_language : string;
    d_data : Models.ParsedFile }.

Definition conflicts (d : ParsedFileData) (rows : list ParsedFileRow) : bool :=
  existsb (fun r => String.eqb (pf_analysisId r) (d_analysisId d)
                    && String.eqb (pf_filePath r) (d_filePath d)) rows.

(** The inserts of [createMany] with [skipDuplicates: true]: a row that
    conflicts on [(analysisId, filePath)] with a stored row, or with an
    earlier row of the batch, is left out. *)
Fixpoint insertSkippingDuplicates (data : list ParsedFileData)
  (rows : list ParsedFileRow) (next : nat) : list ParsedFileRow * nat :=
  match data with
  | [] => (rows, next)
  | d :: rest =>
      if conflicts d rows then insertSkippingDuplicates rest rows next
      else
        insertSkippingDuplicates rest
          (rows ++ [mkParsedFileRow next (d_analysisId d) (d_filePath d)
                      (d_language d) (d_data d)])%list
          (S next)
  end.

(** [prisma.parsedFile.createMany({ data, skipDuplicates: true })]. *)
Definition parsedFile_createMany (data : list ParsedFileData) (db : Db)
  : Js.Result nat * Db :=
  if negb (connected db) then (unreachable, db)
  else if negb (forallb (fun d => bool_decide (is_Some (analysis db !! d_analysisId d))) data)
  then (Js.Throw "Foreign key constraint failed on the field: analysisId", db)
  else
    let '(rows, next) := insertSkippingDuplicates data (parsedFile db) (nextId db) in
    (Js.Ok (length rows - length (parsedFile db))%nat,
     mkDb (connected db) (analysis db) (fileTree db) rows next).

(** [prisma.parsedFile.findMany({ where })], for the rows that [where]
    selects.  No [orderBy] is given, so the rows come in the order the
    database chooses: [rowOrder] is that choice, a rearrangement of the
    rows it is given. *)
Definition parsedFile_findMany (rowOrder : list ParsedFileRow -> list ParsedFileRow)
  (selected : ParsedFileRow -> bool) (db : Db) : Js.Result (list ParsedFileRow) :=
  if negb (connected db) then unreachable
  else Js.Ok (rowOrder (List.filter selected (parsedFile db))).

(** [prisma.parsedFile.findFirst({ where: { analysisId, filePath } })]. *)
Definition parsedFile_findFirst (analysisId filePath : string) (db : Db)
  : Js.Result (option ParsedFileRow) :=
  if negb (connected db) then unreachable
  else Js.Ok (find (fun r => String.eqb (pf_analysisId r) analysisId
                             && String.eqb (pf_filePath r) filePath)
                (parsedFile db)).

(** [prisma.fileTree.findUnique({ where: { analysisId } })]. *)
Definition fileTree_findUnique (analysisId : string) (db : Db)
  : Js.Result (option FileTreeRow) :=
  if negb (connected db) then unreachable else Js.Ok (fileTree db !! analysisId).

(** [prisma.fileTree.delete({ where: { analysisId } })]: rejects when the
    analysis has no tree. *)
Definition fileTree_delete (analysisId : string) (db : Db) : Js.Result unit * Db :=
  if negb (connected db) then (unreachable, db)
  else match fileTree db !! analysisId with
       | Some _ =>
           (Js.Ok tt,
            mkDb (connected db) (analysis db) (delete analysisId (fileTree db))
              (parsedFile db) (nextId db))
       | None => (Js.Throw "Record to delete does not exist.", db)
       end.

End Prisma.

(* ===================================================================== *)
(** * modules/storage/repository                                          *)
(* ===================================================================== *)

Module AnalysisRepository.
Import Prisma.

(** A string in a condition: [undefined] and the empty string are falsy. *)
Definition truthy (s : option string) : bool :=
  match s with
  | Some m => negb (String.eqb m "")
  | None => false
  end.

(** The [updateData] object [updateStatus] builds; [now] is [new Date()]. *)
Definition statusUpdateData (st : JobStatus) (err : option string) (now : Z)
  : UpdateData :=
  let setStarted := bool_decide (st = processing) && negb (truthy err) in
  let setCompleted :=
    negb setStarted && (bool_decide (st = completed) || bool_decide (st = failed)) in
  {| u_status := Some st;
     u_startedAt := if setStarted then Some now else None;
     u_completedAt := if setCompleted then Some now else None;
     u_error := if truthy err then err else None;
     u_commitSha := None |}.

(** [updateStatus(id, status, error?)]: the rejection of the store is
    logged and thrown again. *)
Definition updateStatus (key : string) (st : JobStatus) (err : option string)
  (now : Z) (db : Db) : Js.Result AnalysisRow * Db :=
  analysis_update key (statusUpdateData st err now) db.

(** [updateCommitSha(id, commitSha)]. *)
Definition updateCommitSha (key : string) (sha : string) (db : Db)
  : Js.Result AnalysisRow * Db :=
  analysis_update key (mkUpdate None None None None (Some sha)) db.

(** [create(data)]: a queued record; [now] is the column default. *)
Definition create (key repositoryUrl owner name branch : string)
  (options : AnalysisOptions) (now : Z) (db : Db) : Js.Result AnalysisRow * Db :=
  analysis_create
    (mkAnalysis key repositoryUrl owner name branch None queued None options now None None)
    db.

Record AnalysisWithRelations : Type := mkWithRelations
  { record : AnalysisRow; record_fileTree : option FileTreeRow;
    record_parsedFiles : list ParsedFileRow }.

(** [findById(id)]: [null] when there is no such record and when the query
    rejects. *)
Definition findById (key : string) (db : Db) : option AnalysisWithRelations :=
  match analysis_findUnique key db with
  | Js.Ok (Some r) =>
      Some (mkWithRelations r (fileTree db !! key)
              (filter (fun p => pf_analysisId p = key) (parsedFile db)))
  | Js.Ok None => None
  | Js.Throw _ => None
  end.

(** The columns [list] selects. *)
Record AnalysisListRow : Type := mkListRow
  { l_id : string; l_repositoryUrl : string; l_owner : string; l_name : string;
    l_branch : string; l_status : JobStatus; l_createdAt : Z;
    l_completedAt : option Z; l_error : option string }.

Definition selectListRow (r : AnalysisRow) : AnalysisListRow :=
  mkListRow (id r) (repositoryUrl r) (owner r) (name r) (branch r) (status r)
    (createdAt r) (completedAt r) (error r).

Record ListOptions : Type := mkListOptions
  { limit : option Z; offset : option Z; where_status : option string }.

(** The two queries of [list], with the arguments it derives from its
    options: [limit = 20] and [offset = 0] by default, a [where] clause
    only for a truthy status. *)
Definition listQueries (options : ListOptions) (db : Db)
  : Js.Result (list AnalysisRow) * Js.Result Z :=
  let limit := default 20 (limit options) in
  let offset := default 0 (offset options) in
  let where_ := if truthy (where_status options) then where_status options else None in
  (analysis_findMany where_ limit offset db, analysis_count where_ db).

(** [list(options)]: the whole body is inside [try]; [Promise.all] rejects
    when one of the queries does, and the [catch] block returns the empty
    page. *)
Definition list (options : ListOptions) (db : Db)
  : Js.Result (list AnalysisListRow * Z) :=
  match listQueries options db with
  | (Js.Ok analyses, Js.Ok total) => Js.Ok (map selectListRow analyses, total)
  | _ => Js.Ok ([], 0)
  end.

(** [delete(id)]. *)
Definition delete (key : string) (db : Db) : bool * Db :=
  match analysis_delete key db with
  | (Js.Ok _, db') => (true, db')
  | (Js.Throw _, db') => (false, db')
  end.

End AnalysisRepository.

Module FileTreeRepository.
Import Prisma.

(** [save(analysisId, tree, statistics)]: the rejection of the store is
    logged and thrown again. *)
Definition save (analysisId : string) (tree : TreeBuilder.FileTreeNode)
  (statistics : Metrics.FileTreeStatistics) (db : Db) : Js.Result FileTreeRow * Db :=
  fileTree_create
    {| ft_analysisId := analysisId; ft_tree := tree;
       ft_totalFiles := Metrics.totalFiles statistics;
       ft_totalDirectories := Metrics.totalDirectories statistics;
       ft_totalLines := Metrics.totalLines statistics;
       ft_totalSize := Metrics.totalSize (Metrics.sizeBreakdown statistics);
       ft_languageBreakdown := Metrics.languageBreakdown statistics |}
    db.

(** [getByAnalysisId(analysisId)]: [null] when the analysis has no tree
    and when the query rejects. *)
Definition getByAnalysisId (analysisId : string) (db : Db) : option FileTreeRow :=
  match fileTree_findUnique analysisId db with
  | Js.Ok (Some fileTree) => Some fileTree
  | Js.Ok None => None
  | Js.Throw _ => None
  end.

(** [deleteByAnalysisId(analysisId)]. *)
Definition deleteByAnalysisId (analysisId : string) (db : Db) : bool * Db :=
  match fileTree_delete analysisId db with
  | (Js.Ok _, db') => (true, db')
  | (Js.Throw _, db') => (false, db')
  end.

End FileTreeRepository.

Module DependencyRepository.
Import Prisma.

(** [saveParsedFiles(analysisId, parsedFiles)]. *)
Definition saveParsedFiles (analysisId : string) (parsedFiles : list Models.ParsedFile)
  (db : Db) : Js.Result unit * Db :=
  let data :=
    map (fun file => mkParsedFileData analysisId (Models.path file)
                       (Models.language file) file)
        parsedFiles in
  match parsedFile_createMany data db with
  | (Js.Ok _, db') => (Js.Ok tt, db')
  | (Js.Throw msg, db') => (Js.Throw msg, db')
  end.

(** [getParsedFiles(analysisId)]: nothing catches the rejection of the
    query; the records come in the order of the database. *)
Definition getParsedFiles (rowOrder : list ParsedFileRow -> list ParsedFileRow)
  (analysisId : string) (db : Db) : Js.Result (list Models.ParsedFile) :=
  match parsedFile_findMany rowOrder
          (fun record => String.eqb (pf_analysisId record) analysisId) db with
  | Js.Throw msg => Js.Throw msg
  | Js.Ok records => Js.Ok (map pf_data records)
  end.

(** [getParsedFile(analysisId, filePath)]: nothing catches the rejection
    of the query. *)
Definition getParsedFile (analysisId filePath : string) (db : Db)
  : Js.Result (option Models.ParsedFile) :=
  match parsedFile_findFirst analysisId filePath db with
  | Js.Throw msg => Js.Throw msg
  | Js.Ok (Some record) => Js.Ok (Some (pf_data record))
  | Js.Ok None => Js.Ok None
  end.

End DependencyRepository.

(* ===================================================================== *)
(** * routes/analysis.routes and the error middleware                     *)
(* ===================================================================== *)

Module Routes.

(** [res.json] writes a NaN or an infinity as [null]. *)
Definition toJSON (n : Js.Number) : option Z :=
  match n with
  | Js.Num z => Some z
  | _ => None
  end.

Record AnalysisListItem : Type := mkListItem
  { analysis_id : string; repository_url : string; item_status : Prisma.JobStatus;
    created_at : Z; completed_at : option Z }.

Inductive Body : Type :=
| ListBody (analyses : list AnalysisListItem) (total : Z) (page : Z)
| TreeBody (root : TreeBuilder.FileTreeNode) (statistics : Metrics.FileTreeStatistics)
| ErrorBody (error message : string)
| DeletedBody.

Record Response : Type := mkResponse { statusCode : Z; body : Body }.

(** [res.json(body)] on a fresh response: status 200. *)
Definition json (b : Body) : Response := mkResponse 200 b.

(** [asyncHandler] passes a rejection to [errorHandler], which answers
    with the status of an [AppError] and with 500 for any other error. *)
Definition errorHandler (name message : string) (status : Z) : Response :=
  mkResponse status (ErrorBody name message).

(** The query string of [GET /analyses], after [parseInt]: [None] is NaN
    for the numbers, an absent parameter for the status. *)
Record ListQuery : Type := mkListQuery
  { q_limit : option Z; q_offset : option Z; q_status : option string }.

(** [parseInt(x) || d]. *)
Definition orElse (parsed : option Z) (d : Z) : Z :=
  match parsed with
  | Some n => if n =? 0 then d else n
  | None => d
  end.

(** [GET /analyses]. *)
Definition listAnalyses (query : ListQuery) (db : Prisma.Db) : Response :=
  let limit := orElse (q_limit query) 20 in
  let offset := orElse (q_offset query) 0 in
  let status := q_status query in
  match AnalysisRepository.list
          (AnalysisRepository.mkListOptions (Some limit) (Some offset) status) db with
  | Js.Throw msg => errorHandler "InternalServerError" msg 500
  | Js.Ok (analyses, total) =>
      json (ListBody
              (map (fun a =>
                      mkListItem (AnalysisRepository.l_id a)
                        (AnalysisRepository.l_repositoryUrl a)
                        (AnalysisRepository.l_status a)
                        (AnalysisRepository.l_createdAt a)
                        (AnalysisRepository.l_completedAt a))
                   analyses)
              total
              (offset / limit + 1))
  end.

(** [GET /analysis/:id/tree]. *)
Definition getTree (key : string) (db : Prisma.Db) : Response :=
  match AnalysisRepository.findById key db with
  | None => errorHandler "NotFoundError" "Analysis not found" 404
  | Some analysis =>
      match AnalysisRepository.record_fileTree analysis with
      | None =>
          mkResponse 404
            (ErrorBody "File tree not found"
               "Analysis has not completed file tree generation yet")
      | Some fileTree =>
          json (TreeBody (Prisma.ft_tree fileTree)
                  {| Metrics.totalFiles := Prisma.ft_totalFiles fileTree;
                     Metrics.totalDirectories := Prisma.ft_totalDirectories fileTree;
                     Metrics.totalLines := Prisma.ft_totalLines fileTree;
                     Metrics.languageBreakdown := Prisma.ft_languageBreakdown fileTree;
                     Metrics.sizeBreakdown :=
                       {| Metrics.totalSize := Prisma.ft_totalSize fileTree;
                          Metrics.averageFileSize :=
                            Js.round_div (Prisma.ft_totalSize fileTree)
                              (Prisma.ft_totalFiles fileTree) |} |})
      end
  end.

(** [DELETE /analysis/:id]. *)
Definition deleteAnalysis (key : string) (db : Prisma.Db) : Response * Prisma.Db :=
  match AnalysisRepository.delete key db with
  | (true, db') => (json DeletedBody, db')
  | (false, db') => (errorHandler "NotFoundError" "Analysis not found" 404, db')
  end.

(** The [averageFileSize] a client reads in a response. *)
Definition averageFileSizeOf (r : Response) : option (option Z) :=
  match body r with
  | TreeBody _ statistics =>
      Some (toJSON (Metrics.averageFileSize (Metrics.sizeBreakdown statistics)))
  | _ => None
  end.

End Routes.

(* ===================================================================== *)
(** * modules/github/clone.service and workers/analysis.worker            *)
(* ===================================================================== *)

Module Worker.
Import Prisma.

Record JobProgress : Type := mkProgress
  { currentStep : string; percentage : Z; stepsCompleted : list string;
    stepsTotal : Z }.

Record GitHubRepoInfo : Type := mkRepoInfo
  { repo_owner : string; repo_name : string; repo_url : string; isValid : bool }.

(** What is outside the process during one attempt of a job: the remote
    host, git, the queue transport, the globbing of the scanner and the
    syntax-tree parsers.  Each field is the outcome of the call named in
    its comment. *)
Record Env : Type := mkEnv
  { parseGitHubUrl : string -> GitHubRepoInfo;
    fetchRepoMetadata : Js.Result string;        (* resolves to defaultBranch *)
    getCommitSha : Js.Result string;
    cloneId : string;                            (* generateId('clone') *)
    fsEnsureDir : Js.Result unit;                (* fs.ensureDir(localPath) *)
    gitClone : Js.Result Fs.Entry;               (* git.clone: the tree it fills the directory with *)
    gitCloneRemains : Fs.Entry;                  (* what a git.clone that rejects leaves there *)
    gitLog : Js.Result unit;                     (* repoGit.log(['-1']) *)
    gitRevparse : Js.Result unit;                (* repoGit.revparse(['--abbrev-ref', 'HEAD']) *)
    fsRemove : Js.Result unit;                   (* fs.remove(localPath); one that rejects removes nothing *)
    scanDirectory : list string;                 (* never rejects *)
    updateProgress : JobProgress -> Js.Result unit;
    parseAndTraverse : string -> Js.Result TypeScriptParser.Extracted;
    javascriptParser_parseFile : string -> Fs.Entry -> Js.Result Models.ParsedFile;
    localeCompare : string -> string -> Z }.

(** The state a job acts on: the store, the working copies on disk (by
    path), the progress records published, the supply of node ids, the
    clock. *)
Record World : Type := mkWorld
  { db : Db;
    workingCopies : gmap string Fs.Entry;
    published : list JobProgress;
    idSupply : nat;
    clock : Z }.

Definition withDb (w : World) (d : Db) : World :=
  mkWorld d (workingCopies w) (published w) (idSupply w) (clock w).
Definition withCopies (w : World) (c : gmap string Fs.Entry) : World :=
  mkWorld (db w) c (published w) (idSupply w) (clock w).

(** Computations of the worker: a state that survives an exception. *)
Definition M (A : Type) : Type := World -> Js.Result A * World.

Definition ret {A : Type} (a : A) : M A := fun w => (Js.Ok a, w).
Definition throw {A : Type} (message : string) : M A := fun w => (Js.Throw message, w).
Definition bind {A B : Type} (c : M A) (k : A -> M B) : M B :=
  fun w =>
    match c w with
    | (Js.Ok a, w') => k a w'
    | (Js.Throw message, w') => (Js.Throw message, w')
    end.
(** [try { c } catch (error) { handler(error.message) }]. *)
Definition try_catch {A : Type} (c : M A) (handler : string -> M A) : M A :=
  fun w =>
    match c w with
    | (Js.Ok a, w') => (Js.Ok a, w')
    | (Js.Throw message, w') => handler message w'
    end.

Declare Scope worker_scope.
Delimit Scope worker_scope with worker.
Notation "'let!' x ':=' c 'in' k" := (bind c (fun x => k))
  (at level 10, x name, c at level 100, k at level 200) : worker_scope.
Notation "'do!' c 'in' k" := (bind c (fun _ => k))
  (at level 10, c at level 100, k at level 200) : worker_scope.
Local Open Scope worker_scope.

(** A call on the store; [new Date()] reads the clock, which then moves. *)
Definition onDb {A : Type} (f : Z -> Db -> Js.Result A * Db) : M A :=
  fun w =>
    let '(r, d) := f (clock w) (db w) in
    (r, mkWorld d (workingCopies w) (published w) (idSupply w) (clock w + 1)).

(** [job.updateProgress(progress)]. *)
Definition publish (env : Env) (p : JobProgress) : M unit :=
  fun w =>
    match updateProgress env p with
    | Js.Ok _ =>
        (Js.Ok tt, mkWorld (db w) (workingCopies w) (published w ++ [p])%list
                     (idSupply w) (clock w))
    | Js.Throw message => (Js.Throw message, w)
    end.

Definition CLONE_BASE_PATH : string := "/tmp/lighthouse-repos".

(** The [catch] block of [cloneRepository]: the directory is removed (a
    failed removal is logged, no more) and an internal error is thrown,
    whatever the error was. *)
Definition cleanUpFailedClone (env : Env) (localPath : string) : M string :=
  fun w =>
    let w :=
      match fsRemove env with
      | Js.Ok _ => withCopies w (delete localPath (workingCopies w))
      | Js.Throw _ => w
      end in
    (Js.Throw "Failed to clone repository", w).

(** [cloneService.cloneRepository(repoUrl, options)].  One [try] block
    holds [fs.ensureDir], [git.clone] and the two queries on the clone,
    [log] and [revparse]: when the queries fail, the directory is already
    filled. *)
Definition cloneRepository (env : Env) : M string :=
  fun w =>
    let localPath := Js.join CLONE_BASE_PATH (cloneId env) in
    match fsEnsureDir env with
    | Js.Throw _ => cleanUpFailedClone env localPath w
    | Js.Ok _ =>
        let w :=
          withCopies w (<[localPath := Fs.Dir (cloneId env) (Some [])]> (workingCopies w)) in
        match gitClone env with
        | Js.Throw _ =>
            cleanUpFailedClone env localPath
              (withCopies w (<[localPath := gitCloneRemains env]> (workingCopies w)))
        | Js.Ok tree =>
            let w := withCopies w (<[localPath := tree]> (workingCopies w)) in
            match gitLog env with
            | Js.Throw _ => cleanUpFailedClone env localPath w
            | Js.Ok _ =>
                match gitRevparse env with
                | Js.Throw _ => cleanUpFailedClone env localPath w
                | Js.Ok _ => (Js.Ok localPath, w)
                end
            end
        end
    end.

(** [cloneService.deleteRepository(localPath)]. *)
Definition deleteRepository (env : Env) (localPath : string) : M unit :=
  fun w =>
    match fsRemove env with
    | Js.Ok _ => (Js.Ok tt, withCopies w (delete localPath (workingCopies w)))
    | Js.Throw _ => (Js.Throw "Failed to delete repository", w)
    end.

(** [treeBuilderService.buildFileTree(localPath, options)] on the working
    copy at [localPath]. *)
Definition buildFileTree (env : Env) (localPath : string)
  (options : TreeBuilder.Options) : M TreeBuilder.FileTreeNode :=
  fun w =>
    let root := default (Fs.Broken localPath) (workingCopies w !! localPath) in
    let '(r, st) :=
      TreeBuilder.buildFileTree (localeCompare env) root localPath options (idSupply w) in
    (r, mkWorld (db w) (workingCopies w) (published w) st (clock w)).

Definition liftResult {A : Type} (r : Js.Result A) : M A := fun w => (r, w).

(** The tree on disk at [localPath]. *)
Definition workingCopy (localPath : string) : M Fs.Entry :=
  fun w => (Js.Ok (default (Fs.Broken localPath) (workingCopies w !! localPath)), w).

Record AnalysisJobData : Type := mkJobData
  { analysisId : string; repositoryUrl : string; job_branch : option string;
    job_options : AnalysisOptions }.

Record JobReturn : Type := mkJobReturn
  { ret_analysisId : string; ret_status : string; ret_completedAt : Z }.

Definition steps (n : nat) : list string :=
  take n [ "Metadata fetched"; "Repository cloned"; "File tree built";
           "Metrics calculated"; "Files parsed"; "Data saved" ].

(** The [try] block of [processAnalysisJob]. *)
Definition pipeline (env : Env) (data : AnalysisJobData) : M JobReturn :=
  let analysisId := analysisId data in
  let options := job_options data in
  do! onDb (fun now => AnalysisRepository.updateStatus analysisId processing None now) in
  do! publish env (mkProgress "Starting analysis" 0 [] 6) in
  let repoInfo := parseGitHubUrl env (repositoryUrl data) in
  do! (if isValid repoInfo then ret tt else throw "Invalid GitHub repository URL") in
  do! publish env (mkProgress "Fetching repository metadata" 10 [] 6) in
  let! defaultBranch := liftResult (fetchRepoMetadata env) in
  let! commitSha := liftResult (getCommitSha env) in
  do! onDb (fun _ => AnalysisRepository.updateCommitSha analysisId commitSha) in
  do! publish env (mkProgress "Cloning repository" 20 (steps 1) 6) in
  let! localPath := cloneRepository env in
  do! publish env (mkProgress "Building file tree" 40 (steps 2) 6) in
  let! fileTree :=
    buildFileTree env localPath
      (TreeBuilder.mkOptions (opt_excludePatterns options)
         (Some (opt_maxFileSizeKB options)) (Some (opt_includeTests options))) in
  do! publish env (mkProgress "Calculating metrics" 50 (steps 3) 6) in
  let statistics := Metrics.calculateMetrics fileTree in
  do! onDb (fun _ => FileTreeRepository.save analysisId fileTree statistics) in
  do! publish env (mkProgress "Parsing files" 65 (steps 4) 6) in
  let! root := workingCopy localPath in
  let fs := Fs.lookup root localPath in
  let files := scanDirectory env in
  let parseableFiles :=
    filter (fun filePath => ParserService.shouldParse fs filePath)
      (map (Js.join localPath) files) in
  let maxFilesToParse := 100%nat in
  let filesToParse := take maxFilesToParse parseableFiles in
  let! parsedFiles :=
    liftResult
      (ParserService.parseFilesParallel fs (parseAndTraverse env)
         (javascriptParser_parseFile env) filesToParse
         (ParserService.mkParserOptions (Some true) (Some (1024 * 500)))) in
  do! publish env (mkProgress "Saving parsed data" 85 (steps 5) 6) in
  do! (match parsedFiles with
       | [] => ret tt
       | _ =>
           let relativeParsedFiles :=
             map (fun pf =>
                    Models.mkParsedFile (Js.relative localPath (Models.path pf))
                      (Models.language pf) (Models.imports pf) (Models.exports pf)
                      (Models.functions pf) (Models.classes pf) (Models.interfaces pf)
                      (Models.types pf) (Models.constants pf) (Models.enums pf))
                 parsedFiles in
           onDb (fun _ => DependencyRepository.saveParsedFiles analysisId relativeParsedFiles)
       end) in
  do! deleteRepository env localPath in
  do! publish env (mkProgress "Analysis complete" 100 (steps 6) 6) in
  do! onDb (fun now => AnalysisRepository.updateStatus analysisId completed None now) in
  (fun w => (Js.Ok (mkJobReturn analysisId "completed" (clock w)), w)).

(** [processAnalysisJob(job)]: the [catch] block marks the record as failed
    with the message of the error and throws the error again. *)
Definition processAnalysisJob (env : Env) (data : AnalysisJobData) : M JobReturn :=
  try_catch (pipeline env data)
    (fun message =>
       do! onDb (fun now =>
                   AnalysisRepository.updateStatus (analysisId data) failed
                     (Some message) now) in
       throw message).

End Worker.

(* ===================================================================== *)
(** * modules/github/clone.service: the size of a working copy            *)
(* ===================================================================== *)

Module CloneService.

(** [getRepositorySize(localPath)], on the entry found at [localPath].
    The whole body is inside [try]: when [fs.readdir] rejects, or [fs.stat]
    of an entry that is no directory, the result is 0, whatever the loop
    had added up.  [.git] is skipped at every level. *)
Fixpoint getRepositorySize (e : Fs.Entry) : Z :=
  match e with
  | Fs.Dir _ (Some files) =>
      default 0
        ((fix loop (files : list Fs.Entry) (totalSize : Z) : option Z :=
            match files with
            | [] => Some totalSize
            | file :: rest =>
                if String.eqb (Fs.name file) ".git" then loop rest totalSize
                else
                  match file with
                  | Fs.Dir _ _ => loop rest (totalSize + getRepositorySize file)
                  | _ =>
                      match Fs.stat file with
                      | Js.Ok stats => loop rest (totalSize + Fs.size stats)
                      | Js.Throw _ => None
                      end
                  end
            end) files 0)
  | _ => 0
  end.

End CloneService.

(* ===================================================================== *)
(** * modules/dependency/dependency-resolver                              *)
(* ===================================================================== *)

Module DependencyResolver.

Record ResolvedImport : Type := mkResolvedImport
  { originalImport : string; resolvedPath : option string;
    isExternal : bool; isResolved : bool }.

Definition fileExtensions : list string := [".ts"; ".tsx"; ".js"; ".jsx"; ".py"; ".json"].

Definition builtinModules : list string :=
  [ "fs"; "path"; "http"; "https"; "crypto"; "util"; "stream"; "events";
    "buffer"; "process"; "os"; "child_process"; "cluster"; "net"; "url";
    "querystring"; "zlib" ].

(** [isExternalPackage(importSource)]. *)
Definition isExternalPackage (importSource : string) : bool :=
  if Js.startsWith importSource "." || Js.startsWith importSource "/" then false
  else if Js.startsWith importSource "@" then true
  else if existsb (String.eqb importSource) builtinModules then true
  else negb (Js.includes importSource "/") || negb (Js.startsWith importSource ".").

(** A string in a condition: [null] and the empty string are falsy. *)
Definition truthy (s : option string) : option string :=
  match s with
  | Some p => if String.eqb p "" then None else Some p
  | None => None
  end.

Section Resolver.

Variable projectRoot : string.
(** [fs.access(p)] resolves; [fs.stat(p)] resolves to a directory. *)
Variable fileExists : string -> bool.
Variable isDirectory : string -> bool.
(** [path.resolve], [path.dirname], [path.join] and [path.relative] of
    the host. *)
Variable path_resolve : string -> string -> string.
Variable path_dirname : string -> string.
Variable path_join : string -> string -> string.
Variable path_relative : string -> string -> string.

(** [tryResolveWithExtensions(basePath)]: the exact path first, then the
    extensions in their order. *)
Definition tryResolveWithExtensions (basePath : string) : option string :=
  if fileExists basePath then Some basePath
  else find fileExists (map (fun ext => basePath ++ ext) fileExtensions).

(** [tryResolveAsDirectory(dirPath)]. *)
Definition tryResolveAsDirectory (dirPath : string) : option string :=
  if negb (isDirectory dirPath) then None
  else
    find fileExists
      (flat_map
         (fun indexName => map (fun ext => path_join dirPath (indexName ++ ext)) fileExtensions)
         ["index"; "__init__"]).

(** [resolveLocalImport(importSource, currentFilePath)]. *)
Definition resolveLocalImport (importSource currentFilePath : string) : option string :=
  let currentDir := path_dirname currentFilePath in
  let basePath :=
    if Js.startsWith importSource "." then path_resolve currentDir importSource
    else if Js.startsWith importSource "/"
         then path_resolve projectRoot (Js.substring_from importSource 1)
         else path_resolve projectRoot importSource in
  match truthy (tryResolveWithExtensions basePath) with
  | Some resolved => Some (path_relative projectRoot resolved)
  | None =>
      match truthy (tryResolveAsDirectory basePath) with
      | Some indexResolved => Some (path_relative projectRoot indexResolved)
      | None => None
      end
  end.

(** [resolveImportPath(importSource, currentFilePath)]. *)
Definition resolveImportPath (importSource currentFilePath : string) : ResolvedImport :=
  if isExternalPackage importSource
  then mkResolvedImport importSource None true false
  else
    let resolvedPath := resolveLocalImport importSource currentFilePath in
    mkResolvedImport importSource resolvedPath false
      (match resolvedPath with Some _ => true | None => false end).

(** [resolveImports(imports, currentFilePath)], on the sources of the
    imports. *)
Definition resolveImports (imports : list string) (currentFilePath : string)
  : list ResolvedImport :=
  map (fun source => resolveImportPath source currentFilePath) imports.

(** [buildDependencyMap(parsedFiles)]: a [Map] keyed by the path of the
    file; a later file with the same path replaces the entry. *)
Definition buildDependencyMap (parsedFiles : list (string * list string))
  : gmap string (list ResolvedImport) :=
  fold_left
    (fun dependencyMap file =>
       <[file.1 := resolveImports file.2 file.1]> dependencyMap)
    parsedFiles ∅.

End Resolver.

End DependencyResolver.

(* ===================================================================== *)
(** * Vocabulary of the properties, and the fixtures of their examples    *)
(* ===================================================================== *)

(** ** Outcomes *)

(** A promise that rejected. *)
Definition rejected {A : Type} (r : Js.Result A) : Prop :=
  match r with Js.Throw _ => True | Js.Ok _ => False end.

(** ** Status calls on a record, rows of parsed files *)

Section StoreVocabulary.
Import Prisma.

(** One call [updateStatus(id, status, error?)] at time [now]. *)
Record StatusCall : Type := mkCall
  { call_status : JobStatus; call_error : option string; call_now : Z }.

(** The store after a sequence of calls on the record [key]. *)
Definition updates (key : string) (calls : list StatusCall) (db : Db) : Db :=
  fold_left
    (fun db c =>
       (AnalysisRepository.updateStatus key (call_status c) (call_error c)
          (call_now c) db).2)
    calls db.

(** The record one call makes of a record. *)
Definition afterCall (r : AnalysisRow) (c : StatusCall) : AnalysisRow :=
  applyUpdate
    (AnalysisRepository.statusUpdateData (call_status c) (call_error c) (call_now c)) r.

(** A call that enters [completed] or [failed]. *)
Definition terminalCall (c : StatusCall) : Prop :=
  call_status c = completed \/ call_status c = failed.

(** A call that enters [processing] without an error message. *)
Definition startingCall (c : StatusCall) : Prop :=
  call_status c = processing /\ AnalysisRepository.truthy (call_error c) = false.

(** A store that answers, without rows; and one that cannot be reached. *)
Definition emptyDb : Db := mkDb true ∅ ∅ [] 0.
Definition db_down : Db := mkDb false ∅ ∅ [] 0.

(** The row [saveParsedFiles] makes of a parsed file. *)
Definition parsedFileData (analysisId : string) (file : Models.ParsedFile)
  : ParsedFileData :=
  mkParsedFileData analysisId (Models.path file) (Models.language file) file.

(** The foreign-key check of [createMany] on the rows of one analysis. *)
Definition foreignKeyHolds (analysisId : string) (files : list Models.ParsedFile)
  (db : Db) : bool :=
  match files with
  | [] => true
  | _ :: _ => bool_decide (is_Some (analysis db !! analysisId))
  end.

End StoreVocabulary.

(** The options the handler of [GET /analyses] passes to [list]. *)
Definition handlerOptions (query : Routes.ListQuery) : AnalysisRepository.ListOptions :=
  AnalysisRepository.mkListOptions
    (Some (Routes.orElse (Routes.q_limit query) 20))
    (Some (Routes.orElse (Routes.q_offset query) 0))
    (Routes.q_status query).

(** ** Sibling order and the skip list *)

Section Siblings.
Import TreeBuilder.

Variable localeCompare : string -> string -> Z.

(** The order [children.sort] sorts by. *)
Definition before (a b : FileTreeNode) : Prop := compareNodes localeCompare a b <= 0.

(** Directories first, then files; within a group, names that ascend
    when case is ignored. *)
Definition siblingOrder (a b : FileTreeNode) : Prop :=
  (type a = directory /\ type b = file)
  \/ (type a = type b
      /\ localeCompare (Js.toLowerCase (name a)) (Js.toLowerCase (name b)) <= 0).

(** The children of a node, when it has any, are in sibling order. *)
Definition sortedChildren (n : FileTreeNode) : Prop :=
  forall cs, children n = Some cs -> StronglySorted siblingOrder cs.

(** A node whose name is in the skip list has no children. *)
Definition childlessIfSkipped (n : FileTreeNode) : Prop :=
  shouldSkipDirectory (name n) = true -> children n = None.

(** A tree without file nodes. *)
Definition onlyDirectories (n : FileTreeNode) : Prop :=
  Forall (fun m => type m = directory) (nodes n).

End Siblings.

(** The two kinds of node, as tests. *)
Definition isDirectory (n : TreeBuilder.FileTreeNode) : bool :=
  TreeBuilder.NodeType_eqb (TreeBuilder.type n) TreeBuilder.directory.
Definition isFileNode (n : TreeBuilder.FileTreeNode) : bool :=
  TreeBuilder.NodeType_eqb (TreeBuilder.type n) TreeBuilder.file.

(** ** A host collation for the examples *)

(** Lexicographic comparison of code units. *)
Fixpoint compareChars (l1 l2 : list ascii) : comparison :=
  match l1, l2 with
  | [], [] => Eq
  | [], _ :: _ => Lt
  | _ :: _, [] => Gt
  | a :: l1', b :: l2' =>
      match Nat.compare (nat_of_ascii a) (nat_of_ascii b) with
      | Eq => compareChars l1' l2'
      | c => c
      end
  end.

Definition sign (c : comparison) : Z :=
  match c with Lt => -1 | Eq => 0 | Gt => 1 end.

(** Case-folded code-unit order; names equal up to case are told apart
    with the lower case first. *)
Definition asciiCollation (a b : string) : Z :=
  match compareChars (map Js.lower_char (Js.chars a)) (map Js.lower_char (Js.chars b)) with
  | Eq => sign (compareChars (Js.chars b) (Js.chars a))
  | c => sign c
  end.

(** [l1] is not after [l2]. *)
Definition notAfter (l1 l2 : list ascii) : Prop := compareChars l1 l2 <> Gt.

(** ** Fixtures *)

(** The options of the examples. *)
Definition fixtureOptions : TreeBuilder.Options :=
  TreeBuilder.mkOptions None (Some 1000) (Some true).

(** Files [a.ts] and [b.py], and [node_modules/ignored.js]. *)
Definition fixtureRepo : Fs.Entry :=
  Fs.Dir "repo"
    (Some [ Fs.File "a.ts" 20 0 (Some "export const a = 1;");
            Fs.File "b.py" 14 0 (Some "def b(): pass");
            Fs.Dir "node_modules" (Some [ Fs.File "ignored.js" 3 0 (Some "1;") ]) ]).

(** Mixed-case siblings, directories among files. *)
Definition mixedRepo : Fs.Entry :=
  Fs.Dir "repo"
    (Some [ Fs.File "b.ts" 1 0 (Some "b"); Fs.File "A.ts" 1 0 (Some "A");
            Fs.Dir "src" (Some [ Fs.File "Zeta.ts" 1 0 (Some "z");
                                 Fs.File "alpha.ts" 1 0 (Some "a") ]);
            Fs.File "a.ts" 1 0 (Some "a"); Fs.Dir "Docs" (Some []) ]).

(** An empty repository, and the store after the intake of its analysis. *)
Definition emptyRepo : Fs.Entry := Fs.Dir "repo" (Some []).
Definition intakeDb : Prisma.Db :=
  (AnalysisRepository.create "a1" "https://github.com/acme/widgets" "acme" "widgets"
     "main" (Prisma.mkAnalysisOptions true 1000 None None false) 0 emptyDb).2.

(** The tree [buildFileTree] resolves to, a bare root when it rejects. *)
Definition builtTree (root : Fs.Entry) (rootPath : string) : TreeBuilder.FileTreeNode :=
  match TreeBuilder.buildFileTree asciiCollation root rootPath fixtureOptions 0%nat with
  | (Js.Ok tree, _) => tree
  | (Js.Throw _, _) =>
      TreeBuilder.mkNode 0%nat "" TreeBuilder.directory rootPath "" None None
  end.

(** The names of the children of a node, in order. *)
Definition childNames (n : TreeBuilder.FileTreeNode) : option (list string) :=
  option_map (map TreeBuilder.name) (TreeBuilder.children n).

Definition noJavascript (filePath : string) (e : Fs.Entry) : Js.Result Models.ParsedFile :=
  Js.Throw "no JavaScript parser".

(** Two parsed files, and a second parse of the first with other content. *)
Definition parsedA : Models.ParsedFile := Models.emptyParsedFile "a.ts" "typescript".
Definition parsedB : Models.ParsedFile := Models.emptyParsedFile "b.py" "python".
Definition parsedA' : Models.ParsedFile :=
  Models.mkParsedFile "a.ts" "typescript" [] [Models.mkExport "a" "named"] [] [] [] [] [] [].

(** Lines joined by line feeds. *)
Definition lines (l : list string) : string :=
  Js.join_with (Js.str [Js.LF]) l.

(** Two top-level classes, one method each. *)
Definition twoClasses : string :=
  lines [ "class A:";
          "    def a(self):";
          "        pass";
          "class B:";
          "    def b(self):";
          "        pass" ].

(** The classes of a Python source, each with the names of its methods. *)
Definition methodNames (content : string) : list (string * list string) :=
  map (fun c => (Models.class_name c, map Models.fn_name (Models.methods c)))
      (PythonParser.extractClasses content (Js.split Js.LF content)).

(** The job of the examples. *)
Definition job1 : Worker.AnalysisJobData :=
  Worker.mkJobData "a1" "https://github.com/acme/widgets" (Some "main")
    (Prisma.mkAnalysisOptions true 1000 None None false).

(** The world at the start of the job: the record of the intake, no
    working copy on disk. *)
Definition world0 : Worker.World := Worker.mkWorld intakeDb ∅ [] 0 1.

(** An attempt in which every collaborator answers. *)
Definition healthyEnv : Worker.Env :=
  {| Worker.parseGitHubUrl := fun url => Worker.mkRepoInfo "acme" "widgets" url true;
     Worker.fetchRepoMetadata := Js.Ok "main";
     Worker.getCommitSha := Js.Ok "0123abc";
     Worker.cloneId := "clone_1";
     Worker.fsEnsureDir := Js.Ok tt;
     Worker.gitClone := Js.Ok fixtureRepo;
     Worker.gitCloneRemains := Fs.Dir "clone_1" (Some []);
     Worker.gitLog := Js.Ok tt;
     Worker.gitRevparse := Js.Ok tt;
     Worker.fsRemove := Js.Ok tt;
     Worker.scanDirectory := ["a.ts"; "b.py"];
     Worker.updateProgress := fun _ => Js.Ok tt;
     Worker.parseAndTraverse := fun _ => Js.Ok (TypeScriptParser.mkExtracted [] [] [] []);
     Worker.javascriptParser_parseFile := noJavascript;
     Worker.localeCompare := asciiCollation |}.

(** The same attempt, but the queue connection is lost when the progress
    of the step after the file tree is published: an exception after the
    repository has been cloned. *)
Definition lostQueueEnv : Worker.Env :=
  {| Worker.parseGitHubUrl := Worker.parseGitHubUrl healthyEnv;
     Worker.fetchRepoMetadata := Worker.fetchRepoMetadata healthyEnv;
     Worker.getCommitSha := Worker.getCommitSha healthyEnv;
     Worker.cloneId := Worker.cloneId healthyEnv;
     Worker.fsEnsureDir := Worker.fsEnsureDir healthyEnv;
     Worker.gitClone := Worker.gitClone healthyEnv;
     Worker.gitCloneRemains := Worker.gitCloneRemains healthyEnv;
     Worker.gitLog := Worker.gitLog healthyEnv;
     Worker.gitRevparse := Worker.gitRevparse healthyEnv;
     Worker.fsRemove := Worker.fsRemove healthyEnv;
     Worker.scanDirectory := Worker.scanDirectory healthyEnv;
     Worker.updateProgress :=
       fun p => if Worker.percentage p =? 65 then Js.Throw "Connection is closed."
                else Js.Ok tt;
     Worker.parseAndTraverse := Worker.parseAndTraverse healthyEnv;
     Worker.javascriptParser_parseFile := Worker.javascriptParser_parseFile healthyEnv;
     Worker.localeCompare := Worker.localeCompare healthyEnv |}.

(** The world at the start of a later attempt of the job: the file tree
    of an earlier attempt is in the store. *)
Definition retryWorld : Worker.World :=
  Worker.mkWorld
    (FileTreeRepository.save "a1" (builtTree fixtureRepo "/tmp/lighthouse-repos/clone_0")
       (Metrics.calculateMetrics (builtTree fixtureRepo "/tmp/lighthouse-repos/clone_0"))
       intakeDb).2
    ∅ [] 0 1.

(** The working copy of the job, and what the store says of its record. *)
Definition clonePath : string := "/tmp/lighthouse-repos/clone_1".
Definition statusOf (w : Worker.World) (key : string) : option Prisma.JobStatus :=
  option_map Prisma.status (Prisma.analysis (Worker.db w) !! key).
Definition errorOf (w : Worker.World) (key : string) : option string :=
  mbind Prisma.error (Prisma.analysis (Worker.db w) !! key).

(** ** Tallies over the nodes of a tree *)

Section TreeVocabulary.
Import TreeBuilder.

(** The size and the line count a file node carries, 0 without metadata. *)
Definition sizeOf (n : FileTreeNode) : Z :=
  match metadata n with Some m => size m | None => 0 end.
Definition linesOf (n : FileTreeNode) : Z :=
  match metadata n with Some m => linesOfCode m | None => 0 end.
Definition hasMetadata (n : FileTreeNode) : bool :=
  match metadata n with Some _ => true | None => false end.

(** The sum of [f] over a list of nodes. *)
Definition total (f : FileTreeNode -> Z) (l : list FileTreeNode) : Z :=
  fold_right (fun n acc => f n + acc) 0 l.

(** A file node has no children. *)
Definition fileIsLeaf (n : FileTreeNode) : Prop := type n = file -> children n = None.

(** The nodes below a node. *)
Definition descendants (n : FileTreeNode) : list FileTreeNode :=
  match children n with Some cs => flat_map nodes cs | None => [] end.

(** The sum of the counts of a language breakdown. *)
Definition sumOfCounts (m : gmap string Z) : Z :=
  map_fold (fun _ count acc => count + acc) 0 m.

(** The identifiers of a list of nodes are distinct and drawn from
    [[lo, hi)]. *)
Definition freshIds (lo hi : nat) (l : list FileTreeNode) : Prop :=
  Forall (fun m => (lo <= TreeBuilder.id m < hi)%nat) l /\ NoDup (map TreeBuilder.id l).

End TreeVocabulary.


(** ** Retries *)

(** The waits of [n] failed attempts that are followed by another one. *)
Definition backoffWaits (delay backoff : Z) (n : nat) : list Z :=
  map (fun i => delay * backoff ^ Z.of_nat i) (seq 0 n).

(** The settings [retry] reads from its options. *)
Definition attemptsOf (options : Utils.RetryOptions) : Z :=
  default 3 (Utils.maxAttempts options).
Definition delayOf (options : Utils.RetryOptions) : Z := default 1000 (Utils.delay options).
Definition backoffOf (options : Utils.RetryOptions) : Z := default 2 (Utils.backoff options).

(** A function that fails twice and then answers 7; one that always
    fails. *)
Definition thirdTimeLucky (attempt : nat) : Js.Result Z :=
  if (attempt <? 3)%nat then Js.Throw "busy" else Js.Ok 7.
Definition alwaysDown (attempt : nat) : Js.Result Z := Js.Throw "down".

(** ** Buckets of files *)

(** The files of a list that the scanner detects as [language], in the
    order of the list. *)
Definition filesOfLanguage (language : string) (files : list string) : list string :=
  List.filter (fun file => String.eqb (FileScanner.detectLanguage file) language) files.

(** ** The schedule of a job *)



(** A computation appends at most [n] rows of parsed files, all of the
    analysis [key], and leaves the stored ones as they are. *)
Definition appends {A : Type} (n : nat) (key : string) (c : Worker.M A) : Prop :=
  forall w r w',
    c w = (r, w') ->
    exists new,
      Prisma.parsedFile (Worker.db w') = (Prisma.parsedFile (Worker.db w) ++ new)%list
      /\ (length new <= n)%nat
      /\ Forall (fun row => Prisma.pf_analysisId row = key) new.

(** An attempt in which git cannot reach the remote. *)
Definition noRemoteEnv : Worker.Env :=
  {| Worker.parseGitHubUrl := Worker.parseGitHubUrl healthyEnv;
     Worker.fetchRepoMetadata := Worker.fetchRepoMetadata healthyEnv;
     Worker.getCommitSha := Worker.getCommitSha healthyEnv;
     Worker.cloneId := Worker.cloneId healthyEnv;
     Worker.fsEnsureDir := Worker.fsEnsureDir healthyEnv;
     Worker.gitClone := Js.Throw "fatal: unable to access the remote";
     Worker.gitCloneRemains := Worker.gitCloneRemains healthyEnv;
     Worker.gitLog := Worker.gitLog healthyEnv;
     Worker.gitRevparse := Worker.gitRevparse healthyEnv;
     Worker.fsRemove := Worker.fsRemove healthyEnv;
     Worker.scanDirectory := Worker.scanDirectory healthyEnv;
     Worker.updateProgress := Worker.updateProgress healthyEnv;
     Worker.parseAndTraverse := Worker.parseAndTraverse healthyEnv;
     Worker.javascriptParser_parseFile := Worker.javascriptParser_parseFile healthyEnv;
     Worker.localeCompare := Worker.localeCompare healthyEnv |}.


(** An attempt on a repository without commits, on a disk that refuses
    the removal: the clone succeeds, [log] fails, [fs.remove] fails. *)
Definition noCommitsEnv : Worker.Env :=
  {| Worker.parseGitHubUrl := Worker.parseGitHubUrl healthyEnv;
     Worker.fetchRepoMetadata := Worker.fetchRepoMetadata healthyEnv;
     Worker.getCommitSha := Worker.getCommitSha healthyEnv;
     Worker.cloneId := Worker.cloneId healthyEnv;
     Worker.fsEnsureDir := Worker.fsEnsureDir healthyEnv;
     Worker.gitClone := Worker.gitClone healthyEnv;
     Worker.gitCloneRemains := Worker.gitCloneRemains healthyEnv;
     Worker.gitLog := Js.Throw "fatal: your current branch does not have any commits yet";
     Worker.gitRevparse := Worker.gitRevparse healthyEnv;
     Worker.fsRemove := Js.Throw "EBUSY: resource busy or locked";
     Worker.scanDirectory := Worker.scanDirectory healthyEnv;
     Worker.updateProgress := Worker.updateProgress healthyEnv;
     Worker.parseAndTraverse := Worker.parseAndTraverse healthyEnv;
     Worker.javascriptParser_parseFile := Worker.javascriptParser_parseFile healthyEnv;
     Worker.localeCompare := Worker.localeCompare healthyEnv |}.

(* ===================================================================== *)
(** * Properties                                                          *)
(* ===================================================================== *)

(** ** Line counting *)

Lemma split_nonempty (c : ascii) (s : string) : Js.split c s <> [].
Proof.
  destruct s as [|a s]; simpl; [discriminate|].
  destruct (Ascii.eqb a c); [discriminate|].
  destruct (Js.split c s); discriminate.
Qed.

Lemma split_length (c : ascii) (s : string) :
  length (Js.split c s) = S (Js.count c s).
Proof.
  induction s as [|a s IH]; simpl; [reflexivity|].
  destruct (Ascii.eqb a c); simpl.
  - now rewrite IH.
  - pose proof (split_nonempty c s) as Hne.
    destruct (Js.split c s) as [|h t]; [congruence|].
    simpl in *. exact IH.
Qed.

Lemma countLines_readable (n : string) (sz mt : Z) (content : string) :
  FileScanner.countLines (Fs.File n sz mt (Some content))
  = Z.of_nat (Js.count Js.LF content) + 1.
Proof.
  unfold FileScanner.countLines. simpl. rewrite split_length. lia.
Qed.

(** C4, as stated, fails: a readable file with empty content has
    [linesOfCode] 1, where the claim has 0. *)
Lemma C4_empty_file_counts_one_line :
  FileScanner.countLines (Fs.File "empty.txt" 0 0 (Some "")) = 1
  /\ FileScanner.countLines (Fs.File "empty.txt" 0 0 (Some "")) <> 0.
Proof. split; [reflexivity|discriminate]. Qed.

(** C4, amended: the node built for a regular file carries metadata whose
    [linesOfCode] is the number of line separators of the content plus
    one when the file can be read (hence 1 for empty content) and 0 when
    the read fails. *)
Theorem C4_linesOfCode (localeCompare : string -> string -> Z)
  (n : string) (sz mt : Z) (content : option string)
  (currentPath rootPath : string) (options : TreeBuilder.Options) (st : nat) :
  exists node m,
    TreeBuilder.buildTreeRecursive localeCompare (Fs.File n sz mt content)
      currentPath rootPath options st = (Js.Ok node, S st)
    /\ TreeBuilder.metadata node = Some m
    /\ TreeBuilder.linesOfCode m
       = FileScanner.countLines (Fs.File n sz mt content)
    /\ FileScanner.countLines (Fs.File n sz mt content)
       = match content with
         | Some text => Z.of_nat (Js.count Js.LF text) + 1
         | None => 0
         end.
Proof.
  eexists. eexists. split; [reflexivity|]. split; [reflexivity|].
  split; [reflexivity|].
  destruct content as [text|]; [apply countLines_readable|reflexivity].
Qed.

(** ** Saving parsed files twice *)

Section SaveParsedFiles.
Import Prisma.

Lemma conflicts_app (d : ParsedFileData) (rows more : list ParsedFileRow) :
  conflicts d (rows ++ more) = conflicts d rows || conflicts d more.
Proof. unfold conflicts. apply existsb_app. Qed.

Lemma conflicts_kept (data : list ParsedFileData) :
  forall (d : ParsedFileData) (rows : list ParsedFileRow) (next : nat),
    conflicts d rows = true ->
    conflicts d (insertSkippingDuplicates data rows next).1 = true.
Proof.
  induction data as [|d0 rest IH]; intros d rows next Hc; simpl; [exact Hc|].
  destruct (conflicts d0 rows); apply IH; [exact Hc|].
  rewrite conflicts_app, Hc. reflexivity.
Qed.

Lemma conflicts_after_insert (data : list ParsedFileData) :
  forall (rows : list ParsedFileRow) (next : nat),
    Forall (fun d => conflicts d (insertSkippingDuplicates data rows next).1 = true) data.
Proof.
  induction data as [|d0 rest IH]; intros rows next; constructor.
  - simpl. destruct (conflicts d0 rows) eqn:Hc.
    + apply conflicts_kept. exact Hc.
    + apply conflicts_kept. rewrite conflicts_app. simpl.
      rewrite !String.eqb_refl. apply orb_true_r.
  - simpl. destruct (conflicts d0 rows); apply IH.
Qed.

Lemma insert_all_conflicting (data : list ParsedFileData)
  (rows : list ParsedFileRow) (next : nat) :
  Forall (fun d => conflicts d rows = true) data ->
  insertSkippingDuplicates data rows next = (rows, next).
Proof.
  induction 1 as [|d rest Hd _ IH]; simpl; [reflexivity|].
  rewrite Hd. exact IH.
Qed.

Lemma createMany_twice (data : list ParsedFileData) (db : Db) :
  (parsedFile_createMany data (parsedFile_createMany data db).2).2
  = (parsedFile_createMany data db).2.
Proof.
  unfold parsedFile_createMany.
  destruct (negb (connected db)) eqn:Hconn; simpl.
  { rewrite Hconn. reflexivity. }
  destruct (negb (forallb _ data)) eqn:Hfk; simpl.
  { rewrite Hconn, Hfk. reflexivity. }
  destruct (insertSkippingDuplicates data (parsedFile db) (nextId db))
    as [rows next] eqn:Hins.
  simpl. rewrite Hconn, Hfk.
  assert (Hall : Forall (fun d => conflicts d rows = true) data).
  { pose proof (conflicts_after_insert data (parsedFile db) (nextId db)) as H.
    rewrite Hins in H. exact H. }
  rewrite (insert_all_conflicting data rows next Hall). reflexivity.
Qed.

Lemma saveParsedFiles_db (analysisId : string)
  (parsedFiles : list Models.ParsedFile) (db : Db) :
  (DependencyRepository.saveParsedFiles analysisId parsedFiles db).2
  = (parsedFile_createMany
       (map (fun file => mkParsedFileData analysisId (Models.path file)
                           (Models.language file) file) parsedFiles) db).2.
Proof.
  unfold DependencyRepository.saveParsedFiles.
  destruct (parsedFile_createMany _ db) as [[n|msg] db']; reflexivity.
Qed.

Lemma conflicts_same_key (d d' : ParsedFileData) (rows : list ParsedFileRow) :
  d_analysisId d = d_analysisId d' -> d_filePath d = d_filePath d' ->
  conflicts d rows = conflicts d' rows.
Proof. unfold conflicts. intros -> ->. reflexivity. Qed.

Lemma foreign_key_check (analysisId : string) (files : list Models.ParsedFile) (db : Db) :
  forallb (fun d => bool_decide (is_Some (analysis db !! d_analysisId d)))
    (map (parsedFileData analysisId) files)
  = match files with
    | [] => true
    | _ :: _ => bool_decide (is_Some (analysis db !! analysisId))
    end.
Proof.
  induction files as [|f files IH]; [reflexivity|].
  cbn [map forallb]. rewrite IH. simpl.
  destruct files; [apply andb_true_r|apply andb_diag].
Qed.

Lemma createMany_cases (analysisId : string) (files : list Models.ParsedFile) (db : Db) :
  (parsedFile_createMany (map (parsedFileData analysisId) files) db).2
  = if connected db && foreignKeyHolds analysisId files db
    then
      let inserted :=
        insertSkippingDuplicates (map (parsedFileData analysisId) files)
          (parsedFile db) (nextId db) in
      mkDb (connected db) (analysis db) (fileTree db) inserted.1 inserted.2
    else db.
Proof.
  unfold parsedFile_createMany. rewrite foreign_key_check.
  fold (foreignKeyHolds analysisId files db).
  destruct (connected db); simpl; [|reflexivity].
  destruct (foreignKeyHolds analysisId files db); simpl; [|reflexivity].
  destruct (insertSkippingDuplicates _ _ _). reflexivity.
Qed.

Lemma saveParsedFiles_stored_keys (analysisId : string)
  (parsedFiles again : list Models.ParsedFile) (db : Db) :
  (forall f', In f' again ->
              exists f, In f parsedFiles /\ Models.path f = Models.path f') ->
  (DependencyRepository.saveParsedFiles analysisId again
     (DependencyRepository.saveParsedFiles analysisId parsedFiles db).2).2
  = (DependencyRepository.saveParsedFiles analysisId parsedFiles db).2.
Proof.
  intros Hkeys. rewrite !saveParsedFiles_db.
  fold (parsedFileData analysisId).
  rewrite (createMany_cases analysisId parsedFiles db).
  destruct (connected db && foreignKeyHolds analysisId parsedFiles db) eqn:Hfirst.
  - (* the first call stored its rows *)
    apply andb_true_iff in Hfirst. destruct Hfirst as [Hconn Hfk].
    destruct (insertSkippingDuplicates (map (parsedFileData analysisId) parsedFiles)
                (parsedFile db) (nextId db)) as [rows next] eqn:Hins.
    cbv zeta. simpl. rewrite createMany_cases. simpl. rewrite Hconn. simpl.
    assert (Hfk' : foreignKeyHolds analysisId again
                     (mkDb true (analysis db) (fileTree db) rows next) = true).
    { destruct again as [|g rest]; [reflexivity|]. simpl.
      destruct (Hkeys g (or_introl eq_refl)) as (f & Hf & _).
      destruct parsedFiles; [destruct Hf|exact Hfk]. }
    rewrite Hfk'.
    assert (Hall : Forall (fun d' => conflicts d' rows = true)
                     (map (parsedFileData analysisId) again)).
    { pose proof (conflicts_after_insert (map (parsedFileData analysisId) parsedFiles)
                    (parsedFile db) (nextId db)) as H.
      rewrite Hins in H. simpl in H.
      apply Forall_forall. intros d' Hd'.
      apply list_elem_of_In, in_map_iff in Hd'. destruct Hd' as (g & <- & Hg).
      destruct (Hkeys g Hg) as (f & Hf & Hpath).
      rewrite <- (conflicts_same_key (parsedFileData analysisId f)
                    (parsedFileData analysisId g) rows eq_refl Hpath).
      rewrite Forall_forall in H. apply H.
      apply list_elem_of_In. apply in_map. exact Hf. }
    rewrite (insert_all_conflicting _ rows next Hall). reflexivity.
  - (* the first call rejected: so does the second, unless it is empty *)
    rewrite createMany_cases.
    destruct (connected db) eqn:Hconn; [|reflexivity]. simpl in *.
    destruct again as [|g rest]; [destruct db; simpl in *; subst; reflexivity|].
    simpl. destruct parsedFiles as [|f files]; [discriminate|].
    simpl in Hfirst. rewrite Hfirst. reflexivity.
Qed.

(** C9.  [saveParsedFiles] is idempotent on [(analysisId, filePath)]:
    after a first call, a second call with the same parsed files, or with
    any parsed files whose paths the first call had, leaves the store as
    the first call left it; every pair of the second call is already
    stored and is skipped. *)
Theorem C9_saveParsedFiles_idempotent (analysisId : string)
  (parsedFiles again : list Models.ParsedFile) (db : Db)
  (Hkeys : forall f', In f' again ->
                      exists f, In f parsedFiles /\ Models.path f = Models.path f') :
  let db1 := (DependencyRepository.saveParsedFiles analysisId parsedFiles db).2 in
  (DependencyRepository.saveParsedFiles analysisId parsedFiles db1).2 = db1
  /\ (DependencyRepository.saveParsedFiles analysisId again db1).2 = db1
  /\ parsedFile (DependencyRepository.saveParsedFiles analysisId again db1).2
     = parsedFile db1.
Proof.
  cbv zeta.
  assert (Hagain := saveParsedFiles_stored_keys analysisId parsedFiles again db Hkeys).
  split; [|split; [exact Hagain|rewrite Hagain; reflexivity]].
  apply saveParsedFiles_stored_keys. intros f Hf. eauto.
Qed.

(** C9 on two parsed files, the first of them saved again with other
    content. *)
Lemma C9_witness :
  (DependencyRepository.saveParsedFiles "a1" [parsedA']
     (DependencyRepository.saveParsedFiles "a1" [parsedA; parsedB] intakeDb).2).2
  = (DependencyRepository.saveParsedFiles "a1" [parsedA; parsedB] intakeDb).2.
Proof.
  refine (proj1 (proj2 (C9_saveParsedFiles_idempotent "a1" [parsedA; parsedB]
                          [parsedA'] intakeDb _))).
  intros f' [<-|[]]. exists parsedA. split; [left; reflexivity|reflexivity].
Defined.

End SaveParsedFiles.

(** ** Listing analyses *)

Section ListAnalyses.
Import Prisma.

Lemma list_total (options : AnalysisRepository.ListOptions) (db : Db) :
  exists page, AnalysisRepository.list options db = Js.Ok page.
Proof.
  unfold AnalysisRepository.list.
  destruct (AnalysisRepository.listQueries options db) as [[analyses|m1] [total|m2]]; eauto.
Qed.

Lemma list_rejected (options : AnalysisRepository.ListOptions) (db : Db) :
  rejected (AnalysisRepository.listQueries options db).1
  \/ rejected (AnalysisRepository.listQueries options db).2 ->
  AnalysisRepository.list options db = Js.Ok ([], 0).
Proof.
  unfold AnalysisRepository.list.
  destruct (AnalysisRepository.listQueries options db) as [[analyses|m1] [total|m2]];
    simpl; intros [H|H]; try contradiction; reflexivity.
Qed.

(** C10.  [list] never rejects, and when one of its two store queries
    rejects it resolves to the empty list with total 0; [GET /analyses]
    then answers 200 with an empty page. *)
Theorem C10_list_swallows_store_errors (query : Routes.ListQuery) (db : Db)
  (Hstore : rejected (AnalysisRepository.listQueries (handlerOptions query) db).1
            \/ rejected (AnalysisRepository.listQueries (handlerOptions query) db).2) :
  (forall options db', exists page, AnalysisRepository.list options db' = Js.Ok page)
  /\ AnalysisRepository.list (handlerOptions query) db = Js.Ok ([], 0)
  /\ Routes.statusCode (Routes.listAnalyses query db) = 200
  /\ exists page, Routes.body (Routes.listAnalyses query db) = Routes.ListBody [] 0 page.
Proof.
  split; [intros; apply list_total|].
  pose proof (list_rejected _ _ Hstore) as Hlist.
  split; [exact Hlist|].
  unfold Routes.listAnalyses. fold (handlerOptions query). rewrite Hlist.
  simpl. eauto.
Qed.

(** C10 on a store that cannot be reached. *)
Lemma C10_witness :
  Routes.statusCode (Routes.listAnalyses (Routes.mkListQuery None None None) db_down) = 200
  /\ exists page,
      Routes.body (Routes.listAnalyses (Routes.mkListQuery None None None) db_down)
      = Routes.ListBody [] 0 page.
Proof.
  apply (C10_list_swallows_store_errors (Routes.mkListQuery None None None) db_down).
  left. exact I.
Defined.

(** Without a failing store the answer is 200 all the same. *)
Lemma listAnalyses_always_200 (query : Routes.ListQuery) (db : Db) :
  Routes.statusCode (Routes.listAnalyses query db) = 200.
Proof.
  unfold Routes.listAnalyses.
  destruct (list_total (handlerOptions query) db) as [[analyses total] H].
  unfold handlerOptions in H. rewrite H. reflexivity.
Qed.

End ListAnalyses.

(** ** Status transitions of an analysis record *)

Section UpdateStatus.
Import Prisma.

Lemma updateStatus_found (key : string) (c : StatusCall) (db : Db) (r : AnalysisRow) :
  connected db = true ->
  analysis db !! key = Some r ->
  let db' := (AnalysisRepository.updateStatus key (call_status c) (call_error c)
                (call_now c) db).2 in
  connected db' = true /\ analysis db' !! key = Some (afterCall r c).
Proof.
  intros Hc Hr. cbv zeta.
  unfold AnalysisRepository.updateStatus, analysis_update.
  rewrite Hc, Hr. simpl. split; [exact Hc|].
  apply lookup_insert_eq.
Qed.

Lemma updates_found (key : string) (calls : list StatusCall) :
  forall (db : Db) (r : AnalysisRow),
    connected db = true ->
    analysis db !! key = Some r ->
    analysis (updates key calls db) !! key = Some (fold_left afterCall calls r).
Proof.
  induction calls as [|c rest IH]; intros db r Hc Hr; simpl; [exact Hr|].
  destruct (updateStatus_found key c db r Hc Hr) as [Hc' Hr'].
  apply IH; assumption.
Qed.

Lemma completedAt_after (c : StatusCall) (r : AnalysisRow) :
  is_Some (completedAt (afterCall r c)) <-> terminalCall c \/ is_Some (completedAt r).
Proof.
  unfold afterCall, terminalCall, AnalysisRepository.statusUpdateData. simpl.
  destruct c as [st err now]; simpl.
  destruct st; simpl; try (destruct (AnalysisRepository.truthy err); simpl);
    split; intros H; try (right; exact H); try (left; auto; fail);
    try (eexists; reflexivity);
    try (destruct H as [[H|H]|H]; [discriminate|discriminate|exact H]).
Qed.

Lemma startedAt_after (c : StatusCall) (r : AnalysisRow) :
  is_Some (startedAt (afterCall r c)) <-> startingCall c \/ is_Some (startedAt r).
Proof.
  unfold afterCall, startingCall, AnalysisRepository.statusUpdateData. simpl.
  destruct c as [st err now]; simpl.
  destruct st; simpl; try (destruct (AnalysisRepository.truthy err); simpl);
    split; intros H; try (right; exact H); try (left; auto; fail);
    try (eexists; reflexivity);
    try (destruct H as [[H1 H2]|H]; [discriminate|exact H]).
Qed.

Lemma status_after (c : StatusCall) (r : AnalysisRow) :
  status (afterCall r c) = call_status c.
Proof. reflexivity. Qed.

Lemma completedAt_run (calls : list StatusCall) :
  forall r : AnalysisRow,
    is_Some (completedAt (fold_left afterCall calls r))
    <-> Exists terminalCall calls \/ is_Some (completedAt r).
Proof.
  induction calls as [|c rest IH]; intros r; simpl.
  - split; [auto|]. intros [H|H]; [inversion H|exact H].
  - rewrite IH, completedAt_after, Exists_cons. tauto.
Qed.

Lemma startedAt_run (calls : list StatusCall) :
  forall r : AnalysisRow,
    is_Some (startedAt (fold_left afterCall calls r))
    <-> Exists startingCall calls \/ is_Some (startedAt r).
Proof.
  induction calls as [|c rest IH]; intros r; simpl.
  - split; [auto|]. intros [H|H]; [inversion H|exact H].
  - rewrite IH, startedAt_after, Exists_cons. tauto.
Qed.

Lemma terminal_status_run (calls : list StatusCall) :
  forall r : AnalysisRow,
    (status r = completed \/ status r = failed -> is_Some (completedAt r)) ->
    status (fold_left afterCall calls r) = completed
    \/ status (fold_left afterCall calls r) = failed ->
    is_Some (completedAt (fold_left afterCall calls r)).
Proof.
  induction calls as [|c rest IH]; intros r Hr; simpl; [exact Hr|].
  apply IH. rewrite status_after, completedAt_after. intros H. left. exact H.
Qed.

(** C8, as stated, fails: a record that failed and is taken up again by
    the next attempt of its job is [processing] with [completedAt] set. *)
Lemma C8_retry_is_processing_with_completedAt :
  let db0 := (AnalysisRepository.create "a1" "https://github.com/acme/widgets"
                "acme" "widgets" "main" (mkAnalysisOptions true 1000 None None false)
                0 emptyDb).2 in
  let calls := [ mkCall processing None 1; mkCall failed (Some "clone failed") 2;
                 mkCall processing None 3 ] in
  option_map (fun r => (status r, startedAt r, completedAt r))
    (analysis (updates "a1" calls db0) !! "a1")
  = Some (processing, Some 3, Some 2).
Proof. vm_compute. reflexivity. Qed.

(** C8, amended.  For a record made by [create] and changed by any
    sequence of [updateStatus] calls: [completedAt] is set exactly when one
    of the calls entered [completed] or [failed], and it is never cleared,
    so a record whose status is [completed] or [failed] has it set (the
    converse fails after a later call); [startedAt] is set exactly when one
    of the calls entered [processing] without an error message, and every
    such call sets it again. *)
Theorem C8_timestamps_follow_the_calls
  (key repositoryUrl owner name branch : string) (options : AnalysisOptions)
  (t0 : Z) (calls : list StatusCall) :
  let db0 := (AnalysisRepository.create key repositoryUrl owner name branch options
                t0 emptyDb).2 in
  exists r,
    analysis (updates key calls db0) !! key = Some r
    /\ (is_Some (completedAt r) <-> Exists terminalCall calls)
    /\ (is_Some (startedAt r) <-> Exists startingCall calls)
    /\ (status r = completed \/ status r = failed -> is_Some (completedAt r))
    /\ (forall c, startingCall c -> startedAt (afterCall r c) = Some (call_now c))
    /\ (forall c, terminalCall c -> completedAt (afterCall r c) = Some (call_now c))
    /\ (forall c, ~ terminalCall c -> completedAt (afterCall r c) = completedAt r)
    /\ (forall c, ~ startingCall c -> startedAt (afterCall r c) = startedAt r).
Proof.
  cbv zeta.
  set (r0 := mkAnalysis key repositoryUrl owner name branch None queued None options
               t0 None None).
  assert (Hdb : (AnalysisRepository.create key repositoryUrl owner name branch options
                   t0 emptyDb).2
                = withAnalysis emptyDb (<[key := r0]> ∅)).
  { reflexivity. }
  rewrite Hdb.
  exists (fold_left afterCall calls r0).
  split.
  { apply updates_found; [reflexivity|]. simpl. apply lookup_insert_eq. }
  split.
  { rewrite completedAt_run. simpl. split; [|auto].
    intros [H|H]; [exact H|]. destruct H as [x H]. discriminate. }
  split.
  { rewrite startedAt_run. simpl. split; [|auto].
    intros [H|H]; [exact H|]. destruct H as [x H]. discriminate. }
  split.
  { apply terminal_status_run. simpl. intros [H|H]; discriminate. }
  generalize (fold_left afterCall calls r0) as r. intros r.
  repeat split.
  - intros c [H1 H2]. unfold afterCall, AnalysisRepository.statusUpdateData.
    rewrite H1, H2. reflexivity.
  - intros c [H|H]; unfold afterCall, AnalysisRepository.statusUpdateData;
      rewrite H; reflexivity.
  - intros c H. unfold terminalCall in H.
    unfold afterCall, AnalysisRepository.statusUpdateData.
    destruct (call_status c); simpl; try reflexivity;
      try (destruct (AnalysisRepository.truthy (call_error c)); reflexivity);
      exfalso; apply H; auto.
  - intros c H. unfold startingCall in H.
    unfold afterCall, AnalysisRepository.statusUpdateData.
    destruct (call_status c); simpl; try reflexivity.
    destruct (AnalysisRepository.truthy (call_error c)) eqn:E; simpl; [reflexivity|].
    exfalso; apply H; auto.
Qed.

End UpdateStatus.

(** ** Parsing is best-effort *)

Section BestEffortParsing.
Import Models.

Variable fs : string -> Fs.Entry.
Variable parseAndTraverse : string -> Js.Result TypeScriptParser.Extracted.
Variable javascriptParser_parseFile : string -> Fs.Entry -> Js.Result ParsedFile.

Local Abbreviation parseFile :=
  (ParserService.parseFile fs parseAndTraverse javascriptParser_parseFile).
Local Abbreviation parseFilesParallel :=
  (ParserService.parseFilesParallel fs parseAndTraverse javascriptParser_parseFile).
Local Abbreviation detected filePath :=
  (LanguageDetector.language (LanguageDetector.detectLanguage filePath (fs filePath))).
Local Abbreviation parsedOrNull :=
  (ParserService.parsedOrNull fs parseAndTraverse javascriptParser_parseFile).

Lemma parseFile_resolves (filePath : string) (options : ParserService.ParserOptions) :
  parseFile filePath options = Js.Ok (parsedOrNull filePath options).
Proof.
  unfold ParserService.parsedOrNull, ParserService.parseFile.
  destruct (ParserService.skippedBySize options (fs filePath)); [reflexivity|].
  destruct (negb _); [reflexivity|].
  destruct (ParserService.route _ _ _ _ _); reflexivity.
Qed.

Lemma all_resolved {A B : Type} (f : A -> Js.Result B) (g : A -> B) (l : list A) :
  (forall a, f a = Js.Ok (g a)) ->
  ParserService.all (map f l) = Js.Ok (map g l).
Proof.
  intros H. induction l as [|a l IH]; simpl; [reflexivity|].
  rewrite H, IH. reflexivity.
Qed.

Lemma parseFilesParallel_resolves (filePaths : list string)
  (options : ParserService.ParserOptions) :
  parseFilesParallel filePaths options
  = Js.Ok (omap (fun filePath => parsedOrNull filePath options) filePaths).
Proof.
  unfold ParserService.parseFilesParallel.
  rewrite (all_resolved _ (fun filePath => parsedOrNull filePath options));
    [|intros; apply parseFile_resolves].
  f_equal. induction filePaths as [|a l IH]; [reflexivity|].
  cbn [map omap list_omap]. rewrite IH. reflexivity.
Qed.




End BestEffortParsing.




(** ** Induction on nested trees *)

Section TreeInduction.
Import TreeBuilder.

Lemma Entry_nested_ind (P : Fs.Entry -> Prop) :
  (forall n sz mt c, P (Fs.File n sz mt c)) ->
  (forall n, P (Fs.Dir n None)) ->
  (forall n es, Forall P es -> P (Fs.Dir n (Some es))) ->
  (forall n, P (Fs.Special n)) ->
  (forall n, P (Fs.Broken n)) ->
  forall e, P e.
Proof.
  intros HF HD0 HD HS HB.
  fix IH 1. intros [n sz mt c|n [es|]|n|n].
  - apply HF.
  - apply HD. induction es as [|e es IHes]; constructor; [apply IH|exact IHes].
  - apply HD0.
  - apply HS.
  - apply HB.
Qed.

Lemma FileTreeNode_nested_ind (P : FileTreeNode -> Prop) :
  (forall n, (forall cs, children n = Some cs -> Forall P cs) -> P n) ->
  forall n, P n.
Proof.
  intros H. fix IH 1. intros [i nm ty p rp md ch]. apply H. simpl.
  intros cs Hcs. destruct ch as [l|]; [|discriminate].
  assert (HF : Forall P l).
  { clear Hcs. induction l as [|c l IHl]; constructor; [apply IH|exact IHl]. }
  congruence.
Qed.

End TreeInduction.

Section BuiltTrees.
Import TreeBuilder.

Variable localeCompare : string -> string -> Z.

Lemma insert_Forall (P : FileTreeNode -> Prop) (x : FileTreeNode) (l : list FileTreeNode) :
  P x -> Forall P l -> Forall P (insert localeCompare x l).
Proof.
  intros Hx Hl. induction Hl as [|y l Hy Hl IH]; simpl.
  - constructor; [exact Hx|constructor].
  - destruct (compareNodes localeCompare x y <=? 0).
    + constructor; [exact Hx|]. constructor; assumption.
    + constructor; assumption.
Qed.

Lemma sort_Forall (P : FileTreeNode -> Prop) (l : list FileTreeNode) :
  Forall P l -> Forall P (sort localeCompare l).
Proof.
  induction 1 as [|x l Hx Hl IH]; simpl; [constructor|].
  apply insert_Forall; assumption.
Qed.

(** A property of nodes that the builder's leaves have, and that a listed
    directory has once its children are sorted. *)
Variable P : FileTreeNode -> Prop.
Hypothesis P_leaf : forall n, children n = None -> P n.
Hypothesis P_listed :
  forall n l, children n = Some (sort localeCompare l) ->
              shouldSkipDirectory (name n) = false -> P n.

Lemma Forall_flat_map_nodes (l : list FileTreeNode) :
  Forall (fun c => Forall P (nodes c)) l -> Forall P (flat_map nodes l).
Proof.
  induction 1 as [|c l Hc Hl IH]; simpl; [constructor|].
  apply Forall_app. split; assumption.
Qed.

Lemma buildTreeRecursive_nodes (e : Fs.Entry) :
  forall (currentPath rootPath : string) (options : Options) (st st' : nat)
         (node : FileTreeNode),
    buildTreeRecursive localeCompare e currentPath rootPath options st = (Js.Ok node, st') ->
    name node = Js.basename currentPath /\ Forall P (nodes node).
Proof.
  induction e as [n sz mt c|n|n es IHes|n|n] using Entry_nested_ind;
    intros currentPath rootPath options st st' node Hb.
  - (* regular file *)
    simpl in Hb. injection Hb as <- <-. simpl. split; [reflexivity|].
    constructor; [apply P_leaf; reflexivity|constructor].
  - (* directory that cannot be listed *)
    simpl in Hb. destruct (shouldSkipDirectory (Js.basename currentPath)); [|discriminate].
    injection Hb as <- <-. simpl. split; [reflexivity|].
    constructor; [apply P_leaf; reflexivity|constructor].
  - (* listed directory *)
    simpl in Hb.
    destruct (shouldSkipDirectory (Js.basename currentPath)) eqn:Hskip.
    { injection Hb as <- <-. simpl. split; [reflexivity|].
      constructor; [apply P_leaf; reflexivity|constructor]. }
    match type of Hb with
    | (let '(children, st0) := ?loop es (S st) in _) = _ =>
        set (walk := loop) in Hb
    end.
    assert (Hwalk : forall entries s, Forall
              (fun e => forall currentPath rootPath options st st' node,
                 buildTreeRecursive localeCompare e currentPath rootPath options st
                 = (Js.Ok node, st') ->
                 name node = Js.basename currentPath /\ Forall P (nodes node)) entries ->
              Forall (fun c => Forall P (nodes c)) (walk entries s).1).
    { intros entries. induction entries as [|entry rest IHrest]; intros s HF.
      - simpl. constructor.
      - apply Forall_cons in HF. destruct HF as [He Hrest].
        simpl.
        destruct (buildTreeRecursive localeCompare entry
                    (Js.join currentPath (Fs.name entry)) rootPath options s)
          as [r s1] eqn:Hr.
        specialize (IHrest s1 Hrest).
        destruct (walk rest s1) as [more s2] eqn:Hmore. simpl in IHrest.
        destruct r as [childNode|msg]; simpl; [|exact IHrest].
        destruct (dropped options childNode); simpl; [exact IHrest|].
        constructor; [|exact IHrest].
        eapply He. exact Hr. }
    specialize (Hwalk es (S st) IHes).
    destruct (walk es (S st)) as [kept s'] eqn:Hkept. simpl in Hwalk.
    injection Hb as <- <-. simpl. split; [reflexivity|].
    constructor.
    + eapply P_listed; [reflexivity|exact Hskip].
    + apply Forall_flat_map_nodes. apply sort_Forall. exact Hwalk.
  - simpl in Hb. injection Hb as <- <-. simpl. split; [reflexivity|].
    constructor; [apply P_leaf; reflexivity|constructor].
  - simpl in Hb. discriminate.
Qed.

End BuiltTrees.

(** ** The collation of the examples is a total preorder that folds case *)

Lemma compareChars_refl (l : list ascii) : compareChars l l = Eq.
Proof. induction l as [|a l IH]; simpl; [reflexivity|]. now rewrite Nat.compare_refl. Qed.

Lemma nat_of_ascii_inj (a b : ascii) : nat_of_ascii a = nat_of_ascii b -> a = b.
Proof.
  intros H. rewrite <- (ascii_nat_embedding a), <- (ascii_nat_embedding b). now rewrite H.
Qed.

Lemma compareChars_eq (l1 : list ascii) :
  forall l2, compareChars l1 l2 = Eq -> l1 = l2.
Proof.
  induction l1 as [|a l1 IH]; intros [|b l2] H; simpl in H; try discriminate; [reflexivity|].
  destruct (Nat.compare_spec (nat_of_ascii a) (nat_of_ascii b)) as [E|E|E];
    try discriminate.
  apply nat_of_ascii_inj in E. subst b. f_equal. apply IH. exact H.
Qed.

Lemma compareChars_antisym (l1 : list ascii) :
  forall l2, compareChars l2 l1 = CompOpp (compareChars l1 l2).
Proof.
  induction l1 as [|a l1 IH]; intros [|b l2]; simpl; try reflexivity.
  rewrite (Nat.compare_antisym (nat_of_ascii a) (nat_of_ascii b)).
  destruct (nat_of_ascii a ?= nat_of_ascii b)%nat; simpl; auto.
Qed.

Lemma compareChars_trans (l1 : list ascii) :
  forall l2 l3, compareChars l1 l2 = Lt -> compareChars l2 l3 = Lt ->
                compareChars l1 l3 = Lt.
Proof.
  induction l1 as [|a l1 IH]; intros [|b l2] [|c l3] H12 H23; simpl in *;
    try discriminate; try reflexivity.
  destruct (Nat.compare_spec (nat_of_ascii a) (nat_of_ascii b)) as [E1|E1|E1];
    try discriminate;
    destruct (Nat.compare_spec (nat_of_ascii b) (nat_of_ascii c)) as [E2|E2|E2];
    try discriminate.
  - rewrite E1, E2, Nat.compare_refl. eapply IH; eassumption.
  - rewrite E1. apply Nat.compare_lt_iff in E2. now rewrite E2.
  - rewrite <- E2. apply Nat.compare_lt_iff in E1. now rewrite E1.
  - assert (E : (nat_of_ascii a < nat_of_ascii c)%nat) by lia.
    apply Nat.compare_lt_iff in E. now rewrite E.
Qed.

Lemma notAfter_trans (l1 l2 l3 : list ascii) :
  notAfter l1 l2 -> notAfter l2 l3 -> notAfter l1 l3.
Proof.
  unfold notAfter. intros H12 H23.
  destruct (compareChars l1 l2) eqn:E12; try congruence.
  - apply compareChars_eq in E12. subst. exact H23.
  - destruct (compareChars l2 l3) eqn:E23; try congruence.
    + apply compareChars_eq in E23. subst. rewrite E12. discriminate.
    + rewrite (compareChars_trans _ _ _ E12 E23). discriminate.
Qed.

Lemma asciiCollation_le (a b : string) :
  asciiCollation a b <= 0 <->
  compareChars (map Js.lower_char (Js.chars a)) (map Js.lower_char (Js.chars b)) = Lt
  \/ (map Js.lower_char (Js.chars a) = map Js.lower_char (Js.chars b)
      /\ notAfter (Js.chars b) (Js.chars a)).
Proof.
  unfold asciiCollation, notAfter.
  destruct (compareChars (map _ (Js.chars a)) (map _ (Js.chars b))) eqn:E; simpl.
  - apply compareChars_eq in E. rewrite E.
    destruct (compareChars (Js.chars b) (Js.chars a)); simpl; split;
      try lia; try (intros _; right; split; [reflexivity|discriminate]);
      intros [H|[_ H]]; try discriminate; congruence.
  - split; [auto|lia].
  - split; [lia|]. intros [H|[H _]]; [discriminate|].
    rewrite H, compareChars_refl in E. discriminate.
Qed.

Lemma asciiCollation_total (a b : string) :
  asciiCollation a b <= 0 \/ asciiCollation b a <= 0.
Proof.
  rewrite !asciiCollation_le. unfold notAfter.
  rewrite (compareChars_antisym (map Js.lower_char (Js.chars a))
             (map Js.lower_char (Js.chars b))).
  rewrite (compareChars_antisym (Js.chars b) (Js.chars a)).
  destruct (compareChars (map _ (Js.chars a)) (map _ (Js.chars b))) eqn:E; simpl; auto.
  apply compareChars_eq in E.
  destruct (compareChars (Js.chars b) (Js.chars a)); simpl.
  - left. right. split; [exact E|discriminate].
  - left. right. split; [exact E|discriminate].
  - right. right. split; [symmetry; exact E|discriminate].
Qed.

Lemma asciiCollation_trans (a b c : string) :
  asciiCollation a b <= 0 -> asciiCollation b c <= 0 -> asciiCollation a c <= 0.
Proof.
  rewrite !asciiCollation_le.
  intros [H1|[E1 H1]] [H2|[E2 H2]].
  - left. eapply compareChars_trans; eassumption.
  - left. rewrite <- E2. exact H1.
  - left. rewrite E1. exact H2.
  - right. split; [congruence|]. eapply notAfter_trans; eassumption.
Qed.

Lemma lower_char_idempotent (c : ascii) : Js.lower_char (Js.lower_char c) = Js.lower_char c.
Proof. destruct c as [[] [] [] [] [] [] [] []]; reflexivity. Qed.

Lemma toLowerCase_chars (s : string) :
  Js.chars (Js.toLowerCase s) = map Js.lower_char (Js.chars s).
Proof. unfold Js.toLowerCase, Js.chars, Js.str. apply list_ascii_of_string_of_list_ascii. Qed.

Lemma asciiCollation_folds (a b : string) :
  asciiCollation a b <= 0 ->
  asciiCollation (Js.toLowerCase a) (Js.toLowerCase b) <= 0.
Proof.
  rewrite !asciiCollation_le, !toLowerCase_chars, !map_map.
  rewrite !(map_ext _ _ lower_char_idempotent).
  intros [H|[E _]]; [left; exact H|].
  right. split; [exact E|]. unfold notAfter. rewrite E, compareChars_refl. discriminate.
Qed.

Section SiblingOrder.
Import TreeBuilder.

Variable localeCompare : string -> string -> Z.
Hypothesis localeCompare_total :
  forall a b, localeCompare a b <= 0 \/ localeCompare b a <= 0.
Hypothesis localeCompare_trans :
  forall a b c, localeCompare a b <= 0 -> localeCompare b c <= 0 -> localeCompare a c <= 0.
Hypothesis localeCompare_folds :
  forall a b, localeCompare a b <= 0 ->
              localeCompare (Js.toLowerCase a) (Js.toLowerCase b) <= 0.

Lemma before_total (a b : FileTreeNode) : before localeCompare a b \/ before localeCompare b a.
Proof.
  unfold before, compareNodes.
  destruct (type a), (type b); simpl; try (left; lia); try (right; lia);
    apply localeCompare_total.
Qed.

Lemma before_trans (a b c : FileTreeNode) : before localeCompare a b -> before localeCompare b c -> before localeCompare a c.
Proof.
  unfold before, compareNodes.
  destruct (type a), (type b), (type c); simpl; try lia; apply localeCompare_trans.
Qed.

Lemma insert_sorted (x : FileTreeNode) (l : list FileTreeNode) :
  StronglySorted (before localeCompare) l -> StronglySorted (before localeCompare) (insert localeCompare x l).
Proof.
  induction 1 as [|y l Hl IH Hy]; simpl.
  - constructor; constructor.
  - destruct (compareNodes localeCompare x y <=? 0) eqn:E.
    + apply Z.leb_le in E. constructor; [constructor; assumption|].
      constructor; [exact E|].
      eapply Forall_impl; [exact Hy|]. intros z Hz. eapply before_trans; eassumption.
    + apply Z.leb_gt in E. constructor; [exact IH|].
      apply insert_Forall; [|exact Hy].
      destruct (before_total x y) as [H|H]; [unfold before in H; lia|exact H].
Qed.

Lemma sort_sorted (l : list FileTreeNode) : StronglySorted (before localeCompare) (sort localeCompare l).
Proof.
  induction l as [|x l IH]; simpl; [constructor|]. apply insert_sorted. exact IH.
Qed.

Lemma before_siblingOrder (a b : FileTreeNode) : before localeCompare a b -> siblingOrder localeCompare a b.
Proof.
  unfold before, siblingOrder, compareNodes.
  destruct (type a), (type b); simpl; intros H; try lia; auto.
Qed.

Lemma StronglySorted_impl {A : Type} (R S : A -> A -> Prop) (l : list A) :
  (forall a b, R a b -> S a b) -> StronglySorted R l -> StronglySorted S l.
Proof.
  intros HRS. induction 1 as [|x l Hl IH Hx]; constructor; [exact IH|].
  eapply Forall_impl; [exact Hx|]. intros; apply HRS; assumption.
Qed.

Lemma buildFileTree_sorted (root : Fs.Entry) (rootPath : string) (options : Options)
  (st st' : nat) (tree : FileTreeNode) :
  buildFileTree localeCompare root rootPath options st = (Js.Ok tree, st') ->
  Forall (sortedChildren localeCompare) (nodes tree).
Proof.
  unfold buildFileTree.
  destruct (buildTreeRecursive localeCompare root rootPath rootPath options st)
    as [[inner|msg] s1] eqn:Hb; [|discriminate].
  intros H. injection H as <- <-.
  assert (Hin : Forall (sortedChildren localeCompare) (nodes inner)).
  { eapply (buildTreeRecursive_nodes localeCompare (sortedChildren localeCompare)); [| |exact Hb].
    - intros n Hn cs Hcs. congruence.
    - intros n l Hn _ cs Hcs. rewrite Hn in Hcs. injection Hcs as <-.
      eapply StronglySorted_impl; [apply before_siblingOrder|apply sort_sorted]. }
  destruct inner as [i nm ty p rp md ch]. simpl in *.
  apply Forall_cons in Hin. destruct Hin as [Hroot Hrest].
  constructor; [|exact Hrest].
  intros cs Hcs. apply Hroot. exact Hcs.
Qed.

End SiblingOrder.

Section SkipList.
Import TreeBuilder.

Variable localeCompare : string -> string -> Z.

Lemma buildFileTree_skipped (root : Fs.Entry) (rootPath : string) (options : Options)
  (st st' : nat) (tree : FileTreeNode) :
  buildFileTree localeCompare root rootPath options st = (Js.Ok tree, st') ->
  Forall childlessIfSkipped (nodes tree).
Proof.
  unfold buildFileTree.
  destruct (buildTreeRecursive localeCompare root rootPath rootPath options st)
    as [[inner|msg] s1] eqn:Hb; [|discriminate].
  intros H. injection H as <- <-.
  assert (Hin : name inner = Js.basename rootPath
                /\ Forall childlessIfSkipped (nodes inner)).
  { eapply (buildTreeRecursive_nodes localeCompare childlessIfSkipped); [| |exact Hb].
    - intros n Hn _. exact Hn.
    - intros n l _ Hskip Hs. congruence. }
  destruct Hin as [Hname Hin].
  destruct inner as [i nm ty p rp md ch]. simpl in *.
  apply Forall_cons in Hin. destruct Hin as [Hroot Hrest].
  constructor; [|exact Hrest].
  unfold childlessIfSkipped in *. simpl in *. subst nm. exact Hroot.
Qed.

End SkipList.

(** ** The skip list and the order of siblings *)

Section Claims.
Import TreeBuilder.

Lemma chars_app (a b : string) : Js.chars (a ++ b) = (Js.chars a ++ Js.chars b)%list.
Proof. induction a as [|c a IH]; simpl; [reflexivity|]. f_equal. exact IH. Qed.

Lemma drop_slashes_segment (l r : list ascii) :
  l <> [] -> forallb (fun a => negb (Ascii.eqb a Js.slash)) l = true ->
  Js.drop_slashes (l ++ r) = (l ++ r)%list.
Proof.
  destruct l as [|a l]; [contradiction|]. intros _ H. simpl in H |- *.
  apply andb_true_iff in H. destruct H as [Ha _].
  apply negb_true_iff in Ha. rewrite Ha. reflexivity.
Qed.

Lemma take_segment_to_slash (l r : list ascii) :
  forallb (fun a => negb (Ascii.eqb a Js.slash)) l = true ->
  Js.take_segment (l ++ Js.slash :: r) = l.
Proof.
  induction l as [|a l IH]; intros H.
  - reflexivity.
  - simpl in H |- *. apply andb_true_iff in H. destruct H as [Ha Hl].
    apply negb_true_iff in Ha. rewrite Ha. f_equal. apply IH. exact Hl.
Qed.

(** The path of an entry, made by [path.join], ends in the name of the
    entry. *)
Lemma basename_join (dir entry : string) :
  entry <> "" ->
  forallb (fun a => negb (Ascii.eqb a Js.slash)) (Js.chars entry) = true ->
  Js.basename (Js.join dir entry) = entry.
Proof.
  intros Hne Hseg.
  assert (E : rev (Js.chars (Js.join dir entry))
              = (rev (Js.chars entry) ++ Js.slash :: rev (Js.chars dir))%list).
  { unfold Js.join. rewrite !chars_app. change (Js.chars "/") with [Js.slash].
    rewrite !rev_app_distr. rewrite <- app_assoc. reflexivity. }
  assert (Hrev : forallb (fun a => negb (Ascii.eqb a Js.slash)) (rev (Js.chars entry)) = true).
  { rewrite forallb_forall in Hseg |- *. intros a Ha. apply Hseg. apply in_rev. exact Ha. }
  unfold Js.basename. rewrite E.
  rewrite drop_slashes_segment; [|intros E'|exact Hrev].
  - rewrite take_segment_to_slash by exact Hrev. rewrite rev_involutive.
    apply string_of_list_ascii_of_string.
  - apply (f_equal (@rev ascii)) in E'. rewrite rev_involutive in E'. simpl in E'.
    destruct entry; [contradiction|discriminate].
Qed.

(** The names of the skip list are single path segments. *)
Lemma skipped_name_is_a_segment (d : string) :
  shouldSkipDirectory d = true ->
  d <> "" /\ forallb (fun a => negb (Ascii.eqb a Js.slash)) (Js.chars d) = true.
Proof.
  unfold shouldSkipDirectory. rewrite existsb_exists. intros (x & Hx & E).
  apply String.eqb_eq in E. subst x. unfold skipDirs in Hx. simpl in Hx.
  repeat (destruct Hx as [<-|Hx]; [split; [discriminate|reflexivity]|]).
  contradiction.
Qed.

Lemma insert_In (localeCompare : string -> string -> Z) (x y : FileTreeNode)
  (l : list FileTreeNode) :
  In x (y :: l) -> In x (insert localeCompare y l).
Proof.
  induction l as [|z l IH]; simpl; [auto|].
  destruct (compareNodes localeCompare y z <=? 0); simpl; [auto|].
  intros [H|[H|H]].
  - right. apply IH. left. exact H.
  - left. exact H.
  - right. apply IH. right. exact H.
Qed.

Lemma sort_In (localeCompare : string -> string -> Z) (x : FileTreeNode)
  (l : list FileTreeNode) :
  In x l -> In x (sort localeCompare l).
Proof.
  induction l as [|y l IH]; simpl; [auto|].
  intros [H|H]; apply insert_In; [left; exact H|right; apply IH; exact H].
Qed.

(** The node the walker makes of a directory of the skip list, wherever
    it is found: a directory node without children, which the filter of the
    parent keeps. *)
Lemma skipped_directory_node (localeCompare : string -> string -> Z)
  (d : string) (sub : option (list Fs.Entry)) (dir rootPath : string)
  (options : Options) (s : nat) :
  shouldSkipDirectory d = true ->
  exists child,
    buildTreeRecursive localeCompare (Fs.Dir d sub) (Js.join dir d) rootPath options s
    = (Js.Ok child, S s)
    /\ name child = d /\ type child = directory /\ children child = None
    /\ dropped options child = false.
Proof.
  intros Hskip. destruct (skipped_name_is_a_segment d Hskip) as [Hne Hseg].
  pose proof (basename_join dir d Hne Hseg) as Hbase.
  generalize dependent (Js.join dir d). intros p Hbase.
  destruct sub as [es|]; simpl; rewrite Hbase, Hskip; eexists;
    (split; [reflexivity|]); simpl; auto.
Qed.

(** A directory of the skip list is a child of the node of the directory
    that holds it. *)
Lemma skipped_directory_is_a_child (localeCompare : string -> string -> Z)
  (n : string) (entries : list Fs.Entry) (d : string) (sub : option (list Fs.Entry))
  (currentPath rootPath : string) (options : Options) (st : nat) :
  shouldSkipDirectory (Js.basename currentPath) = false ->
  In (Fs.Dir d sub) entries ->
  shouldSkipDirectory d = true ->
  exists node st' cs child,
    buildTreeRecursive localeCompare (Fs.Dir n (Some entries)) currentPath rootPath
      options st = (Js.Ok node, st')
    /\ type node = directory /\ children node = Some cs /\ In child cs
    /\ name child = d /\ type child = directory /\ children child = None.
Proof.
  intros Hlisted Hin Hskip.
  simpl. rewrite Hlisted.
  match goal with
  | |- context [(let '(children, st0) := ?loop entries (S st) in _)] =>
      set (walk := loop)
  end.
  assert (Hwalk : forall es s,
             In (Fs.Dir d sub) es ->
             exists child,
               In child (walk es s).1
               /\ name child = d /\ type child = directory /\ children child = None).
  { intros es. induction es as [|entry rest IHrest]; intros s Hes; [destruct Hes|].
    cbn [walk].
    destruct Hes as [->|Hrest].
    - cbn [Fs.name].
      destruct (skipped_directory_node localeCompare d sub currentPath rootPath options s
                  Hskip) as (child & Hchild & Hname & Hty & Hch & Hkeep).
      rewrite Hchild. fold walk. destruct (walk rest (S s)) as [more s2].
      rewrite Hkeep. exists child. cbn [fst]. split; [left; reflexivity|auto].
    - destruct (buildTreeRecursive localeCompare entry _ rootPath options s) as [r s1].
      fold walk. destruct (IHrest s1 Hrest) as (child & Hchild & Hprops).
      destruct (walk rest s1) as [more s2]. cbn [fst] in Hchild.
      exists child. split; [|exact Hprops].
      destruct r as [childNode|msg]; [|exact Hchild].
      destruct (dropped options childNode); [exact Hchild|right; exact Hchild]. }
  destruct (Hwalk entries (S st) Hin) as (child & Hchild & Hname & Hty & Hch).
  destruct (walk entries (S st)) as [kept s']. cbn [fst] in Hchild.
  eexists _, _, _, child. split; [reflexivity|]. cbn [type children].
  split; [reflexivity|]. split; [reflexivity|].
  split; [apply sort_In; exact Hchild|auto].
Qed.

(** C3 fails on the code.  The half on the descent holds: every node of
    the tree whose name is in the skip list has no children, so nothing
    below such a directory is in the tree.  The half on the emission does
    not: the walker returns a node for such a directory and the loop of its
    parent pushes it, so the directory is a child of its parent, at the
    root and at every depth.  On the fixture of the specification the tree
    holds [node_modules] beside [a.ts] and [b.py]. *)
Theorem C3_skipped_directory_is_a_child_of_its_parent :
  childNames (builtTree fixtureRepo "/tmp/repo") = Some ["node_modules"; "a.ts"; "b.py"]
  /\ (forall (localeCompare : string -> string -> Z) (n : string)
             (entries : list Fs.Entry) (d : string) (sub : option (list Fs.Entry))
             (currentPath rootPath : string) (options : Options) (st : nat),
        shouldSkipDirectory (Js.basename currentPath) = false ->
        In (Fs.Dir d sub) entries ->
        shouldSkipDirectory d = true ->
        exists node st' cs child,
          buildTreeRecursive localeCompare (Fs.Dir n (Some entries)) currentPath rootPath
            options st = (Js.Ok node, st')
          /\ children node = Some cs /\ In child cs
          /\ name child = d /\ type child = directory /\ children child = None)
  /\ (forall (localeCompare : string -> string -> Z) (n : string)
             (entries : list Fs.Entry) (d : string) (sub : option (list Fs.Entry))
             (rootPath : string) (options : Options) (st : nat),
        shouldSkipDirectory (Js.basename rootPath) = false ->
        In (Fs.Dir d sub) entries ->
        shouldSkipDirectory d = true ->
        exists tree st' cs child,
          buildFileTree localeCompare (Fs.Dir n (Some entries)) rootPath options st
          = (Js.Ok tree, st')
          /\ children tree = Some cs /\ In child cs
          /\ name child = d /\ type child = directory /\ children child = None
          /\ In d (map name (nodes tree)))
  /\ (forall (localeCompare : string -> string -> Z) (root : Fs.Entry)
             (rootPath : string) (options : Options) (st st' : nat) (tree : FileTreeNode),
        buildFileTree localeCompare root rootPath options st = (Js.Ok tree, st') ->
        Forall childlessIfSkipped (nodes tree)).
Proof.
  split; [vm_compute; reflexivity|]. split; [|split].
  - intros localeCompare n entries d sub currentPath rootPath options st Hl Hin Hskip.
    destruct (skipped_directory_is_a_child localeCompare n entries d sub currentPath
                rootPath options st Hl Hin Hskip)
      as (node & st' & cs & child & Hb & _ & Hcs & Hchild & Hprops).
    exists node, st', cs, child. auto.
  - intros localeCompare n entries d sub rootPath options st Hl Hin Hskip.
    destruct (skipped_directory_is_a_child localeCompare n entries d sub rootPath
                rootPath options st Hl Hin Hskip)
      as (node & st' & cs & child & Hb & _ & Hcs & Hchild & Hname & Hty & Hch).
    unfold buildFileTree. rewrite Hb. cbn [generateId].
    eexists _, _, cs, child. split; [reflexivity|]. cbn [children].
    split; [exact Hcs|]. split; [exact Hchild|]. split; [exact Hname|].
    split; [exact Hty|]. split; [exact Hch|].
    apply in_map_iff. exists child. split; [exact Hname|].
    cbn [nodes children]. rewrite Hcs. right.
    apply in_flat_map. exists child. split; [exact Hchild|].
    destruct child; simpl; left; reflexivity.
  - intros localeCompare root rootPath options st st' tree Hbuild.
    eapply buildFileTree_skipped. exact Hbuild.
Qed.

Lemma sorted_groups (localeCompare : string -> string -> Z) (cs : list FileTreeNode) :
  StronglySorted (siblingOrder localeCompare) cs ->
  cs = (List.filter isDirectory cs ++ List.filter isFileNode cs)%list.
Proof.
  induction 1 as [|x l Hl IH Hx]; [reflexivity|].
  unfold isDirectory, isFileNode in *. simpl.
  destruct (type x) eqn:Hty; simpl.
  - (* a file: only files follow *)
    assert (Hfiles : Forall (fun c => type c = file) l).
    { eapply Forall_impl; [exact Hx|]. intros c [[H _]|[H _]]; congruence. }
    assert (Hnone : List.filter (fun n => NodeType_eqb (type n) directory) l = []
                    /\ List.filter (fun n => NodeType_eqb (type n) file) l = l).
    { clear - Hfiles. induction Hfiles as [|c l Hc Hl IHl]; [auto|].
      destruct IHl as [I1 I2]. simpl. rewrite Hc. simpl. rewrite I1, I2. auto. }
    destruct Hnone as [H1 H2]. rewrite H1, H2. reflexivity.
  - f_equal. exact IH.
Qed.

(** C6.  In a tree built by [buildFileTree], the children of every
    directory node are the directory nodes followed by the file nodes, and
    within each group the names ascend when case is ignored.  The
    comparison of names is the host's [localeCompare]: a total preorder in
    which case only breaks ties. *)
Theorem C6_children_are_sorted
  (localeCompare : string -> string -> Z)
  (localeCompare_total : forall a b, localeCompare a b <= 0 \/ localeCompare b a <= 0)
  (localeCompare_trans :
     forall a b c, localeCompare a b <= 0 -> localeCompare b c <= 0 ->
                   localeCompare a c <= 0)
  (localeCompare_folds :
     forall a b, localeCompare a b <= 0 ->
                 localeCompare (Js.toLowerCase a) (Js.toLowerCase b) <= 0)
  (root : Fs.Entry) (rootPath : string) (options : Options) (st st' : nat)
  (tree : FileTreeNode)
  (Hbuild : buildFileTree localeCompare root rootPath options st = (Js.Ok tree, st')) :
  Forall
    (fun n =>
       forall cs, children n = Some cs ->
                  StronglySorted (siblingOrder localeCompare) cs
                  /\ cs = (List.filter isDirectory cs ++ List.filter isFileNode cs)%list)
    (nodes tree).
Proof.
  eapply Forall_impl.
  - eapply buildFileTree_sorted; eassumption.
  - intros n Hn cs Hcs. specialize (Hn cs Hcs). split; [exact Hn|].
    apply sorted_groups with localeCompare. exact Hn.
Qed.

(** C6 on the fixture with mixed-case names. *)
Lemma C6_witness :
  Forall
    (fun n =>
       forall cs, children n = Some cs ->
                  StronglySorted (siblingOrder asciiCollation) cs
                  /\ cs = (List.filter isDirectory cs ++ List.filter isFileNode cs)%list)
    (nodes (builtTree mixedRepo "/tmp/repo")).
Proof.
  refine (C6_children_are_sorted asciiCollation asciiCollation_total
            asciiCollation_trans asciiCollation_folds mixedRepo "/tmp/repo"
            fixtureOptions 0%nat _ (builtTree mixedRepo "/tmp/repo") _).
  vm_compute. reflexivity.
Defined.

Example mixedRepo_order :
  childNames (builtTree mixedRepo "/tmp/repo") = Some ["Docs"; "src"; "a.ts"; "A.ts"; "b.ts"].
Proof. vm_compute. reflexivity. Qed.

End Claims.

(** ** Average file size *)

Section AverageFileSize.
Import TreeBuilder Metrics.

Lemma flattenTree_empty (tree : FileTreeNode) :
  flattenTree tree = [] -> onlyDirectories tree.
Proof.
  unfold flattenTree, onlyDirectories.
  induction (nodes tree) as [|m l IH]; intros H; [constructor|].
  simpl in H. destruct (type m) eqn:Hty; simpl in H; [discriminate|].
  constructor; [exact Hty|apply IH; exact H].
Qed.

Lemma traverse_directories (n : FileTreeNode) :
  forall stats,
    onlyDirectories n ->
    totalFiles (traverseAndCount n stats) = totalFiles stats
    /\ sizeBreakdown (traverseAndCount n stats) = sizeBreakdown stats.
Proof.
  induction n as [n IH] using FileTreeNode_nested_ind.
  intros stats Hdirs. unfold onlyDirectories in Hdirs.
  destruct n as [i nm ty p rp md ch]. simpl in *.
  apply Forall_cons in Hdirs. destruct Hdirs as [Hty Hrest]. simpl in Hty. subst ty.
  unfold countNode. simpl.
  destruct ch as [cs|]; [|auto].
  specialize (IH cs eq_refl).
  set (s0 := mkStatistics (totalFiles stats) (totalDirectories stats + 1)
               (totalLines stats) (languageBreakdown stats) (sizeBreakdown stats)).
  change (totalFiles stats) with (totalFiles s0).
  change (sizeBreakdown stats) with (sizeBreakdown s0).
  clearbody s0. revert s0.
  induction cs as [|c cs IHcs]; intros s0; simpl; [auto|].
  apply Forall_cons in IH. destruct IH as [Hc Hcs].
  simpl in Hrest. apply Forall_app in Hrest. destruct Hrest as [Hr1 Hr2].
  destruct (Hc s0 Hr1) as [E1 E2].
  destruct (IHcs Hcs Hr2 (traverseAndCount c s0)) as [E3 E4].
  rewrite E3, E4. auto.
Qed.

End AverageFileSize.

Section AverageFileSizeServed.
Import TreeBuilder Metrics.

Lemma calculateMetrics_no_files (tree : FileTreeNode) :
  flattenTree tree = [] ->
  totalFiles (calculateMetrics tree) = 0
  /\ sizeBreakdown (calculateMetrics tree) = mkSizeBreakdown 0 (Js.Num 0).
Proof.
  intros H. apply flattenTree_empty in H.
  destruct (traverse_directories tree initialStatistics H) as [E1 E2].
  unfold calculateMetrics. rewrite E1. simpl. rewrite E1, E2. auto.
Qed.

(** C2: the half of the claim on [calculateMetrics] holds, the half on
    [GET /analysis/:id/tree] fails.  For a tree without file nodes,
    [calculateMetrics] leaves [averageFileSize] at 0; the handler divides
    the stored [totalSize] by the stored [totalFiles] without the guard,
    which is [0 / 0]: the statistics it builds hold NaN and the client
    reads [null]. *)
Theorem C2_average_file_size_without_files
  (tree : FileTreeNode) (key : string) (db : Prisma.Db) (r : Prisma.AnalysisRow)
  (Hempty : flattenTree tree = [])
  (Hconn : Prisma.connected db = true)
  (Hrecord : Prisma.analysis db !! key = Some r)
  (Hfresh : Prisma.fileTree db !! key = None) :
  let statistics := calculateMetrics tree in
  let db' := (FileTreeRepository.save key tree statistics db).2 in
  averageFileSize (sizeBreakdown statistics) = Js.Num 0
  /\ (exists served,
        Routes.getTree key db' = Routes.json (Routes.TreeBody tree served)
        /\ averageFileSize (sizeBreakdown served) = Js.NaN)
  /\ Routes.averageFileSizeOf (Routes.getTree key db') = Some None.
Proof.
  cbv zeta. destruct (calculateMetrics_no_files tree Hempty) as [Hfiles Hsize].
  split; [rewrite Hsize; reflexivity|].
  unfold FileTreeRepository.save, Prisma.fileTree_create.
  rewrite Hconn. simpl. rewrite Hrecord, Hfresh. simpl.
  unfold Routes.getTree, AnalysisRepository.findById, Prisma.analysis_findUnique.
  simpl. rewrite ?Hconn. simpl. rewrite ?Hrecord. simpl.
  rewrite lookup_insert_eq. simpl.
  rewrite Hfiles, Hsize. simpl.
  split; [|reflexivity].
  eexists. split; reflexivity.
Qed.

(** C2 on the empty repository. *)
Lemma C2_witness :
  Routes.averageFileSizeOf
    (Routes.getTree "a1"
       (FileTreeRepository.save "a1" (builtTree emptyRepo "/tmp/repo")
          (calculateMetrics (builtTree emptyRepo "/tmp/repo")) intakeDb).2)
  = Some None.
Proof.
  refine (proj2 (proj2 (C2_average_file_size_without_files
                          (builtTree emptyRepo "/tmp/repo") "a1" intakeDb
                          (Prisma.mkAnalysis "a1" "https://github.com/acme/widgets" "acme"
                             "widgets" "main" None Prisma.queued None
                             (Prisma.mkAnalysisOptions true 1000 None None false)
                             0 None None) _ _ _ _)));
    vm_compute; reflexivity.
Defined.

End AverageFileSizeServed.

(** ** Methods of Python classes *)

Section Matches.
Import RegExp.

Variable input : list ascii.

Lemma m_reaches (r : Regex) :
  forall i c k x,
    m input r i c k = Some x ->
    exists j c', (i <= j)%nat /\ k j c' = Some x.
Proof.
  induction r as [|p|ml| |r1 IH1 r2 IH2|r1 IH1 r2 IH2|r IH|n r IH];
    intros i c k x H; [simpl in H ..| |simpl in H].
  - eauto.
  - destruct (nth_error input i) as [a|]; [|discriminate].
    destruct (p a); [|discriminate]. exists (S i), c. split; [lia|exact H].
  - destruct (_ || _); [|discriminate]. eauto.
  - destruct (xorb _ _); [|discriminate]. eauto.
  - apply IH1 in H. destruct H as (j1 & c1 & Hle1 & H).
    apply IH2 in H. destruct H as (j2 & c2 & Hle2 & H).
    exists j2, c2. split; [lia|exact H].
  - destruct (m input r1 i c k) as [y|] eqn:E.
    + injection H as <-. eapply IH1; exact E.
    + eapply IH2; exact H.
  - assert (Hiter : forall fuel i c,
              (fix iterate (n : nat) (i : nat) (c : Captures) : option (nat * Captures) :=
                 match n with
                 | O => k i c
                 | S n' =>
                     match m input r i c
                             (fun j c' => if (i <? j)%nat then iterate n' j c' else None) with
                     | Some x => Some x
                     | None => k i c
                     end
                 end) fuel i c = Some x ->
              exists j c', (i <= j)%nat /\ k j c' = Some x).
    { induction fuel as [|fuel IHfuel]; intros i0 c0 H0.
      - eauto.
      - match type of H0 with
        | match ?t with _ => _ end = _ => destruct t as [y|] eqn:E
        end.
        + injection H0 as <-. apply IH in E. destruct E as (j & c' & Hle & E).
          destruct (i0 <? j)%nat; [|discriminate].
          apply IHfuel in E. destruct E as (j2 & c2 & Hle2 & E).
          exists j2, c2. split; [lia|exact E].
        + eauto. }
    apply (Hiter (S (length input - i)) i c). exact H.
  - apply IH in H. destruct H as (j & c' & Hle & H). eauto.
Qed.

Lemma match_at_spans (r : Regex) (i : nat) (x : Match) :
  match_at input r i = Some x -> index x = i /\ (i <= stop x)%nat.
Proof.
  unfold match_at. destruct (m input r i [] _) as [[j c]|] eqn:E; [|discriminate].
  intros H. injection H as <-. simpl. split; [reflexivity|].
  apply m_reaches in E. destruct E as (j' & c' & Hle & E). injection E as <- <-. exact Hle.
Qed.

Lemma search_from (r : Regex) (n : nat) :
  forall i x, search input r n i = Some x ->
              (i <= index x)%nat /\ (index x <= stop x)%nat.
Proof.
  induction n as [|n IH]; intros i x H; simpl in H; [discriminate|].
  destruct (match_at input r i) as [y|] eqn:E.
  - injection H as <-. apply match_at_spans in E. destruct E as [E1 E2]. lia.
  - apply IH in H. lia.
Qed.

Lemma exec_from (r : Regex) (lastIndex : nat) (x : Match) :
  exec input r lastIndex = Some x ->
  (lastIndex <= index x)%nat /\ (index x <= stop x)%nat.
Proof.
  unfold exec. destruct (lastIndex <=? length input)%nat; [|discriminate].
  apply search_from.
Qed.

(** The test [nextClassMatch.index < match.index] of
    [extractMethodsFromClass] is false for every method match: the search
    for the next class starts where the method match stops. *)
Lemma next_class_is_never_before (r next_r : Regex) (lastIndex : nat) (x next : Match) :
  exec input r lastIndex = Some x ->
  exec input next_r (stop x) = Some next ->
  (index next <? index x)%nat = false.
Proof.
  intros Hx Hnext. apply exec_from in Hx. apply exec_from in Hnext.
  apply Nat.ltb_ge. lia.
Qed.

End Matches.

Section ClassBoundary.
Import RegExp.

Lemma exec_loop_matches (input : list ascii) (r : Regex) (fuel : nat) :
  forall lastIndex x,
    In x (exec_loop input r fuel lastIndex) ->
    exists from, exec input r from = Some x.
Proof.
  induction fuel as [|fuel IH]; intros lastIndex x H; simpl in H; [contradiction|].
  destruct (exec input r lastIndex) as [y|] eqn:E; [|contradiction].
  destruct H as [<-|H]; [eauto|]. eapply IH; exact H.
Qed.

Lemma flat_map_agree {A B : Type} (f g : A -> list B) (l : list A) :
  (forall a, In a l -> f a = g a) -> flat_map f l = flat_map g l.
Proof.
  induction l as [|a l IH]; intros H; simpl; [reflexivity|].
  rewrite (H a (or_introl eq_refl)), IH; [reflexivity|].
  intros b Hb. apply H. right. exact Hb.
Qed.

(** What [extractMethodsFromClass] computes: the test on the next class
    excludes nothing, so the methods of a class are all the indented
    [def]s below its header line, to the end of the file. *)
Lemma extractMethodsFromClass_to_end_of_file (content : string) (lines : list string)
  (classLine : nat) (className : string) :
  PythonParser.extractMethodsFromClass content lines classLine className
  = flat_map
      (fun x =>
         if (PythonParser.lineNumberAt content (index x) <=? classLine)%nat then []
         else if (String.length (default "" (group (Js.chars content) x 1)) =? 0)%nat
              then []
              else [PythonParser.methodInfo content lines x])
      (exec_all (Js.chars content) PythonParser.methodRegex).
Proof.
  unfold PythonParser.extractMethodsFromClass.
  apply flat_map_agree. intros x Hx.
  destruct (_ <=? classLine)%nat; [reflexivity|].
  destruct (_ =? 0)%nat; [reflexivity|].
  destruct (exec (Js.chars content) PythonParser.nextClassRegex (stop x))
    as [next|] eqn:Hnext; [|reflexivity].
  apply exec_loop_matches in Hx. destruct Hx as [from Hx].
  rewrite (next_class_is_never_before _ _ _ _ _ _ Hx Hnext). reflexivity.
Qed.

End ClassBoundary.

(** C7 fails on the code: the method [b], declared under the later class
    [B], is in the methods of the earlier class [A] too; and in general the
    methods of a class are all the indented [def]s below its header line,
    with no regard to a class header in between. *)
Theorem C7_method_of_later_class_is_attributed_to_earlier :
  methodNames twoClasses = [ ("A", ["a"; "b"]); ("B", ["b"]) ]
  /\ forall content lines classLine className,
      PythonParser.extractMethodsFromClass content lines classLine className
      = flat_map
          (fun x =>
             if (PythonParser.lineNumberAt content (RegExp.index x) <=? classLine)%nat
             then []
             else if (String.length
                        (default "" (RegExp.group (Js.chars content) x 1)) =? 0)%nat
                  then []
                  else [PythonParser.methodInfo content lines x])
          (RegExp.exec_all (Js.chars content) PythonParser.methodRegex).
Proof.
  split; [vm_compute; reflexivity|].
  apply extractMethodsFromClass_to_end_of_file.
Qed.

(** ** The working copy of a job *)

Lemma healthy_job_disposes_then_completes :
  let '(r, w) := Worker.processAnalysisJob healthyEnv job1 world0 in
  statusOf w "a1" = Some Prisma.completed
  /\ Worker.workingCopies w !! clonePath = None
  /\ map Prisma.pf_filePath (Prisma.parsedFile (Worker.db w)) = ["a.ts"; "b.py"].
Proof. vm_compute. auto. Qed.

Section SuccessPath.
Import Worker.

Lemma bind_ok {A B : Type} (c : M A) (k : A -> M B) (w w' : World) (b : B) :
  bind c k w = (Js.Ok b, w') ->
  exists a w1, c w = (Js.Ok a, w1) /\ k a w1 = (Js.Ok b, w').
Proof.
  unfold bind. destruct (c w) as [[a|message] w1]; [eauto|discriminate].
Qed.

Lemma cloneRepository_ok (env : Env) (w w' : World) (localPath : string) :
  cloneRepository env w = (Js.Ok localPath, w') ->
  localPath = Js.join CLONE_BASE_PATH (cloneId env).
Proof.
  unfold cloneRepository, cleanUpFailedClone.
  destruct (fsEnsureDir env); [|discriminate].
  destruct (gitClone env); [|discriminate].
  destruct (gitLog env); [|discriminate].
  destruct (gitRevparse env); [|discriminate].
  intros H. injection H as <- _. reflexivity.
Qed.

Lemma deleteRepository_ok (env : Env) (localPath : string) (w w' : World) (u : unit) :
  deleteRepository env localPath w = (Js.Ok u, w') ->
  workingCopies w' !! localPath = None.
Proof.
  unfold deleteRepository. destruct (fsRemove env); intros H; [|discriminate].
  injection H as _ <-. simpl. apply lookup_delete_eq.
Qed.

Lemma publish_keeps_copies (env : Env) (p : JobProgress) (w w' : World) (r : Js.Result unit) :
  publish env p w = (r, w') -> workingCopies w' = workingCopies w.
Proof.
  unfold publish. destruct (updateProgress env p); intros H; injection H as _ <-; reflexivity.
Qed.

Lemma onDb_keeps_copies {A : Type} (f : Z -> Prisma.Db -> Js.Result A * Prisma.Db)
  (w w' : World) (r : Js.Result A) :
  onDb f w = (r, w') -> workingCopies w' = workingCopies w.
Proof.
  unfold onDb. destruct (f (clock w) (db w)). intros H. injection H as _ <-. reflexivity.
Qed.

Lemma updateStatus_sets_status (key : string) (st : Prisma.JobStatus) (err : option string)
  (w w' : World) (r : Prisma.AnalysisRow) :
  onDb (fun now => AnalysisRepository.updateStatus key st err now) w = (Js.Ok r, w') ->
  option_map Prisma.status (Prisma.analysis (db w') !! key) = Some st.
Proof.
  unfold onDb, AnalysisRepository.updateStatus, Prisma.analysis_update.
  destruct (negb (Prisma.connected (db w))); [discriminate|].
  destruct (Prisma.analysis (db w) !! key) as [r0|]; [|discriminate].
  intros H. injection H as _ <-. simpl. rewrite lookup_insert_eq. reflexivity.
Qed.

(** The success path: a job that returns has disposed of its working copy,
    and its record is [completed]. *)
Lemma completed_job_has_no_working_copy (env : Env) (data : AnalysisJobData)
  (w w' : World) (r : JobReturn) :
  processAnalysisJob env data w = (Js.Ok r, w') ->
  workingCopies w' !! Js.join CLONE_BASE_PATH (cloneId env) = None
  /\ statusOf w' (analysisId data) = Some Prisma.completed.
Proof.
  unfold processAnalysisJob, try_catch.
  destruct (pipeline env data w) as [[r0|message] w0] eqn:Hp.
  2:{ unfold bind. destruct (onDb _ w0) as [[?|?] ?]; discriminate. }
  intros H. injection H as <- <-.
  unfold pipeline in Hp. cbv zeta in Hp.
  repeat (apply bind_ok in Hp; destruct Hp as (? & ? & ? & Hp); cbv zeta in Hp).
  injection Hp as _ <-.
  match goal with
  | H : cloneRepository env _ = (Js.Ok ?p, _) |- _ =>
      apply cloneRepository_ok in H; subst p
  end.
  match goal with
  | H : deleteRepository env _ _ = _ |- _ => apply deleteRepository_ok in H; rename H into Hdel
  end.
  match goal with
  | H : publish env (mkProgress "Analysis complete" _ _ _) _ = _ |- _ =>
      apply publish_keeps_copies in H; rename H into Hpub
  end.
  match goal with
  | H : onDb (fun now => AnalysisRepository.updateStatus _ Prisma.completed None now) _ = _
    |- _ =>
      pose proof (onDb_keeps_copies _ _ _ _ H) as Hcopies;
      apply updateStatus_sets_status in H; rename H into Hstatus
  end.
  split; [|exact Hstatus].
  rewrite Hcopies, Hpub. exact Hdel.
Qed.

End SuccessPath.

(** The [catch] block of the worker touches the record only: what the
    [try] block left on disk is what the job leaves on disk. *)
Lemma catch_block_keeps_working_copies (env : Worker.Env)
  (data : Worker.AnalysisJobData) (w : Worker.World) :
  Worker.workingCopies (Worker.processAnalysisJob env data w).2
  = Worker.workingCopies (Worker.pipeline env data w).2.
Proof.
  unfold Worker.processAnalysisJob, Worker.try_catch.
  destruct (Worker.pipeline env data w) as [[r|message] w']; [reflexivity|].
  unfold Worker.bind, Worker.onDb. simpl.
  destruct (AnalysisRepository.updateStatus _ _ _ _ _) as [[r|message'] d]; reflexivity.
Qed.

(** A later attempt of a job whose file tree is already stored fails when
    it saves the tree again, after the clone: its working copy stays too. *)
Lemma retried_job_leaves_working_copy :
  (Worker.processAnalysisJob healthyEnv job1 retryWorld).1
  = Js.Throw "Unique constraint failed on the fields: (analysisId)"
  /\ statusOf (Worker.processAnalysisJob healthyEnv job1 retryWorld).2 "a1"
     = Some Prisma.failed
  /\ Worker.workingCopies (Worker.processAnalysisJob healthyEnv job1 retryWorld).2
       !! clonePath = Some fixtureRepo.
Proof.
  split; [vm_compute; reflexivity|].
  split; [vm_compute; reflexivity|].
  vm_compute; reflexivity.
Qed.

(** C1 fails on the code.  The half on success holds: a job that returns
    has disposed of its working copy and its record is [completed].  The
    half on failure does not: here the job raises an exception after the
    clone, its record becomes [failed], and the working copy is still on
    disk.  The [catch] block of the worker never disposes of it: it leaves
    the disk as the [try] block left it. *)
Theorem C1_failed_job_leaves_working_copy :
  (Worker.processAnalysisJob lostQueueEnv job1 world0).1 = Js.Throw "Connection is closed."
  /\ statusOf (Worker.processAnalysisJob lostQueueEnv job1 world0).2 "a1"
     = Some Prisma.failed
  /\ errorOf (Worker.processAnalysisJob lostQueueEnv job1 world0).2 "a1"
     = Some "Connection is closed."
  /\ Worker.workingCopies (Worker.processAnalysisJob lostQueueEnv job1 world0).2
       !! clonePath = Some fixtureRepo
  /\ (forall env data w,
        Worker.workingCopies (Worker.processAnalysisJob env data w).2
        = Worker.workingCopies (Worker.pipeline env data w).2)
  /\ (forall env data w r w',
        Worker.processAnalysisJob env data w = (Js.Ok r, w') ->
        Worker.workingCopies w' !! Js.join Worker.CLONE_BASE_PATH (Worker.cloneId env)
        = None
        /\ statusOf w' (Worker.analysisId data) = Some Prisma.completed).
Proof.
  split; [vm_compute; reflexivity|].
  split; [vm_compute; reflexivity|].
  split; [vm_compute; reflexivity|].
  split; [vm_compute; reflexivity|].
  split; [apply catch_block_keeps_working_copies|].
  intros env data w r w'. apply completed_job_has_no_working_copy.
Qed.

(** ** Totals of the metrics over the trees of the builder *)

Section Tallies.
Import TreeBuilder Metrics.

Lemma traverse_is_fold (n : FileTreeNode) :
  Forall fileIsLeaf (nodes n) ->
  forall stats,
    traverseAndCount n stats = fold_left (fun st m => countNode m st) (nodes n) stats.
Proof.
  induction n as [n IH] using FileTreeNode_nested_ind.
  intros Hleaf stats.
  destruct n as [i nm ty p rp md ch]. simpl in *.
  apply Forall_cons in Hleaf. destruct Hleaf as [Hn Hrest].
  unfold fileIsLeaf in Hn. simpl in Hn.
  destruct ty.
  - rewrite (Hn eq_refl). reflexivity.
  - destruct ch as [cs|]; [|reflexivity].
    specialize (IH cs eq_refl).
    generalize (countNode (mkNode i nm directory p rp md (Some cs)) stats).
    clear Hn. induction cs as [|c cs IHcs]; intros s; simpl; [reflexivity|].
    apply Forall_cons in IH. destruct IH as [Hc Hcs].
    simpl in Hrest. apply Forall_app in Hrest. destruct Hrest as [Hr1 Hr2].
    rewrite fold_left_app. rewrite <- (Hc Hr1 s). apply IHcs; assumption.
Qed.

Lemma sumOfCounts_insert (m : gmap string Z) (k : string) :
  sumOfCounts (<[k := default 0 (m !! k) + 1]> m) = sumOfCounts m + 1.
Proof.
  unfold sumOfCounts.
  destruct (m !! k) as [v|] eqn:Hk; simpl.
  - rewrite <- (insert_delete_id m k v Hk) at 2.
    rewrite <- (insert_delete_eq m k (v + 1)).
    rewrite (map_fold_insert_L _ _ k (v + 1)).
    + rewrite (map_fold_insert_L _ _ k v).
      * lia.
      * intros. lia.
      * apply lookup_delete_eq.
    + intros. lia.
    + apply lookup_delete_eq.
  - rewrite (map_fold_insert_L _ _ k (0 + 1)).
    + lia.
    + intros. lia.
    + exact Hk.
Qed.

Lemma fold_countNode (l : list FileTreeNode) :
  forall stats,
    let stats' := fold_left (fun st m => countNode m st) l stats in
    totalFiles stats' = totalFiles stats + Z.of_nat (length (List.filter isFileNode l))
    /\ totalDirectories stats'
       = totalDirectories stats + Z.of_nat (length (List.filter isDirectory l))
    /\ totalLines stats' = totalLines stats + total linesOf (List.filter isFileNode l)
    /\ totalSize (sizeBreakdown stats')
       = totalSize (sizeBreakdown stats) + total sizeOf (List.filter isFileNode l)
    /\ averageFileSize (sizeBreakdown stats') = averageFileSize (sizeBreakdown stats)
    /\ sumOfCounts (languageBreakdown stats')
       = sumOfCounts (languageBreakdown stats)
         + Z.of_nat (length (List.filter hasMetadata (List.filter isFileNode l))).
Proof.
  induction l as [|n l IH]; intros stats; cbv zeta.
  - simpl. repeat split; lia.
  - cbn [fold_left]. specialize (IH (countNode n stats)). cbv zeta in IH.
    destruct IH as (E1 & E2 & E3 & E4 & E5 & E6).
    rewrite E1, E2, E3, E4, E5, E6. clear E1 E2 E3 E4 E5 E6.
    unfold countNode, isFileNode, isDirectory, linesOf, sizeOf, hasMetadata, total.
    destruct n as [i nm ty p rp md ch]. destruct ty; [destruct md as [m|]|]; simpl;
      rewrite ?sumOfCounts_insert; repeat split; lia.
Qed.

End Tallies.

Section BuilderInvariant.
Import TreeBuilder.

Variable localeCompare : string -> string -> Z.
Variable options : Options.

(** A property of nodes that holds of the three shapes of node the
    builder makes: a file node, a directory without children, and a listed
    directory whose children have the property and passed the filter. *)
Variable Q : FileTreeNode -> Prop.
Hypothesis Q_file : forall i nm p rp md, Q (mkNode i nm file p rp md None).
Hypothesis Q_leaf : forall i nm p rp, Q (mkNode i nm directory p rp None None).
Hypothesis Q_listed :
  forall i nm p rp kept,
    Forall Q kept -> Forall (fun c => dropped options c = false) kept ->
    Q (mkNode i nm directory p rp None (Some (sort localeCompare kept))).

Lemma buildTreeRecursive_invariant (e : Fs.Entry) :
  forall (currentPath rootPath : string) (st st' : nat) (node : FileTreeNode),
    buildTreeRecursive localeCompare e currentPath rootPath options st = (Js.Ok node, st') ->
    Q node.
Proof.
  induction e as [n sz mt c|n|n es IHes|n|n] using Entry_nested_ind;
    intros currentPath rootPath st st' node Hb.
  - simpl in Hb. injection Hb as <- <-. apply Q_file.
  - simpl in Hb. destruct (shouldSkipDirectory (Js.basename currentPath)); [|discriminate].
    injection Hb as <- <-. apply Q_leaf.
  - simpl in Hb.
    destruct (shouldSkipDirectory (Js.basename currentPath)) eqn:Hskip.
    { injection Hb as <- <-. apply Q_leaf. }
    match type of Hb with
    | (let '(children, st0) := ?loop es (S st) in _) = _ =>
        set (walk := loop) in Hb
    end.
    assert (Hwalk : forall entries s, Forall
              (fun e => forall currentPath rootPath st st' node,
                 buildTreeRecursive localeCompare e currentPath rootPath options st
                 = (Js.Ok node, st') -> Q node) entries ->
              Forall Q (walk entries s).1
              /\ Forall (fun c => dropped options c = false) (walk entries s).1).
    { intros entries. induction entries as [|entry rest IHrest]; intros s HF.
      - simpl. split; constructor.
      - apply Forall_cons in HF. destruct HF as [He Hrest].
        simpl.
        destruct (buildTreeRecursive localeCompare entry
                    (Js.join currentPath (Fs.name entry)) rootPath options s)
          as [r s1] eqn:Hr.
        specialize (IHrest s1 Hrest).
        destruct (walk rest s1) as [more s2] eqn:Hmore. simpl in IHrest.
        destruct r as [childNode|msg]; simpl; [|exact IHrest].
        destruct (dropped options childNode) eqn:Hdrop; simpl; [exact IHrest|].
        destruct IHrest as [I1 I2].
        split; constructor; try assumption.
        eapply He. exact Hr. }
    specialize (Hwalk es (S st) IHes).
    destruct (walk es (S st)) as [kept s'] eqn:Hkept. simpl in Hwalk.
    injection Hb as <- <-. destruct Hwalk as [H1 H2]. apply Q_listed; assumption.
  - simpl in Hb. injection Hb as <- <-. apply Q_file.
  - simpl in Hb. discriminate.
Qed.

End BuilderInvariant.

Section BuiltTreeInvariant.
Import TreeBuilder.

Lemma buildFileTree_invariant (localeCompare : string -> string -> Z) (options : Options)
  (Q : FileTreeNode -> Prop)
  (Q_file : forall i nm p rp md, Q (mkNode i nm file p rp md None))
  (Q_leaf : forall i nm p rp, Q (mkNode i nm directory p rp None None))
  (Q_listed :
     forall i nm p rp kept,
       Forall Q kept -> Forall (fun c => dropped options c = false) kept ->
       Q (mkNode i nm directory p rp None (Some (sort localeCompare kept))))
  (root : Fs.Entry) (rootPath : string) (st st' : nat) (tree : FileTreeNode) :
  buildFileTree localeCompare root rootPath options st = (Js.Ok tree, st') -> Q tree.
Proof.
  unfold buildFileTree.
  destruct (buildTreeRecursive localeCompare root rootPath rootPath options st)
    as [[inner|msg] s1] eqn:Hb; [|discriminate].
  intros H. injection H as <- <-.
  assert (Hin : Q inner
                /\ forall i nm p rp, Q (mkNode i nm directory p rp None (children inner))).
  { eapply (buildTreeRecursive_invariant localeCompare options
              (fun n => Q n /\ forall i nm p rp,
                                 Q (mkNode i nm directory p rp None (children n))));
      [| | |exact Hb].
    - intros. split; [apply Q_file|]. intros. apply Q_leaf.
    - intros. split; [apply Q_leaf|]. intros. apply Q_leaf.
    - intros i nm p rp kept HQ Hkept.
      assert (HQ' : Forall Q kept).
      { eapply Forall_impl; [exact HQ|]. intros c [Hc _]. exact Hc. }
      split; [apply Q_listed; assumption|].
      intros. simpl. apply Q_listed; assumption. }
  destruct Hin as [_ Hroot]. apply Hroot.
Qed.

Lemma nodes_unfold (n : FileTreeNode) : nodes n = n :: descendants n.
Proof. destruct n as [i nm ty p rp md [cs|]]; reflexivity. Qed.

Lemma Forall_flat_map_nodes' (P : FileTreeNode -> Prop) (l : list FileTreeNode) :
  Forall (fun c => Forall P (nodes c)) l -> Forall P (flat_map nodes l).
Proof.
  induction 1 as [|c l Hc Hl IH]; simpl; [constructor|].
  apply Forall_app. split; assumption.
Qed.

(** In a tree of the builder, a file node has no children. *)
Lemma buildFileTree_leaves (localeCompare : string -> string -> Z)
  (root : Fs.Entry) (rootPath : string) (options : Options) (st st' : nat)
  (tree : FileTreeNode) :
  buildFileTree localeCompare root rootPath options st = (Js.Ok tree, st') ->
  Forall fileIsLeaf (nodes tree).
Proof.
  apply (buildFileTree_invariant localeCompare options
           (fun n => Forall fileIsLeaf (nodes n))).
  - intros. constructor; [intros _; reflexivity|constructor].
  - intros. constructor; [intros _; reflexivity|constructor].
  - intros i nm p rp kept HQ _. rewrite nodes_unfold. constructor.
    + intros H. discriminate.
    + unfold descendants. simpl. apply Forall_flat_map_nodes'.
      apply sort_Forall. exact HQ.
Qed.

End BuiltTreeInvariant.

Section MetricsOfBuiltTrees.
Import TreeBuilder Metrics.

Lemma traverse_keeps_average (n : FileTreeNode) :
  forall stats,
    averageFileSize (sizeBreakdown (traverseAndCount n stats))
    = averageFileSize (sizeBreakdown stats).
Proof.
  induction n as [n IH] using FileTreeNode_nested_ind.
  intros stats. destruct n as [i nm ty p rp md ch]. simpl in *.
  assert (Hnode : forall node, averageFileSize (sizeBreakdown (countNode node stats))
                               = averageFileSize (sizeBreakdown stats)).
  { intros node. unfold countNode. destruct (type node); [destruct (metadata node)|];
      reflexivity. }
  destruct ty; [apply Hnode|].
  destruct ch as [cs|]; [|apply Hnode].
  specialize (IH cs eq_refl). rewrite <- (Hnode (mkNode i nm directory p rp md (Some cs))).
  generalize (countNode (mkNode i nm directory p rp md (Some cs)) stats).
  induction cs as [|c cs IHcs]; intros s; simpl; [reflexivity|].
  apply Forall_cons in IH. destruct IH as [Hc Hcs].
  rewrite (IHcs Hcs). apply Hc.
Qed.

Lemma calculateMetrics_counts (tree : FileTreeNode) :
  totalFiles (calculateMetrics tree) = totalFiles (traverseAndCount tree initialStatistics)
  /\ totalDirectories (calculateMetrics tree)
     = totalDirectories (traverseAndCount tree initialStatistics)
  /\ totalLines (calculateMetrics tree) = totalLines (traverseAndCount tree initialStatistics)
  /\ languageBreakdown (calculateMetrics tree)
     = languageBreakdown (traverseAndCount tree initialStatistics)
  /\ totalSize (sizeBreakdown (calculateMetrics tree))
     = totalSize (sizeBreakdown (traverseAndCount tree initialStatistics)).
Proof.
  unfold calculateMetrics.
  destruct (0 <? totalFiles (traverseAndCount tree initialStatistics)); simpl; auto.
Qed.

(** X1.  For every tree [buildFileTree] returns, the totals of
    [calculateMetrics] are those of the list [flattenTree] returns: the
    number of files is its length, the lines and the bytes are the sums over
    its nodes. *)
Theorem X1_metrics_agree_with_flattenTree
  (localeCompare : string -> string -> Z)
  (root : Fs.Entry) (rootPath : string) (options : Options) (st st' : nat)
  (tree : FileTreeNode)
  (Hbuild : buildFileTree localeCompare root rootPath options st = (Js.Ok tree, st')) :
  totalFiles (calculateMetrics tree) = Z.of_nat (length (flattenTree tree))
  /\ totalLines (calculateMetrics tree) = total linesOf (flattenTree tree)
  /\ totalSize (sizeBreakdown (calculateMetrics tree)) = total sizeOf (flattenTree tree).
Proof.
  pose proof (buildFileTree_leaves _ _ _ _ _ _ _ Hbuild) as Hleaf.
  destruct (calculateMetrics_counts tree) as (E1 & _ & E3 & _ & E5).
  rewrite E1, E3, E5. rewrite (traverse_is_fold tree Hleaf).
  destruct (fold_countNode (nodes tree) initialStatistics) as (F1 & _ & F3 & F4 & _).
  rewrite F1, F3, F4. unfold flattenTree, isFileNode. simpl. auto.
Qed.

(** X1 on the fixture. *)
Lemma X1_witness :
  totalFiles (calculateMetrics (builtTree fixtureRepo "/tmp/repo")) = 2
  /\ totalLines (calculateMetrics (builtTree fixtureRepo "/tmp/repo"))
     = total linesOf (flattenTree (builtTree fixtureRepo "/tmp/repo"))
  /\ totalSize (sizeBreakdown (calculateMetrics (builtTree fixtureRepo "/tmp/repo")))
     = total sizeOf (flattenTree (builtTree fixtureRepo "/tmp/repo")).
Proof.
  refine (X1_metrics_agree_with_flattenTree asciiCollation fixtureRepo "/tmp/repo"
            fixtureOptions 0%nat _ (builtTree fixtureRepo "/tmp/repo") _).
  vm_compute. reflexivity.
Defined.

(** X2.  For every tree [buildFileTree] returns, [calculateMetrics] counts
    each node once: the directories it reports are the directory nodes, the
    root among them, and files and directories together are the nodes of
    the tree. *)
Theorem X2_every_node_is_counted_once
  (localeCompare : string -> string -> Z)
  (root : Fs.Entry) (rootPath : string) (options : Options) (st st' : nat)
  (tree : FileTreeNode)
  (Hbuild : buildFileTree localeCompare root rootPath options st = (Js.Ok tree, st')) :
  totalDirectories (calculateMetrics tree)
  = Z.of_nat (length (List.filter isDirectory (nodes tree)))
  /\ 1 <= totalDirectories (calculateMetrics tree)
  /\ totalFiles (calculateMetrics tree) + totalDirectories (calculateMetrics tree)
     = Z.of_nat (length (nodes tree)).
Proof.
  pose proof (buildFileTree_leaves _ _ _ _ _ _ _ Hbuild) as Hleaf.
  destruct (calculateMetrics_counts tree) as (E1 & E2 & _).
  rewrite E1, E2. rewrite (traverse_is_fold tree Hleaf).
  destruct (fold_countNode (nodes tree) initialStatistics) as (F1 & F2 & _).
  rewrite F1, F2. simpl.
  assert (Hroot : type tree = directory).
  { revert Hbuild. unfold buildFileTree.
    destruct (buildTreeRecursive _ _ _ _ _ _) as [[inner|msg] s1]; [|discriminate].
    intros H. injection H as <- _. reflexivity. }
  split; [reflexivity|]. split.
  - rewrite nodes_unfold. unfold isDirectory at 1. simpl. rewrite Hroot. simpl. lia.
  - generalize (nodes tree). intros l. unfold isFileNode, isDirectory.
    induction l as [|n l IH]; simpl; [reflexivity|].
    destruct (type n); simpl; lia.
Qed.

(** X2 on the fixture. *)
Lemma X2_witness :
  totalDirectories (calculateMetrics (builtTree fixtureRepo "/tmp/repo")) = 2
  /\ 1 <= totalDirectories (calculateMetrics (builtTree fixtureRepo "/tmp/repo"))
  /\ totalFiles (calculateMetrics (builtTree fixtureRepo "/tmp/repo"))
     + totalDirectories (calculateMetrics (builtTree fixtureRepo "/tmp/repo"))
     = 4.
Proof.
  refine (X2_every_node_is_counted_once asciiCollation fixtureRepo "/tmp/repo"
            fixtureOptions 0%nat _ (builtTree fixtureRepo "/tmp/repo") _).
  vm_compute. reflexivity.
Defined.

(** X3.  For every tree [buildFileTree] returns, the counts of
    [languageBreakdown] add up to the number of file nodes that carry
    metadata, which is at most [totalFiles]. *)
Theorem X3_language_counts_add_up
  (localeCompare : string -> string -> Z)
  (root : Fs.Entry) (rootPath : string) (options : Options) (st st' : nat)
  (tree : FileTreeNode)
  (Hbuild : buildFileTree localeCompare root rootPath options st = (Js.Ok tree, st')) :
  sumOfCounts (languageBreakdown (calculateMetrics tree))
  = Z.of_nat (length (List.filter hasMetadata (flattenTree tree)))
  /\ sumOfCounts (languageBreakdown (calculateMetrics tree))
     <= totalFiles (calculateMetrics tree).
Proof.
  pose proof (buildFileTree_leaves _ _ _ _ _ _ _ Hbuild) as Hleaf.
  destruct (calculateMetrics_counts tree) as (E1 & _ & _ & E4 & _).
  rewrite E1, E4. rewrite (traverse_is_fold tree Hleaf).
  destruct (fold_countNode (nodes tree) initialStatistics) as (F1 & _ & _ & _ & _ & F6).
  rewrite F1, F6. unfold flattenTree, isFileNode. simpl.
  change (sumOfCounts ∅) with 0.
  split; [reflexivity|].
  generalize (List.filter (fun n => NodeType_eqb (type n) file) (nodes tree)). intros l.
  induction l as [|n l IH]; simpl; [lia|].
  destruct (hasMetadata n); simpl; lia.
Qed.

(** X3 on the fixture. *)
Lemma X3_witness :
  sumOfCounts (languageBreakdown (calculateMetrics (builtTree fixtureRepo "/tmp/repo"))) = 2
  /\ sumOfCounts (languageBreakdown (calculateMetrics (builtTree fixtureRepo "/tmp/repo")))
     <= totalFiles (calculateMetrics (builtTree fixtureRepo "/tmp/repo")).
Proof.
  refine (X3_language_counts_add_up asciiCollation fixtureRepo "/tmp/repo"
            fixtureOptions 0%nat _ (builtTree fixtureRepo "/tmp/repo") _).
  vm_compute. reflexivity.
Defined.

(** X4.  [calculateMetrics] never yields a NaN or an infinity for
    [averageFileSize]: it is 0 for a tree in which it counts no file, and
    otherwise the mean of the sizes, rounded to the nearest integer. *)
Theorem X4_average_is_the_rounded_mean (tree : FileTreeNode) :
  exists q,
    averageFileSize (sizeBreakdown (calculateMetrics tree)) = Js.Num q
    /\ (totalFiles (calculateMetrics tree) <= 0 -> q = 0)
    /\ (0 < totalFiles (calculateMetrics tree) ->
        let files := totalFiles (calculateMetrics tree) in
        let bytes := totalSize (sizeBreakdown (calculateMetrics tree)) in
        - files <= 2 * bytes - 2 * q * files < files).
Proof.
  unfold calculateMetrics.
  destruct (0 <? totalFiles (traverseAndCount tree initialStatistics)) eqn:Hpos.
  - apply Z.ltb_lt in Hpos. simpl. unfold Js.round_div.
    destruct (Z.eqb_spec (totalFiles (traverseAndCount tree initialStatistics)) 0) as [E|_];
      [lia|].
    eexists. split; [reflexivity|]. split; [lia|]. intros _.
    set (b := totalFiles (traverseAndCount tree initialStatistics)) in *.
    set (a := totalSize (sizeBreakdown (traverseAndCount tree initialStatistics))).
    pose proof (Z.div_mod (2 * a + b) (2 * b) ltac:(lia)) as Hdm.
    pose proof (Z.mod_pos_bound (2 * a + b) (2 * b) ltac:(lia)) as Hb.
    nia.
  - apply Z.ltb_ge in Hpos. exists 0. rewrite traverse_keeps_average. simpl.
    split; [reflexivity|]. split; [reflexivity|]. lia.
Qed.

End MetricsOfBuiltTrees.

Section FilteredTrees.
Import TreeBuilder.



End FilteredTrees.

Section FilteredTreesExample.
Import TreeBuilder.


End FilteredTreesExample.

Section UnusedOption.
Import TreeBuilder.

Variable localeCompare : string -> string -> Z.

Lemma dropped_ignores_excludePatterns (ex ex' : option (list string))
  (maxKB : option Z) (tests : option bool) (n : FileTreeNode) :
  dropped (mkOptions ex maxKB tests) n = dropped (mkOptions ex' maxKB tests) n.
Proof. reflexivity. Qed.

Lemma buildTreeRecursive_ignores_excludePatterns (ex ex' : option (list string))
  (maxKB : option Z) (tests : option bool) (e : Fs.Entry) :
  forall (currentPath rootPath : string) (st : nat),
    buildTreeRecursive localeCompare e currentPath rootPath (mkOptions ex maxKB tests) st
    = buildTreeRecursive localeCompare e currentPath rootPath (mkOptions ex' maxKB tests) st.
Proof.
  induction e as [n sz mt c|n|n es IHes|n|n] using Entry_nested_ind;
    intros currentPath rootPath st; try reflexivity.
  simpl. destruct (shouldSkipDirectory (Js.basename currentPath)); [reflexivity|].
  match goal with
  | |- (let '(_, _) := ?l1 es _ in _) = (let '(_, _) := ?l2 es _ in _) =>
      assert (Hwalk : forall entries s,
                 Forall (fun e => forall currentPath rootPath st,
                           buildTreeRecursive localeCompare e currentPath rootPath
                             (mkOptions ex maxKB tests) st
                           = buildTreeRecursive localeCompare e currentPath rootPath
                               (mkOptions ex' maxKB tests) st) entries ->
                 l1 entries s = l2 entries s)
  end.
  { intros entries. induction entries as [|entry rest IHrest]; intros s HF; [reflexivity|].
    apply Forall_cons in HF. destruct HF as [He Hrest].
    simpl. rewrite He.
    destruct (buildTreeRecursive localeCompare entry _ rootPath _ s) as [r s1].
    rewrite (IHrest s1 Hrest). reflexivity. }
  rewrite (Hwalk es (S st) IHes). reflexivity.
Qed.

End UnusedOption.

Section UnusedOptionClaim.
Import TreeBuilder.

(** X6.  [buildFileTree] accepts [excludePatterns] and never reads it: two
    calls that differ in that option only give the same result. *)
Theorem X6_excludePatterns_is_never_read
  (localeCompare : string -> string -> Z)
  (ex ex' : option (list string)) (maxKB : option Z) (tests : option bool)
  (root : Fs.Entry) (rootPath : string) (st : nat) :
  buildFileTree localeCompare root rootPath (mkOptions ex maxKB tests) st
  = buildFileTree localeCompare root rootPath (mkOptions ex' maxKB tests) st.
Proof.
  unfold buildFileTree.
  rewrite (buildTreeRecursive_ignores_excludePatterns localeCompare ex ex').
  reflexivity.
Qed.

(** X7.  When the path given to [buildFileTree] is a regular file, the
    result is no error and no file node: it is a directory node without
    children, in which [flattenTree] finds no file and [calculateMetrics]
    counts one directory. *)
Theorem X7_a_file_as_root_is_an_empty_directory
  (localeCompare : string -> string -> Z)
  (n : string) (sz mt : Z) (content : option string)
  (rootPath : string) (options : Options) (st : nat) :
  exists tree,
    buildFileTree localeCompare (Fs.File n sz mt content) rootPath options st
    = (Js.Ok tree, S (S st))
    /\ type tree = directory /\ children tree = None
    /\ flattenTree tree = []
    /\ Metrics.totalFiles (Metrics.calculateMetrics tree) = 0
    /\ Metrics.totalDirectories (Metrics.calculateMetrics tree) = 1.
Proof.
  eexists. split; [reflexivity|]. simpl. repeat split; reflexivity.
Qed.

End UnusedOptionClaim.

Section NodeIds.
Import TreeBuilder.

Variable localeCompare : string -> string -> Z.

Lemma insert_Permutation (x : FileTreeNode) (l : list FileTreeNode) :
  Permutation (insert localeCompare x l) (x :: l).
Proof.
  induction l as [|y l IH]; simpl; [reflexivity|].
  destruct (compareNodes localeCompare x y <=? 0); [reflexivity|].
  rewrite IH. apply perm_swap.
Qed.

Lemma sort_Permutation (l : list FileTreeNode) : Permutation (sort localeCompare l) l.
Proof.
  induction l as [|x l IH]; simpl; [reflexivity|].
  rewrite insert_Permutation. constructor. exact IH.
Qed.

Lemma freshIds_app (lo mid hi : nat) (l1 l2 : list FileTreeNode) :
  (lo <= mid)%nat -> (mid <= hi)%nat ->
  freshIds lo mid l1 -> freshIds mid hi l2 -> freshIds lo hi (l1 ++ l2).
Proof.
  intros Hlo Hhi [F1 N1] [F2 N2]. split.
  - apply Forall_app. split.
    + eapply Forall_impl; [exact F1|]. simpl. intros; lia.
    + eapply Forall_impl; [exact F2|]. simpl. intros; lia.
  - rewrite map_app. apply NoDup_app. split; [exact N1|]. split; [|exact N2].
    intros i H1 H2.
    apply list_elem_of_In, in_map_iff in H1. destruct H1 as (m1 & <- & Hm1).
    apply list_elem_of_In, in_map_iff in H2. destruct H2 as (m2 & E & Hm2).
    rewrite Forall_forall in F1, F2.
    apply list_elem_of_In in Hm1, Hm2.
    specialize (F1 _ Hm1). specialize (F2 _ Hm2). lia.
Qed.

Lemma freshIds_weaken (lo lo' hi hi' : nat) (l : list FileTreeNode) :
  (lo' <= lo)%nat -> (hi <= hi')%nat -> freshIds lo hi l -> freshIds lo' hi' l.
Proof.
  intros H1 H2 [F N]. split; [|exact N].
  eapply Forall_impl; [exact F|]. simpl. intros; lia.
Qed.

Lemma freshIds_Permutation (lo hi : nat) (l l' : list FileTreeNode) :
  Permutation l l' -> freshIds lo hi l -> freshIds lo hi l'.
Proof.
  intros HP [F N]. split.
  - eapply Permutation_Forall; [exact HP|exact F].
  - assert (Hp : Permutation (map id l) (map id l')) by (apply Permutation_map; exact HP).
    rewrite <- Hp. exact N.
Qed.

Lemma freshIds_node (st st' : nat) (n : FileTreeNode) :
  id n = st -> (st < st')%nat -> freshIds (S st) st' (descendants n) ->
  freshIds st st' (nodes n).
Proof.
  intros Hid Hlt [F N]. rewrite nodes_unfold. split.
  - constructor; [lia|]. eapply Forall_impl; [exact F|]. simpl. intros; lia.
  - simpl. constructor; [|exact N].
    intros Hin. apply list_elem_of_In, in_map_iff in Hin. destruct Hin as (m & E & Hm).
    rewrite Forall_forall in F. apply list_elem_of_In in Hm. specialize (F _ Hm). lia.
Qed.

Lemma buildTreeRecursive_ids (options : Options) (e : Fs.Entry) :
  forall (currentPath rootPath : string) (st st' : nat) (r : Js.Result FileTreeNode),
    buildTreeRecursive localeCompare e currentPath rootPath options st = (r, st') ->
    (st <= st')%nat
    /\ forall node, r = Js.Ok node ->
         id node = st /\ (st < st')%nat /\ freshIds (S st) st' (descendants node).
Proof.
  assert (Hnone : forall lo hi, freshIds lo hi []).
  { intros. split; constructor. }
  induction e as [n sz mt c|n|n es IHes|n|n] using Entry_nested_ind;
    intros currentPath rootPath st st' r Hb.
  - simpl in Hb. injection Hb as <- <-. split; [lia|].
    intros node H. injection H as <-. simpl. auto.
  - simpl in Hb. destruct (shouldSkipDirectory (Js.basename currentPath)).
    + injection Hb as <- <-. split; [lia|]. intros node H. injection H as <-. simpl. auto.
    + injection Hb as <- <-. split; [lia|]. intros node H. discriminate.
  - simpl in Hb.
    destruct (shouldSkipDirectory (Js.basename currentPath)) eqn:Hskip.
    { injection Hb as <- <-. split; [lia|]. intros node H. injection H as <-. simpl. auto. }
    match type of Hb with
    | (let '(children, st0) := ?loop es (S st) in _) = _ =>
        set (walk := loop) in Hb
    end.
    assert (Hwalk : forall entries s, Forall
              (fun e => forall currentPath rootPath st st' r,
                 buildTreeRecursive localeCompare e currentPath rootPath options st
                 = (r, st') ->
                 (st <= st')%nat
                 /\ forall node, r = Js.Ok node ->
                      id node = st /\ (st < st')%nat
                      /\ freshIds (S st) st' (descendants node)) entries ->
              (s <= (walk entries s).2)%nat
              /\ freshIds s (walk entries s).2 (flat_map nodes (walk entries s).1)).
    { intros entries. induction entries as [|entry rest IHrest]; intros s HF.
      - simpl. split; [lia|apply Hnone].
      - apply Forall_cons in HF. destruct HF as [He Hrest].
        simpl.
        destruct (buildTreeRecursive localeCompare entry
                    (Js.join currentPath (Fs.name entry)) rootPath options s)
          as [r0 s1] eqn:Hr.
        specialize (IHrest s1 Hrest).
        destruct (He _ _ _ _ _ Hr) as [Hle Hnode].
        destruct (walk rest s1) as [more s2] eqn:Hmore. simpl in IHrest.
        destruct IHrest as [Hle2 Hfresh].
        assert (Hmore' : (s <= s2)%nat /\ freshIds s s2 (flat_map nodes more)).
        { split; [lia|]. eapply freshIds_weaken; [| |exact Hfresh]; lia. }
        destruct r0 as [childNode|msg]; simpl; [|exact Hmore'].
        destruct (dropped options childNode); simpl; [exact Hmore'|].
        split; [lia|].
        destruct (Hnode childNode eq_refl) as (Hid & Hlt & Hdesc).
        apply (freshIds_app s s1 s2); [lia|lia| |exact Hfresh].
        apply freshIds_node; assumption. }
    specialize (Hwalk es (S st) IHes).
    destruct (walk es (S st)) as [kept s'] eqn:Hkept. simpl in Hwalk.
    destruct Hwalk as [Hle Hfresh].
    injection Hb as <- <-. split; [lia|].
    intros node H. injection H as <-. simpl. split; [reflexivity|]. split; [lia|].
    unfold descendants. simpl.
    eapply freshIds_Permutation; [|exact Hfresh].
    apply Permutation_flat_map. symmetry. apply sort_Permutation.
  - simpl in Hb. injection Hb as <- <-. split; [lia|].
    intros node H. injection H as <-. simpl. auto.
  - simpl in Hb. injection Hb as <- <-. split; [lia|]. intros node H. discriminate.
Qed.

End NodeIds.

Section NodeIdsClaim.
Import TreeBuilder.

(** X8.  [generateId] is called once for each node, and a second time for
    the root: with a source of identifiers that never repeats, the nodes of
    a tree that [buildFileTree] returns have identifiers that differ from
    one another, all of them drawn during the call, the root's last. *)
Theorem X8_node_ids_are_distinct
  (localeCompare : string -> string -> Z)
  (root : Fs.Entry) (rootPath : string) (options : Options) (st st' : nat)
  (tree : FileTreeNode)
  (Hbuild : buildFileTree localeCompare root rootPath options st = (Js.Ok tree, st')) :
  NoDup (map id (nodes tree))
  /\ Forall (fun n => (st <= id n < st')%nat) (nodes tree)
  /\ S (id tree) = st'.
Proof.
  revert Hbuild. unfold buildFileTree.
  destruct (buildTreeRecursive localeCompare root rootPath rootPath options st)
    as [[inner|msg] s1] eqn:Hb; [|discriminate].
  intros H. injection H as <- <-.
  destruct (buildTreeRecursive_ids localeCompare options root _ _ _ _ _ Hb) as [Hle Hnode].
  destruct (Hnode inner eq_refl) as (Hid & Hlt & [F N]).
  rewrite nodes_unfold. unfold descendants in *. simpl.
  split; [|split; [|reflexivity]].
  - constructor; [|exact N].
    intros Hin. apply list_elem_of_In, in_map_iff in Hin. destruct Hin as (m & E & Hm).
    rewrite Forall_forall in F. apply list_elem_of_In in Hm. specialize (F _ Hm). lia.
  - constructor; [simpl; lia|]. eapply Forall_impl; [exact F|]. simpl. intros; lia.
Qed.

(** X8 on the fixture. *)
Lemma X8_witness :
  NoDup (map id (nodes (builtTree fixtureRepo "/tmp/repo")))
  /\ Forall (fun n => (0 <= id n < 5)%nat) (nodes (builtTree fixtureRepo "/tmp/repo"))
  /\ S (id (builtTree fixtureRepo "/tmp/repo")) = 5%nat.
Proof.
  refine (X8_node_ids_are_distinct asciiCollation fixtureRepo "/tmp/repo"
            fixtureOptions 0%nat _ (builtTree fixtureRepo "/tmp/repo") _).
  vm_compute. reflexivity.
Defined.

End NodeIdsClaim.

(** ** The depth of a tree *)

Section TreeDepth.
Import TreeBuilder.








End TreeDepth.

(** ** lib/utils: path sanitising, chunks, retries *)

Section SanitizeFilePath.

Lemma replace_pair_cons2 (x y : ascii) (by_ : list ascii) (a b : ascii) (r : list ascii) :
  Js.replace_pair x y by_ (a :: b :: r)
  = if Ascii.eqb a x && Ascii.eqb b y then (by_ ++ Js.replace_pair x y by_ r)%list
    else a :: Js.replace_pair x y by_ (b :: r).
Proof. reflexivity. Qed.

Lemma replace_pair_head (x y c : ascii) (by_ l : list ascii) :
  (forall b, head by_ = Some b -> b <> c) ->
  (by_ = [] -> x = c) ->
  head (Js.replace_pair x y by_ l) = Some c -> head l = Some c.
Proof.
  intros Hby Hnil. destruct l as [|a [|b r]]; simpl; try (intros H; exact H).
  destruct (Ascii.eqb_spec a x) as [->|Hax]; simpl; [|intros H; exact H].
  destruct (Ascii.eqb_spec b y) as [->|Hby']; simpl; [|intros H; exact H].
  destruct by_ as [|b0 by_']; simpl.
  - intros _. rewrite (Hnil eq_refl). reflexivity.
  - intros H. injection H as ->. exfalso. apply (Hby c eq_refl). reflexivity.
Qed.

Lemma starts_with_nil (l : list ascii) : Js.starts_with [] l = true.
Proof. destruct l; reflexivity. Qed.

Lemma includes_dots_cons (a : ascii) (l : list ascii) :
  Js.includes_chars (a :: l) [Js.dot; Js.dot] = false
  <-> (a = Js.dot -> head l <> Some Js.dot) /\ Js.includes_chars l [Js.dot; Js.dot] = false.
Proof.
  cbn [Js.includes_chars]. rewrite orb_false_iff.
  assert (E : Js.starts_with [Js.dot; Js.dot] (a :: l) = false
              <-> (a = Js.dot -> head l <> Some Js.dot)).
  { cbn [Js.starts_with].
    destruct (Ascii.eqb Js.dot a) eqn:Ha; cbn [andb].
    - apply Ascii.eqb_eq in Ha. subst a.
      destruct l as [|b l']; cbn [head].
      + split; [intros _ _; discriminate|reflexivity].
      + rewrite ?starts_with_nil, ?andb_true_r.
        destruct (Ascii.eqb Js.dot b) eqn:Hb.
        * apply Ascii.eqb_eq in Hb. subst b.
          split; [discriminate|]. intros H. exfalso. apply H; reflexivity.
        * apply Ascii.eqb_neq in Hb.
          split; [|reflexivity]. intros _ _ H. injection H as H. congruence.
    - apply Ascii.eqb_neq in Ha. split; [|reflexivity]. intros _ H. congruence. }
  rewrite E. reflexivity.
Qed.

Lemma includes_dots_tail (a : ascii) (l : list ascii) :
  Js.includes_chars (a :: l) [Js.dot; Js.dot] = false ->
  Js.includes_chars l [Js.dot; Js.dot] = false.
Proof. intros H. apply includes_dots_cons in H. apply H. Qed.

(** After the first replacement no two dots are adjacent. *)
Lemma dots_removed (n : nat) :
  forall l, (length l <= n)%nat ->
    Js.includes_chars (Js.replace_pair Js.dot Js.dot [] l) [Js.dot; Js.dot] = false.
Proof.
  induction n as [|n IH]; intros l Hlen.
  - destruct l; [reflexivity|simpl in Hlen; lia].
  - destruct l as [|a [|b r]]; [reflexivity| |].
    { cbn [Js.replace_pair]. apply includes_dots_cons.
      split; [intros _; discriminate|reflexivity]. }
    rewrite replace_pair_cons2.
    destruct (Ascii.eqb a Js.dot && Ascii.eqb b Js.dot) eqn:Hab.
    + simpl. apply IH. simpl in Hlen. lia.
    + apply includes_dots_cons. split; [|apply IH; simpl in *; lia].
      intros -> Hhead.
      apply (replace_pair_head Js.dot Js.dot Js.dot [] (b :: r)) in Hhead;
        [|discriminate|reflexivity].
      injection Hhead as ->. discriminate.
Qed.

(** The second replacement makes no two dots adjacent. *)
Lemma slashes_keep_dots_apart (n : nat) :
  forall l, (length l <= n)%nat ->
    Js.includes_chars l [Js.dot; Js.dot] = false ->
    Js.includes_chars (Js.replace_pair Js.slash Js.slash [Js.slash] l) [Js.dot; Js.dot]
    = false.
Proof.
  induction n as [|n IH]; intros l Hlen Hl.
  - destruct l; [reflexivity|simpl in Hlen; lia].
  - destruct l as [|a [|b r]]; [reflexivity| |].
    { cbn [Js.replace_pair]. exact Hl. }
    rewrite replace_pair_cons2.
    destruct (Ascii.eqb a Js.slash && Ascii.eqb b Js.slash) eqn:Hab.
    + cbn [app]. apply includes_dots_cons. split; [discriminate|].
      apply IH; [simpl in *; lia|].
      apply includes_dots_tail in Hl. apply includes_dots_tail in Hl. exact Hl.
    + apply includes_dots_cons. split.
      * intros -> Hhead.
        apply (replace_pair_head Js.slash Js.slash Js.dot [Js.slash] (b :: r)) in Hhead.
        -- injection Hhead as ->. apply includes_dots_cons in Hl.
           destruct Hl as [Hl _]. apply (Hl eq_refl). reflexivity.
        -- intros b0 H. injection H as <-. discriminate.
        -- discriminate.
      * apply IH; [simpl in *; lia|]. apply includes_dots_tail in Hl. exact Hl.
Qed.

Lemma chars_str (l : list ascii) : Js.chars (Js.str l) = l.
Proof. apply list_ascii_of_string_of_list_ascii. Qed.

(** X10.  Whatever path it is given, [sanitizeFilePath] returns one
    without two adjacent dots: no [..] segment survives it. *)
Theorem X10_sanitizeFilePath_leaves_no_dot_dot (filePath : string) :
  Js.includes (Utils.sanitizeFilePath filePath) ".." = false.
Proof.
  unfold Js.includes, Utils.sanitizeFilePath. rewrite chars_str.
  apply (slashes_keep_dots_apart _ _ (Nat.le_refl _)).
  apply (dots_removed _ _ (Nat.le_refl _)).
Qed.

(** X11.  [sanitizeFilePath] does not always leave single slashes: the
    second replacement halves a run of slashes once, so a run of three or
    more leaves a double slash behind, whatever follows the run. *)
Theorem X11_sanitizeFilePath_can_leave_a_double_slash (rest : string) :
  Js.startsWith (Utils.sanitizeFilePath ("///" ++ rest)) "//" = true.
Proof.
  unfold Js.startsWith, Utils.sanitizeFilePath. rewrite chars_str.
  change (Js.chars ("///" ++ rest)) with (Js.slash :: Js.slash :: Js.slash :: Js.chars rest).
  assert (Hd : Ascii.eqb Js.slash Js.dot = false) by reflexivity.
  assert (Hs : Ascii.eqb Js.slash Js.slash = true) by reflexivity.
  assert (Hkeep : forall k, Js.replace_pair Js.dot Js.dot [] (Js.slash :: k)
                            = Js.slash :: Js.replace_pair Js.dot Js.dot [] k).
  { intros [|b k]; [reflexivity|]. rewrite replace_pair_cons2, Hd. reflexivity. }
  rewrite !Hkeep.
  generalize (Js.replace_pair Js.dot Js.dot [] (Js.chars rest)). intros l.
  rewrite replace_pair_cons2, Hs. cbn [andb app].
  assert (Hhead : forall k, exists k', Js.replace_pair Js.slash Js.slash [Js.slash]
                                         (Js.slash :: k) = Js.slash :: k').
  { intros [|b k]; [eexists; reflexivity|]. rewrite replace_pair_cons2, Hs. cbn [andb].
    destruct (Ascii.eqb b Js.slash); eexists; reflexivity. }
  destruct (Hhead l) as [k' ->]. reflexivity.
Qed.

End SanitizeFilePath.

Section Chunk.

Context {T : Type}.

Lemma slice_take (array : list T) (k : nat) (size : Z) :
  0 < size -> (k < length array)%nat ->
  Js.slice array (Z.of_nat k) (Z.of_nat k + size) = take (Z.to_nat size) (drop k array).
Proof.
  intros Hsize Hk. unfold Js.slice, Js.relative_index.
  destruct (Z.ltb_spec (Z.of_nat k) 0) as [H|_]; [lia|].
  destruct (Z.ltb_spec (Z.of_nat k + size) 0) as [H|_]; [lia|].
  rewrite (Z.min_l (Z.of_nat k)) by lia. rewrite Nat2Z.id.
  destruct (Z.le_gt_cases (Z.of_nat k + size) (Z.of_nat (length array))) as [Hle|Hgt].
  - rewrite Z.min_l by lia. f_equal. lia.
  - rewrite Z.min_r by lia.
    rewrite !take_ge; try reflexivity; rewrite length_drop; lia.
Qed.

Lemma chunk_loop_ends (array : list T) (size : Z) (Hsize : 0 < size) (fuel : nat) :
  forall k : nat,
    (length array - k <= fuel)%nat ->
    exists chunks,
      Utils.chunk_loop fuel array size (Z.of_nat k) = Some chunks
      /\ concat chunks = drop k array
      /\ Forall (fun c => 0 < Z.of_nat (length c) <= size) chunks
      /\ Z.of_nat (length chunks) * size < Z.of_nat (length array - k) + size.
Proof.
  induction fuel as [|fuel IH]; intros k Hfuel.
  - exists []. simpl.
    destruct (Z.ltb_spec (Z.of_nat k) (Z.of_nat (length array))) as [H|H]; [lia|].
    split; [reflexivity|]. split; [rewrite drop_ge by lia; reflexivity|].
    split; [constructor|]. simpl. lia.
  - simpl.
    destruct (Z.ltb_spec (Z.of_nat k) (Z.of_nat (length array))) as [H|H].
    + replace (Z.of_nat k + size) with (Z.of_nat (k + Z.to_nat size)) by lia.
      destruct (IH (k + Z.to_nat size)%nat ltac:(lia)) as (chunks & -> & Hcat & Hall & Hn).
      eexists. split; [reflexivity|].
      replace (Z.of_nat (k + Z.to_nat size)) with (Z.of_nat k + size) by lia.
      rewrite slice_take by lia.
      split; [|split].
      * simpl. rewrite Hcat. rewrite <- drop_drop. apply take_drop.
      * constructor; [|exact Hall]. rewrite length_take, length_drop. lia.
      * simpl length. rewrite Nat2Z.inj_succ, Z.mul_succ_l.
        assert (Hz : Z.of_nat (length chunks) = 0 \/ 1 <= Z.of_nat (length chunks)) by lia.
        destruct Hz as [Hz|Hz]; [rewrite Hz in *; lia|nia].
    + exists []. split; [reflexivity|]. split; [rewrite drop_ge by lia; reflexivity|].
      split; [constructor|]. simpl. lia.
Qed.

Lemma chunk_loop_never_ends (array : list T) (size : Z) (Hsize : size <= 0) (fuel : nat) :
  forall i, i < Z.of_nat (length array) -> Utils.chunk_loop fuel array size i = None.
Proof.
  induction fuel as [|fuel IH]; intros i Hi; simpl.
  - destruct (Z.ltb_spec i (Z.of_nat (length array))); [reflexivity|lia].
  - destruct (Z.ltb_spec i (Z.of_nat (length array))); [|lia].
    rewrite IH by lia. reflexivity.
Qed.

End Chunk.

Section ChunkClaims.

(** X12.  For a positive integral [size], [chunk] ends after at most one
    iteration for each element, and its chunks are the array cut in order:
    their concatenation is the array, none is empty, none is longer than
    [size], and there are no more of them than the length asks for. *)
Theorem X12_chunk_cuts_the_array {T : Type} (array : list T) (size : Z) (fuel : nat)
  (Hsize : 0 < size) (Hfuel : (length array <= fuel)%nat) :
  exists chunks,
    Utils.chunk fuel array size = Some chunks
    /\ concat chunks = array
    /\ Forall (fun c => 0 < Z.of_nat (length c) <= size) chunks
    /\ Z.of_nat (length chunks) * size < Z.of_nat (length array) + size.
Proof.
  destruct (chunk_loop_ends array size Hsize fuel 0%nat ltac:(lia))
    as (chunks & E & Hcat & Hall & Hn).
  exists chunks. unfold Utils.chunk. rewrite Nat.sub_0_r in Hn. auto.
Qed.

(** X12 on five elements cut by two. *)
Lemma X12_witness :
  exists chunks,
    Utils.chunk 5 [1; 2; 3; 4; 5] 2 = Some chunks
    /\ concat chunks = [1; 2; 3; 4; 5]
    /\ Forall (fun c => 0 < Z.of_nat (length c) <= 2) chunks
    /\ Z.of_nat (length chunks) * 2 < Z.of_nat (length [1; 2; 3; 4; 5]) + 2.
Proof.
  apply (X12_chunk_cuts_the_array [1; 2; 3; 4; 5] 2 5); [lia|simpl; lia].
Defined.

(** X13.  With a [size] of 0 or less, [chunk] does not end on an array
    that has an element: the index of its loop never reaches the length. *)
Theorem X13_chunk_needs_a_positive_size {T : Type} (array : list T) (size : Z)
  (fuel : nat) (Hsize : size <= 0) (Harray : array <> []) :
  Utils.chunk fuel array size = None.
Proof.
  apply chunk_loop_never_ends; [exact Hsize|].
  destruct array; [contradiction|simpl; lia].
Qed.

(** X13 on one element and size 0, after a thousand iterations. *)
Lemma X13_witness : Utils.chunk 1000 [1] 0 = None.
Proof.
  apply (X13_chunk_needs_a_positive_size [1] 0 1000); [lia|discriminate].
Defined.

End ChunkClaims.

Section RetryProofs.

Context {T : Type}.
Variable fn : nat -> Js.Result T.

Lemma backoffWaits_snoc (delay backoff : Z) (n : nat) :
  backoffWaits delay backoff (S n)
  = (backoffWaits delay backoff n ++ [delay * backoff ^ Z.of_nat n])%list.
Proof. unfold backoffWaits. rewrite seq_S, map_app. reflexivity. Qed.

Lemma retry_loop_S (maxAttempts delay backoff : Z) (remaining attempt : nat)
  (lastError : option string) (slept : list Z) :
  Utils.retry_loop fn maxAttempts delay backoff (S remaining) attempt lastError slept
  = match fn attempt with
    | Js.Ok value => Utils.mkRetryRun (Utils.Resolved value) slept attempt
    | Js.Throw error =>
        Utils.retry_loop fn maxAttempts delay backoff remaining (S attempt) (Some error)
          (if Z.of_nat attempt <? maxAttempts
           then (slept ++ [delay * backoff ^ (Z.of_nat attempt - 1)])%list
           else slept)
    end.
Proof. reflexivity. Qed.

(** The loop from attempt [S done] on, after [done] failed attempts. *)
Lemma retry_loop_succeeds (maxAttempts delay backoff : Z) (k : nat) (value : T) :
  fn k = Js.Ok value ->
  forall (remaining done : nat) (lastError : option string),
    (done < k)%nat -> (k <= done + remaining)%nat ->
    Z.of_nat (done + remaining) = maxAttempts ->
    (forall j, (done < j < k)%nat -> exists error, fn j = Js.Throw error) ->
    Utils.retry_loop fn maxAttempts delay backoff remaining (S done) lastError
      (backoffWaits delay backoff done)
    = Utils.mkRetryRun (Utils.Resolved value) (backoffWaits delay backoff (k - 1)) k.
Proof.
  intros Hk. induction remaining as [|remaining IH]; intros done lastError Hlt Hle Hmax Hfail.
  - lia.
  - rewrite retry_loop_S. destruct (Nat.eq_dec (S done) k) as [E|E].
    + rewrite E, Hk. subst k. simpl. rewrite ?Nat.sub_0_r. reflexivity.
    + destruct (Hfail (S done) ltac:(lia)) as [error Herr]. rewrite Herr.
      destruct (Z.ltb_spec (Z.of_nat (S done)) maxAttempts) as [_|H]; [|lia].
      replace (Z.of_nat (S done) - 1) with (Z.of_nat done) by lia.
      rewrite <- backoffWaits_snoc.
      apply IH; try lia. intros j Hj. apply Hfail. lia.
Qed.

Lemma retry_loop_gives_up (maxAttempts delay backoff : Z) :
  forall (remaining done : nat) (lastError : option string) (error : string),
    Z.of_nat (done + S remaining) = maxAttempts ->
    (forall j, (done < j <= done + S remaining)%nat -> exists error, fn j = Js.Throw error) ->
    fn (done + S remaining)%nat = Js.Throw error ->
    Utils.retry_loop fn maxAttempts delay backoff (S remaining) (S done) lastError
      (backoffWaits delay backoff done)
    = Utils.mkRetryRun (Utils.Rejected (Some error))
        (backoffWaits delay backoff (done + remaining)) (done + S remaining).
Proof.
  induction remaining as [|remaining IH]; intros done lastError error Hmax Hfail Hlast.
  - rewrite retry_loop_S. rewrite Nat.add_1_r in Hlast. rewrite Hlast.
    destruct (Z.ltb_spec (Z.of_nat (S done)) maxAttempts) as [H|_]; [lia|].
    rewrite Nat.add_0_r, Nat.add_1_r. simpl. rewrite ?Nat.sub_0_r. reflexivity.
  - rewrite retry_loop_S.
    destruct (Hfail (S done) ltac:(lia)) as [error' Herr]. rewrite Herr.
    destruct (Z.ltb_spec (Z.of_nat (S done)) maxAttempts) as [_|H]; [|lia].
    replace (Z.of_nat (S done) - 1) with (Z.of_nat done) by lia.
    rewrite <- backoffWaits_snoc.
    rewrite (IH (S done) (Some error') error).
    + f_equal; [f_equal|]; lia.
    + lia.
    + intros j Hj. apply Hfail. lia.
    + rewrite <- Hlast. f_equal. lia.
Qed.

End RetryProofs.

Section RetryClaims.

(** X14.  [retry] resolves to the first success: when the attempts before
    the [k]-th reject and the [k]-th resolves, within [maxAttempts], [fn] is
    called [k] times, the result is the value of the [k]-th call, and
    between the calls it has slept [delay], [delay * backoff], ... , one
    wait for each failed attempt. *)
Theorem X14_retry_resolves_to_the_first_success {T : Type}
  (fn : nat -> Js.Result T) (options : Utils.RetryOptions) (k : nat) (value : T)
  (Hk : (1 <= k)%nat) (Hmax : Z.of_nat k <= attemptsOf options)
  (Hfail : forall j, (1 <= j < k)%nat -> exists error, fn j = Js.Throw error)
  (Hok : fn k = Js.Ok value) :
  Utils.retry fn options
  = Utils.mkRetryRun (Utils.Resolved value)
      (backoffWaits (delayOf options) (backoffOf options) (k - 1)) k.
Proof.
  unfold Utils.retry. fold (attemptsOf options) (delayOf options) (backoffOf options).
  apply (retry_loop_succeeds fn (attemptsOf options) (delayOf options) (backoffOf options)
           k value Hok (Z.to_nat (attemptsOf options)) 0%nat None); try lia.
  intros j Hj. apply Hfail. lia.
Qed.

(** X14 with the default options and a function that answers at its third
    call: the waits are 1000 and 2000. *)
Lemma X14_witness :
  Utils.retry thirdTimeLucky (Utils.mkRetryOptions None None None)
  = Utils.mkRetryRun (Utils.Resolved 7) [1000; 2000] 3.
Proof.
  apply (X14_retry_resolves_to_the_first_success thirdTimeLucky
           (Utils.mkRetryOptions None None None) 3 7).
  - lia.
  - vm_compute. discriminate.
  - intros [|[|[|j]]] Hj; try lia; eexists; reflexivity.
  - reflexivity.
Defined.

(** X15.  When every attempt rejects, [retry] calls [fn] [maxAttempts]
    times and rejects with the error of the last call; it sleeps between
    the attempts and not after the last.  With a [maxAttempts] of 0 or less
    it calls nothing and throws [undefined]. *)
Theorem X15_retry_gives_up_after_maxAttempts {T : Type}
  (fn : nat -> Js.Result T) (options : Utils.RetryOptions)
  (Hfail : forall j, (1 <= j)%nat -> Z.of_nat j <= attemptsOf options ->
                     exists error, fn j = Js.Throw error) :
  let n := Z.to_nat (attemptsOf options) in
  Utils.retry fn options
  = Utils.mkRetryRun
      (Utils.Rejected
         (match n with
          | O => None
          | S _ => match fn n with Js.Throw error => Some error | Js.Ok _ => None end
          end))
      (backoffWaits (delayOf options) (backoffOf options) (n - 1)) n.
Proof.
  cbv zeta. unfold Utils.retry.
  fold (attemptsOf options) (delayOf options) (backoffOf options).
  destruct (Z.to_nat (attemptsOf options)) as [|n] eqn:Hn; [reflexivity|].
  destruct (Hfail (S n) ltac:(lia) ltac:(lia)) as [error Herr]. rewrite Herr.
  change [] with (backoffWaits (delayOf options) (backoffOf options) 0).
  rewrite (retry_loop_gives_up fn (attemptsOf options) (delayOf options)
             (backoffOf options) n 0%nat None error).
  - simpl. rewrite Nat.sub_0_r. reflexivity.
  - lia.
  - intros j Hj. apply Hfail; lia.
  - exact Herr.
Qed.

(** X15 with two attempts of a function that always rejects: one wait. *)
Lemma X15_witness :
  Utils.retry alwaysDown (Utils.mkRetryOptions (Some 2) None None)
  = Utils.mkRetryRun (Utils.Rejected (Some "down")) [1000] 2.
Proof.
  apply (X15_retry_gives_up_after_maxAttempts alwaysDown
           (Utils.mkRetryOptions (Some 2) None None)).
  intros j _ _. eexists. reflexivity.
Defined.

End RetryClaims.

(** ** Files by language *)

Section CategorizeByLanguage.

Lemma categorizeByLanguage_snoc (files : list string) (file : string) :
  FileScanner.categorizeByLanguage (files ++ [file])
  = <[FileScanner.detectLanguage file :=
        (default [] (FileScanner.categorizeByLanguage files
                       !! FileScanner.detectLanguage file) ++ [file])%list]>
      (FileScanner.categorizeByLanguage files).
Proof. unfold FileScanner.categorizeByLanguage. rewrite fold_left_app. reflexivity. Qed.

(** X16.  [categorizeByLanguage] puts every file in exactly the bucket of
    the language [detectLanguage] gives it, and keeps the order of the
    files inside a bucket; a language without files has no bucket. *)
Theorem X16_categorizeByLanguage_buckets (files : list string) (language : string) :
  FileScanner.categorizeByLanguage files !! language
  = match filesOfLanguage language files with
    | [] => None
    | bucket => Some bucket
    end.
Proof.
  induction files as [|file files IH] using rev_ind; [apply lookup_empty|].
  rewrite categorizeByLanguage_snoc. unfold filesOfLanguage in *.
  rewrite List.filter_app. cbn [List.filter].
  destruct (String.eqb_spec (FileScanner.detectLanguage file) language) as [E|E].
  - rewrite E. rewrite lookup_insert_eq. rewrite IH.
    destruct (List.filter _ files); reflexivity.
  - rewrite lookup_insert_ne by exact E. rewrite IH. rewrite app_nil_r. reflexivity.
Qed.

End CategorizeByLanguage.

(** ** Sequential and parallel parsing *)

Section ParseFiles.
Import Models.

Variable fs : string -> Fs.Entry.
Variable parseAndTraverse : string -> Js.Result TypeScriptParser.Extracted.
Variable javascriptParser_parseFile : string -> Fs.Entry -> Js.Result ParsedFile.

Local Abbreviation parsedOrNull :=
  (ParserService.parsedOrNull fs parseAndTraverse javascriptParser_parseFile).

Lemma parseFiles_from_resolves (options : ParserService.ParserOptions)
  (filePaths : list string) :
  forall results,
    ParserService.parseFiles_from fs parseAndTraverse javascriptParser_parseFile
      filePaths options results
    = Js.Ok (results ++ omap (fun filePath => parsedOrNull filePath options) filePaths)%list.
Proof.
  induction filePaths as [|filePath rest IH]; intros results.
  - simpl. rewrite app_nil_r. reflexivity.
  - cbn [ParserService.parseFiles_from]. rewrite parseFile_resolves.
    cbn [omap list_omap].
    destruct (parsedOrNull filePath options) as [parsed|].
    + rewrite IH. rewrite <- app_assoc. reflexivity.
    + apply IH.
Qed.

Lemma length_omap_le {A B : Type} (f : A -> option B) (l : list A) :
  (length (omap f l) <= length l)%nat.
Proof.
  induction l as [|a l IH]; [reflexivity|].
  cbn [omap list_omap]. fold (omap f l). destruct (f a); simpl; lia.
Qed.

Lemma parsedOrNull_supported (filePath : string) (options : ParserService.ParserOptions)
  (file : ParsedFile) :
  parsedOrNull filePath options = Some file ->
  ParserService.shouldParse fs filePath = true
  /\ ParserService.skippedBySize options (fs filePath) = false.
Proof.
  unfold ParserService.parsedOrNull, ParserService.parseFile, ParserService.shouldParse.
  destruct (ParserService.skippedBySize options (fs filePath)); [discriminate|].
  destruct (LanguageDetector.isSupportedForParsing _); [auto|discriminate].
Qed.

End ParseFiles.

Section ParseFilesClaims.
Import Models.

(** X17.  [parseFiles] and [parseFilesParallel] resolve to the same list
    for the same paths and options: neither rejects, both keep the order of
    the paths and leave out the files [parseFile] gives [null] for, so the
    list is no longer than the list of paths. *)
Theorem X17_sequential_and_parallel_parsing_agree
  (fs : string -> Fs.Entry)
  (parseAndTraverse : string -> Js.Result TypeScriptParser.Extracted)
  (javascriptParser_parseFile : string -> Fs.Entry -> Js.Result ParsedFile)
  (filePaths : list string) (options : ParserService.ParserOptions) :
  ParserService.parseFiles fs parseAndTraverse javascriptParser_parseFile filePaths options
  = ParserService.parseFilesParallel fs parseAndTraverse javascriptParser_parseFile
      filePaths options
  /\ exists results,
       ParserService.parseFiles fs parseAndTraverse javascriptParser_parseFile
         filePaths options = Js.Ok results
       /\ (length results <= length filePaths)%nat.
Proof.
  unfold ParserService.parseFiles.
  rewrite parseFiles_from_resolves, parseFilesParallel_resolves. simpl.
  split; [reflexivity|]. eexists. split; [reflexivity|]. apply length_omap_le.
Qed.

(** X18.  The parser service parses the languages it advertises and no
    other: [isSupportedForParsing] of the language detector accepts exactly
    the members of [getSupportedLanguages], and a file that [parseFile]
    returns is one that [shouldParse] accepts and that the size check has
    let through. *)
Theorem X18_only_supported_languages_are_parsed :
  (forall language,
     LanguageDetector.isSupportedForParsing language = true
     <-> In language ParserService.getSupportedLanguages)
  /\ (forall fs parseAndTraverse javascriptParser_parseFile filePath options file,
        ParserService.parseFile fs parseAndTraverse javascriptParser_parseFile
          filePath options = Js.Ok (Some file) ->
        ParserService.shouldParse fs filePath = true
        /\ ParserService.skippedBySize options (fs filePath) = false).
Proof.
  split.
  - intros language. unfold LanguageDetector.isSupportedForParsing,
      ParserService.getSupportedLanguages.
    rewrite existsb_exists. split.
    + intros (x & Hx & E). apply String.eqb_eq in E. subst x. exact Hx.
    + intros H. exists language. split; [exact H|apply String.eqb_refl].
  - intros fs pat js filePath options file H.
    apply (parsedOrNull_supported fs pat js filePath options file).
    unfold ParserService.parsedOrNull. rewrite H. reflexivity.
Qed.

End ParseFilesClaims.

(** ** The language detector *)

Section DetectLanguage.
Import LanguageDetector.

Lemma list_to_map_value (l : list (string * string)) (P : string -> Prop) :
  Forall (fun kv => P kv.2) l ->
  forall k v, (list_to_map l : gmap string string) !! k = Some v -> P v.
Proof.
  intros HF k v H. apply elem_of_list_to_map_2 in H.
  rewrite Forall_forall in HF. apply (HF (k, v)). exact H.
Qed.

Lemma EXTENSION_MAP_known (k v : string) : EXTENSION_MAP !! k = Some v -> v <> "unknown".
Proof.
  unfold EXTENSION_MAP. apply (list_to_map_value _ (fun v => v <> "unknown")).
  repeat (constructor; [discriminate|]). constructor.
Qed.

Lemma SHEBANG_MAP_known (k v : string) : SHEBANG_MAP !! k = Some v -> v <> "unknown".
Proof.
  unfold SHEBANG_MAP. apply (list_to_map_value _ (fun v => v <> "unknown")).
  repeat (constructor; [discriminate|]). constructor.
Qed.

Lemma detectFromShebang_known (content language : string) :
  detectFromShebang content = Some language -> language <> "unknown".
Proof.
  unfold detectFromShebang.
  destruct (negb _); [discriminate|].
  destruct (SHEBANG_MAP !! _) as [l|] eqn:Hl.
  - intros H. injection H as <-. eapply SHEBANG_MAP_known. exact Hl.
  - destruct (existsb _ Js.objectPrototypeMembers); [|discriminate].
    intros H. injection H as <-. unfold Js.inheritedMember. simpl. discriminate.
Qed.

Lemma best_match_language (content : string)
  (candidates : list (string * list RegExp.Regex * nat)) :
  forall (best : option (string * (nat * nat))) (found : string * (nat * nat)),
    fold_left
      (fun (bestMatch : option (string * (nat * nat))) candidate =>
         let '(language, patterns, minMatches) := candidate in
         let matches :=
           length (filter (fun pattern => RegExp.test pattern content) patterns) in
         if (minMatches <=? matches)%nat then
           match bestMatch with
           | None => Some (language, (matches, length patterns))
           | Some (_, (bm, bl)) =>
               if (bm * length patterns <? matches * bl)%nat
               then Some (language, (matches, length patterns))
               else bestMatch
           end
         else bestMatch)
      candidates best = Some found ->
    best = Some found \/ In found.1 (map (fun c => c.1.1) candidates)
    \/ (exists b, best = Some b /\ b.1 = found.1).
Proof.
  induction candidates as [|[[language patterns] minMatches] rest IH]; intros best found H.
  - left. exact H.
  - cbn [fold_left] in H. apply IH in H. clear IH.
    cbn [map In]. cbn [fst].
    destruct (minMatches <=? _)%nat.
    + destruct best as [[bl [bm bn]]|].
      * destruct (_ <? _)%nat.
        -- destruct H as [H|[H|(b & H & E)]].
           ++ injection H as <-. right. left. left. reflexivity.
           ++ right. left. right. exact H.
           ++ injection H as <-. right. left. left. exact E.
        -- destruct H as [H|[H|H]]; [left; exact H|right; left; right; exact H|].
           right. right. exact H.
      * destruct H as [H|[H|(b & H & E)]].
        -- injection H as <-. right. left. left. reflexivity.
        -- right. left. right. exact H.
        -- injection H as <-. right. left. left. exact E.
    + destruct H as [H|[H|H]]; [left; exact H|right; left; right; exact H|].
      right. right. exact H.
Qed.

Lemma detectFromContent_known (content language : string) :
  detectFromContent content = Some language -> language <> "unknown".
Proof.
  unfold detectFromContent. intros H.
  destruct (fold_left _ CONTENT_PATTERNS None) as [found|] eqn:Hf; [|discriminate].
  simpl in H. injection H as <-.
  apply best_match_language in Hf.
  destruct Hf as [Hf|[Hf|(b & Hf & _)]]; try discriminate.
  simpl in Hf. intros E. rewrite E in Hf.
  repeat (destruct Hf as [Hf|Hf]; [discriminate|]). exact Hf.
Qed.

(** X19.  What [detectLanguage] reports hangs together: when the
    extension is mapped the content is never consulted (the result is the
    same for any entry at the path, a missing one too), and the confidence
    is [low] exactly when the language is ["unknown"], which
    [isSupportedForParsing] refuses. *)
Theorem X19_detectLanguage_is_coherent (filePath : string) (e : Fs.Entry) :
  (forall extLang, detectFromExtension filePath = Some extLang ->
                   forall e', detectLanguage filePath e'
                              = mkDetection extLang high by_extension)
  /\ (confidence (detectLanguage filePath e) = low
      <-> language (detectLanguage filePath e) = "unknown")
  /\ (confidence (detectLanguage filePath e) = low ->
      isSupportedForParsing (language (detectLanguage filePath e)) = false).
Proof.
  split; [intros extLang H e'; unfold detectLanguage; rewrite H; reflexivity|].
  assert (Hiff : confidence (detectLanguage filePath e) = low
                 <-> language (detectLanguage filePath e) = "unknown").
  { unfold detectLanguage.
    destruct (detectFromExtension filePath) as [extLang|] eqn:Hext.
    { simpl. apply EXTENSION_MAP_known in Hext. split; [discriminate|contradiction]. }
    destruct (Fs.readFile e) as [content|msg]; [|simpl; tauto].
    destruct (detectFromShebang content) as [shebangLang|] eqn:Hsh.
    { simpl. apply detectFromShebang_known in Hsh. split; [discriminate|contradiction]. }
    destruct (detectFromContent _) as [contentLang|] eqn:Hc; [|simpl; tauto].
    simpl. apply detectFromContent_known in Hc. split; [discriminate|contradiction]. }
  split; [exact Hiff|].
  intros Hlow. apply Hiff in Hlow. rewrite Hlow. reflexivity.
Qed.

End DetectLanguage.

(** ** Reading parsed files back *)

Section ReadBack.
Import Prisma.

Lemma find_app_first {A : Type} (p : A -> bool) (l k : list A) :
  find p (l ++ k) = match find p l with Some x => Some x | None => find p k end.
Proof.
  induction l as [|a l IH]; simpl; [reflexivity|].
  destruct (p a); [reflexivity|exact IH].
Qed.

Lemma conflicts_find (d : ParsedFileData) (rows : list ParsedFileRow) :
  conflicts d rows = true ->
  exists r, find (fun r => String.eqb (pf_analysisId r) (d_analysisId d)
                           && String.eqb (pf_filePath r) (d_filePath d)) rows = Some r.
Proof.
  unfold conflicts. induction rows as [|r rows IH]; simpl; [discriminate|].
  destruct (String.eqb (pf_analysisId r) (d_analysisId d)
            && String.eqb (pf_filePath r) (d_filePath d)); simpl; [eauto|exact IH].
Qed.

(** The row of a key after [createMany]: a stored row stays, and a new
    key gets the first row of the batch that has it. *)
Lemma find_after_insert (analysisId filePath : string) (data : list ParsedFileData) :
  forall (rows : list ParsedFileRow) (next : nat),
    Forall (fun d => d_analysisId d = analysisId) data ->
    option_map pf_data
      (find (fun r => String.eqb (pf_analysisId r) analysisId
                      && String.eqb (pf_filePath r) filePath)
         (insertSkippingDuplicates data rows next).1)
    = match find (fun r => String.eqb (pf_analysisId r) analysisId
                           && String.eqb (pf_filePath r) filePath) rows with
      | Some r => Some (pf_data r)
      | None =>
          option_map d_data (find (fun d => String.eqb (d_filePath d) filePath) data)
      end.
Proof.
  induction data as [|d rest IH]; intros rows next Hid.
  - simpl. destruct (find _ rows); reflexivity.
  - apply Forall_cons in Hid. destruct Hid as [Hd Hrest].
    cbn [insertSkippingDuplicates find].
    destruct (conflicts d rows) eqn:Hc.
    + rewrite (IH rows next Hrest).
      destruct (find _ rows) as [r|] eqn:Hfind; [reflexivity|].
      destruct (String.eqb_spec (d_filePath d) filePath) as [E|E]; [|reflexivity].
      apply conflicts_find in Hc. destruct Hc as [r Hr].
      rewrite Hd, E in Hr. congruence.
    + rewrite (IH _ _ Hrest). rewrite find_app_first.
      destruct (find _ rows) as [r|] eqn:Hfind; [reflexivity|].
      cbn [find pf_analysisId pf_filePath pf_data]. rewrite Hd, String.eqb_refl.
      cbn [andb].
      destruct (String.eqb (d_filePath d) filePath); reflexivity.
Qed.

(** A batch without conflicts is stored as it is. *)
Lemma rows_after_insert (analysisId : string) (data : list ParsedFileData) :
  forall (rows : list ParsedFileRow) (next : nat),
    Forall (fun d => d_analysisId d = analysisId) data ->
    Forall (fun d => conflicts d rows = false) data ->
    NoDup (map d_filePath data) ->
    map pf_data
      (List.filter (fun r => String.eqb (pf_analysisId r) analysisId)
         (insertSkippingDuplicates data rows next).1)
    = (map pf_data (List.filter (fun r => String.eqb (pf_analysisId r) analysisId) rows)
       ++ map d_data data)%list.
Proof.
  induction data as [|d rest IH]; intros rows next Hid Hfree Hdistinct.
  - simpl. rewrite app_nil_r. reflexivity.
  - apply Forall_cons in Hid. destruct Hid as [Hd Hrest].
    apply Forall_cons in Hfree. destruct Hfree as [Hc Hfree].
    cbn [map] in Hdistinct. apply NoDup_cons in Hdistinct.
    destruct Hdistinct as [Hnew Hdistinct].
    cbn [insertSkippingDuplicates]. rewrite Hc.
    rewrite (IH _ _ Hrest); [| |exact Hdistinct].
    + rewrite List.filter_app, map_app.
      cbn [List.filter pf_analysisId]. rewrite Hd, String.eqb_refl.
      cbn [map pf_data]. rewrite <- app_assoc. reflexivity.
    + rewrite Forall_forall in Hfree, Hrest. apply Forall_forall. intros d' Hd'.
      rewrite conflicts_app, (Hfree d' Hd'). unfold conflicts. cbn [existsb orb
        pf_analysisId pf_filePath].
      rewrite orb_false_r. apply andb_false_iff. right.
      apply String.eqb_neq. intros E. apply Hnew.
      rewrite E. apply list_elem_of_In, in_map, list_elem_of_In. exact Hd'.
Qed.

Lemma no_rows_no_conflicts (analysisId : string) (rows : list ParsedFileRow)
  (d : ParsedFileData) :
  Forall (fun r => pf_analysisId r <> analysisId) rows ->
  d_analysisId d = analysisId ->
  conflicts d rows = false
  /\ List.filter (fun r => String.eqb (pf_analysisId r) analysisId) rows = []
  /\ forall filePath,
       find (fun r => String.eqb (pf_analysisId r) analysisId
                      && String.eqb (pf_filePath r) filePath) rows = None.
Proof.
  intros Hnone Hd. subst analysisId.
  induction Hnone as [|r rows E _ IH]; [repeat split; reflexivity|].
  destruct IH as (I1 & I2 & I3).
  apply String.eqb_neq in E.
  split; [|split].
  - unfold conflicts in *. cbn [existsb]. rewrite E. exact I1.
  - cbn [List.filter]. rewrite E. exact I2.
  - intros filePath. cbn [find]. rewrite E. apply I3.
Qed.

End ReadBack.

Section ReadBackClaim.
Import Prisma.

(** X20.  What [saveParsedFiles] stores for an analysis without parsed
    files, the readers give back.  [getParsedFile] returns, for a path, the
    first file of the batch that has it: a later file with the same path is
    dropped without a word.  When the paths of the batch differ from one
    another, [getParsedFiles] returns the files of the batch, each once, in
    the order the database chooses: no [orderBy] is passed, so the list is
    the batch up to a rearrangement. *)
Theorem X20_saved_files_are_read_back
  (rowOrder : list ParsedFileRow -> list ParsedFileRow)
  (analysisId : string) (parsedFiles : list Models.ParsedFile) (db db' : Db)
  (Horder : forall rows, Permutation (rowOrder rows) rows)
  (Hsave : DependencyRepository.saveParsedFiles analysisId parsedFiles db = (Js.Ok tt, db'))
  (Hfresh : Forall (fun r => pf_analysisId r <> analysisId) (parsedFile db)) :
  (forall filePath,
     DependencyRepository.getParsedFile analysisId filePath db'
     = Js.Ok (find (fun file => String.eqb (Models.path file) filePath) parsedFiles))
  /\ (NoDup (map Models.path parsedFiles) ->
      exists files,
        DependencyRepository.getParsedFiles rowOrder analysisId db' = Js.Ok files
        /\ Permutation files parsedFiles).
Proof.
  unfold DependencyRepository.saveParsedFiles in Hsave.
  fold (parsedFileData analysisId) in Hsave.
  unfold parsedFile_createMany in Hsave.
  destruct (negb (connected db)) eqn:Hconn; [discriminate|].
  destruct (negb (forallb _ _)) eqn:Hfk; [discriminate|].
  destruct (insertSkippingDuplicates (map (parsedFileData analysisId) parsedFiles)
              (parsedFile db) (nextId db)) as [rows next] eqn:Hins.
  injection Hsave as <-.
  assert (Hid : Forall (fun d => d_analysisId d = analysisId)
                  (map (parsedFileData analysisId) parsedFiles)).
  { apply Forall_forall. intros d Hd. apply list_elem_of_In, in_map_iff in Hd.
    destruct Hd as (f & <- & _). reflexivity. }
  assert (Hrows : rows = (insertSkippingDuplicates (map (parsedFileData analysisId) parsedFiles)
                            (parsedFile db) (nextId db)).1) by (rewrite Hins; reflexivity).
  destruct (no_rows_no_conflicts analysisId (parsedFile db)
              (mkParsedFileData analysisId "" "" (Models.emptyParsedFile "" ""))
              Hfresh eq_refl) as (_ & Hnone & Hfind0).
  split.
  - intros filePath.
    unfold DependencyRepository.getParsedFile, parsedFile_findFirst. simpl.
    rewrite Hconn.
    pose proof (find_after_insert analysisId filePath _ (parsedFile db) (nextId db) Hid) as H.
    rewrite <- Hrows in H. rewrite Hfind0 in H.
    assert (Hfind : option_map d_data
                      (find (fun d => String.eqb (d_filePath d) filePath)
                         (map (parsedFileData analysisId) parsedFiles))
                    = find (fun file => String.eqb (Models.path file) filePath) parsedFiles).
    { clear. induction parsedFiles as [|f l IH]; [reflexivity|].
      cbn [map find parsedFileData d_filePath].
      destruct (String.eqb (Models.path f) filePath); [reflexivity|exact IH]. }
    rewrite Hfind in H. rewrite <- H.
    destruct (find _ rows); reflexivity.
  - intros Hdistinct.
    unfold DependencyRepository.getParsedFiles, parsedFile_findMany. simpl.
    rewrite Hconn. eexists. split; [reflexivity|].
    rewrite (Permutation_map pf_data (Horder _)).
    rewrite Hrows.
    rewrite (rows_after_insert analysisId _ _ _ Hid).
    + rewrite Hnone. simpl. rewrite map_map. simpl. rewrite map_id. reflexivity.
    + apply Forall_forall. intros d Hd. rewrite Forall_forall in Hid.
      apply (no_rows_no_conflicts analysisId (parsedFile db) d Hfresh (Hid d Hd)).
    + rewrite map_map. simpl. exact Hdistinct.
Qed.

(** X20 on two parsed files saved for the analysis of the intake, and a
    database that returns its rows last first. *)
Lemma X20_witness :
  (forall filePath,
     DependencyRepository.getParsedFile "a1" filePath
       (DependencyRepository.saveParsedFiles "a1" [parsedA; parsedB] intakeDb).2
     = Js.Ok (find (fun file => String.eqb (Models.path file) filePath) [parsedA; parsedB]))
  /\ (NoDup (map Models.path [parsedA; parsedB]) ->
      exists files,
        DependencyRepository.getParsedFiles (@rev ParsedFileRow) "a1"
          (DependencyRepository.saveParsedFiles "a1" [parsedA; parsedB] intakeDb).2
        = Js.Ok files
        /\ Permutation files [parsedA; parsedB]).
Proof.
  apply (X20_saved_files_are_read_back (@rev ParsedFileRow) "a1" [parsedA; parsedB]
           intakeDb).
  - intros rows. symmetry. apply Permutation_rev.
  - vm_compute. reflexivity.
  - vm_compute. constructor.
Defined.

End ReadBackClaim.

(** ** The store behind the handlers *)

Section StoreBehindHandlers.
Import Prisma.

(** X21.  An unreachable store is reported as a missing analysis: the
    readers of the repositories swallow the rejection of the query, so
    [GET /analysis/:id/tree] and [DELETE /analysis/:id] both answer 404
    [Analysis not found], whatever the identifier, and the store is left
    as it was. *)
Theorem X21_unreachable_store_reads_as_not_found (key : string) (db : Db)
  (Hdown : connected db = false) :
  AnalysisRepository.findById key db = None
  /\ FileTreeRepository.getByAnalysisId key db = None
  /\ AnalysisRepository.delete key db = (false, db)
  /\ FileTreeRepository.deleteByAnalysisId key db = (false, db)
  /\ Routes.getTree key db = Routes.errorHandler "NotFoundError" "Analysis not found" 404
  /\ Routes.deleteAnalysis key db
     = (Routes.errorHandler "NotFoundError" "Analysis not found" 404, db).
Proof.
  unfold Routes.getTree, Routes.deleteAnalysis, AnalysisRepository.findById,
    AnalysisRepository.delete, FileTreeRepository.getByAnalysisId,
    FileTreeRepository.deleteByAnalysisId, analysis_findUnique, analysis_delete,
    fileTree_findUnique, fileTree_delete.
  rewrite Hdown. simpl. auto 10.
Qed.

(** X21 on the store that cannot be reached. *)
Lemma X21_witness :
  AnalysisRepository.findById "a1" db_down = None
  /\ FileTreeRepository.getByAnalysisId "a1" db_down = None
  /\ AnalysisRepository.delete "a1" db_down = (false, db_down)
  /\ FileTreeRepository.deleteByAnalysisId "a1" db_down = (false, db_down)
  /\ Routes.getTree "a1" db_down
     = Routes.errorHandler "NotFoundError" "Analysis not found" 404
  /\ Routes.deleteAnalysis "a1" db_down
     = (Routes.errorHandler "NotFoundError" "Analysis not found" 404, db_down).
Proof. apply (X21_unreachable_store_reads_as_not_found "a1" db_down). reflexivity. Defined.

(** X22.  The statistics [calculateMetrics] computes survive the store
    when the tree has a file: after [save], [getByAnalysisId] returns the
    row with the totals of the statistics, and [GET /analysis/:id/tree]
    serves the tree with statistics equal to those that were computed, the
    average file size among them. *)
Theorem X22_served_statistics_are_the_computed_ones
  (tree : TreeBuilder.FileTreeNode) (key : string) (db : Db) (r : AnalysisRow)
  (Hfiles : 0 < Metrics.totalFiles (Metrics.calculateMetrics tree))
  (Hconn : connected db = true)
  (Hrecord : analysis db !! key = Some r)
  (Hfresh : fileTree db !! key = None) :
  let statistics := Metrics.calculateMetrics tree in
  let db' := (FileTreeRepository.save key tree statistics db).2 in
  Routes.getTree key db' = Routes.json (Routes.TreeBody tree statistics)
  /\ exists row,
       FileTreeRepository.getByAnalysisId key db' = Some row
       /\ ft_tree row = tree
       /\ ft_totalFiles row = Metrics.totalFiles statistics
       /\ ft_totalSize row = Metrics.totalSize (Metrics.sizeBreakdown statistics).
Proof.
  cbv zeta.
  unfold FileTreeRepository.save, fileTree_create.
  rewrite Hconn. simpl. rewrite Hrecord, Hfresh. simpl.
  unfold Routes.getTree, AnalysisRepository.findById, analysis_findUnique,
    FileTreeRepository.getByAnalysisId, fileTree_findUnique.
  simpl. rewrite ?Hconn. simpl. rewrite ?Hrecord. simpl.
  rewrite lookup_insert_eq. simpl.
  split; [|eexists; split; [reflexivity|auto]].
  unfold Routes.json. f_equal. f_equal.
  revert Hfiles. unfold Metrics.calculateMetrics.
  destruct (0 <? Metrics.totalFiles (Metrics.traverseAndCount tree Metrics.initialStatistics))
    eqn:Hpos.
  - intros _. reflexivity.
  - intros H. apply Z.ltb_ge in Hpos. lia.
Qed.

(** X22 on the fixture. *)
Lemma X22_witness :
  Routes.getTree "a1"
    (FileTreeRepository.save "a1" (builtTree fixtureRepo "/tmp/repo")
       (Metrics.calculateMetrics (builtTree fixtureRepo "/tmp/repo")) intakeDb).2
  = Routes.json
      (Routes.TreeBody (builtTree fixtureRepo "/tmp/repo")
         (Metrics.calculateMetrics (builtTree fixtureRepo "/tmp/repo"))).
Proof.
  refine (proj1 (X22_served_statistics_are_the_computed_ones
                   (builtTree fixtureRepo "/tmp/repo") "a1" intakeDb
                   (Prisma.mkAnalysis "a1" "https://github.com/acme/widgets" "acme"
                      "widgets" "main" None Prisma.queued None
                      (Prisma.mkAnalysisOptions true 1000 None None false)
                      0 None None) _ _ _ _));
    vm_compute; reflexivity.
Defined.

End StoreBehindHandlers.

(** ** The size of a working copy *)

Section RepositorySize.

(** The loop of [getRepositorySize] over the entries of a directory. *)
Lemma getRepositorySize_Dir (n : string) (files : list Fs.Entry) :
  exists loop : list Fs.Entry -> Z -> option Z,
    CloneService.getRepositorySize (Fs.Dir n (Some files)) = default 0 (loop files 0)
    /\ (forall totalSize, loop [] totalSize = Some totalSize)
    /\ (forall file rest totalSize,
          loop (file :: rest) totalSize
          = if String.eqb (Fs.name file) ".git" then loop rest totalSize
            else match file with
                 | Fs.Dir _ _ =>
                     loop rest (totalSize + CloneService.getRepositorySize file)
                 | _ =>
                     match Fs.stat file with
                     | Js.Ok stats => loop rest (totalSize + Fs.size stats)
                     | Js.Throw _ => None
                     end
                 end).
Proof.
  eexists. split; [reflexivity|]. split; reflexivity.
Qed.

(** X23.  [getRepositorySize] swallows every error as a size of 0: a
    path that is no directory has size 0 (a regular file too, whatever its
    size), a directory that cannot be listed has size 0, and one entry on
    which [fs.stat] rejects, such as a dangling link, makes the size of the
    directory that holds it 0, whatever the other entries are. *)
Theorem X23_getRepositorySize_swallows_errors :
  (forall n sz mt content, CloneService.getRepositorySize (Fs.File n sz mt content) = 0)
  /\ (forall n, CloneService.getRepositorySize (Fs.Dir n None) = 0)
  /\ (forall n (before : list Fs.Entry) b (after : list Fs.Entry),
        b <> ".git" ->
        CloneService.getRepositorySize
          (Fs.Dir n (Some (before ++ Fs.Broken b :: after)%list)) = 0).
Proof.
  split; [reflexivity|]. split; [reflexivity|].
  intros n before b after Hb.
  destruct (getRepositorySize_Dir n (before ++ Fs.Broken b :: after)%list)
    as (loop & -> & _ & Hstep).
  assert (H : forall totalSize, loop (before ++ Fs.Broken b :: after)%list totalSize = None).
  { induction before as [|file before IH]; intros totalSize.
    - simpl. rewrite Hstep. simpl.
      apply String.eqb_neq in Hb. rewrite Hb. reflexivity.
    - simpl. rewrite Hstep.
      destruct (String.eqb (Fs.name file) ".git"); [apply IH|].
      destruct file as [f sz mt c|d es|s|x]; simpl; try apply IH. reflexivity. }
  rewrite H. reflexivity.
Qed.

(** X24.  [getRepositorySize] leaves out every entry named [.git], a
    regular file of that name too: the size of a directory is the size of
    the directory without those entries. *)
Theorem X24_getRepositorySize_ignores_git (n : string) (files : list Fs.Entry) :
  CloneService.getRepositorySize (Fs.Dir n (Some files))
  = CloneService.getRepositorySize
      (Fs.Dir n (Some (List.filter (fun file => negb (String.eqb (Fs.name file) ".git"))
                         files))).
Proof.
  destruct (getRepositorySize_Dir n files) as (loop & -> & Hnil & Hstep).
  destruct (getRepositorySize_Dir n
              (List.filter (fun file => negb (String.eqb (Fs.name file) ".git")) files))
    as (loop' & -> & Hnil' & Hstep').
  f_equal. generalize 0.
  induction files as [|file rest IH]; intros totalSize.
  - simpl. rewrite Hnil, Hnil'. reflexivity.
  - cbn [List.filter]. rewrite Hstep.
    destruct (String.eqb (Fs.name file) ".git") eqn:Hgit; cbn [negb]; [apply IH|].
    rewrite Hstep', Hgit.
    destruct file as [f sz mt c|d es|s|x]; simpl; try apply IH. reflexivity.
Qed.

End RepositorySize.

(** ** The resolution of imports *)

Section ImportResolution.
Import DependencyResolver.

(** X25.  [isExternalPackage] decides by the first character alone: an
    import is external exactly when it starts with neither a dot nor a
    slash; the tests for a scope and for the built-in modules, and the last
    expression, change nothing.  So [resolveImportPath] never looks for a
    file for such an import, a path below the project root included: the
    branch of [resolveLocalImport] for aliases is never taken. *)
Theorem X25_an_import_is_local_by_its_first_character (importSource : string) :
  isExternalPackage importSource
  = negb (Js.startsWith importSource "." || Js.startsWith importSource "/")
  /\ forall (projectRoot : string) (fileExists isDirectory : string -> bool)
            (path_resolve : string -> string -> string) (path_dirname : string -> string)
            (path_join path_relative : string -> string -> string)
            (currentFilePath : string),
       Js.startsWith importSource "." = false ->
       Js.startsWith importSource "/" = false ->
       resolveImportPath projectRoot fileExists isDirectory path_resolve path_dirname
         path_join path_relative importSource currentFilePath
       = mkResolvedImport importSource None true false.
Proof.
  assert (H : isExternalPackage importSource
              = negb (Js.startsWith importSource "." || Js.startsWith importSource "/")).
  { unfold isExternalPackage.
    destruct (Js.startsWith importSource ".") eqn:Hdot; [reflexivity|].
    destruct (Js.startsWith importSource "/"); [reflexivity|]. cbn [orb negb].
    destruct (Js.startsWith importSource "@"); [reflexivity|].
    destruct (existsb _ builtinModules); [reflexivity|].
    apply orb_true_r. }
  split; [exact H|].
  intros projectRoot fileExists isDirectory path_resolve path_dirname path_join
    path_relative currentFilePath Hdot Hslash.
  unfold resolveImportPath. rewrite H, Hdot, Hslash. reflexivity.
Qed.

Section Resolution.

Variable projectRoot : string.
Variable fileExists isDirectory : string -> bool.
Variable path_resolve : string -> string -> string.
Variable path_dirname : string -> string.
Variable path_join path_relative : string -> string -> string.

Local Abbreviation resolve :=
  (resolveImportPath projectRoot fileExists isDirectory path_resolve path_dirname
     path_join path_relative).

Lemma truthy_Some (s : option string) (p : string) : truthy s = Some p -> s = Some p.
Proof.
  destruct s as [q|]; simpl; [|discriminate].
  destruct (String.eqb q ""); [discriminate|]. intros H. exact H.
Qed.

Lemma tryResolveWithExtensions_exists (basePath p : string) :
  tryResolveWithExtensions fileExists basePath = Some p ->
  fileExists p = true
  /\ (fileExists basePath = true -> p = basePath).
Proof.
  unfold tryResolveWithExtensions.
  destruct (fileExists basePath) eqn:Hbase.
  - intros H. injection H as <-. auto.
  - intros H. apply find_some in H. split; [apply H|discriminate].
Qed.

Lemma tryResolveAsDirectory_exists (dirPath p : string) :
  tryResolveAsDirectory fileExists isDirectory path_join dirPath = Some p ->
  fileExists p = true /\ isDirectory dirPath = true.
Proof.
  unfold tryResolveAsDirectory.
  destruct (isDirectory dirPath); cbn [negb]; [|discriminate].
  intros H. apply find_some in H. split; [apply H|reflexivity].
Qed.

Lemma resolveLocalImport_exists (importSource currentFilePath p : string) :
  resolveLocalImport projectRoot fileExists isDirectory path_resolve path_dirname
    path_join path_relative importSource currentFilePath = Some p ->
  exists absolute,
    fileExists absolute = true /\ p = path_relative projectRoot absolute.
Proof.
  unfold resolveLocalImport. cbv zeta.
  destruct (truthy (tryResolveWithExtensions fileExists _)) as [resolved|] eqn:H1.
  - intros H. injection H as <-. apply truthy_Some in H1.
    apply tryResolveWithExtensions_exists in H1. exists resolved. split; [apply H1|reflexivity].
  - destruct (truthy (tryResolveAsDirectory fileExists isDirectory path_join _))
      as [indexResolved|] eqn:H2; [|discriminate].
    intros H. injection H as <-. apply truthy_Some in H2.
    apply tryResolveAsDirectory_exists in H2.
    exists indexResolved. split; [apply H2|reflexivity].
Qed.

End Resolution.

(** X26.  What [resolveImportPath] reports is sound: [isResolved] holds
    exactly when there is a [resolvedPath]; an external import has neither;
    and a resolved path is the path, relative to the project root, of a
    file that [fs.access] found. *)
Theorem X26_a_resolved_import_names_a_file_that_exists
  (projectRoot : string) (fileExists isDirectory : string -> bool)
  (path_resolve : string -> string -> string) (path_dirname : string -> string)
  (path_join path_relative : string -> string -> string)
  (importSource currentFilePath : string) :
  let r := resolveImportPath projectRoot fileExists isDirectory path_resolve path_dirname
             path_join path_relative importSource currentFilePath in
  originalImport r = importSource
  /\ (isResolved r = true <-> exists p, resolvedPath r = Some p)
  /\ (isExternal r = true -> resolvedPath r = None /\ isResolved r = false)
  /\ (forall p, resolvedPath r = Some p ->
        exists absolute,
          fileExists absolute = true /\ p = path_relative projectRoot absolute).
Proof.
  cbv zeta. unfold resolveImportPath.
  destruct (isExternalPackage importSource); simpl.
  - split; [reflexivity|]. split; [split; [discriminate|intros [p H]; discriminate]|].
    split; [auto|]. intros p H. discriminate.
  - split; [reflexivity|].
    destruct (resolveLocalImport _ _ _ _ _ _ _ _ _) as [p|] eqn:Hlocal.
    + split; [split; eauto|]. split; [discriminate|].
      intros q H. injection H as <-. eapply resolveLocalImport_exists. exact Hlocal.
    + split; [split; [discriminate|intros [p H]; discriminate]|].
      split; [discriminate|]. intros p H. discriminate.
Qed.

End ImportResolution.

(** ** The progress a job publishes *)

Section Progress.
Import Worker.











End Progress.

Section ProgressClaim.
Import Worker.


End ProgressClaim.

(** ** The rows a job stores *)

Section StoredRows.
Import Worker.

Lemma appends_none {A : Type} (key : string) (c : M A) :
  (forall w r w', c w = (r, w') ->
                  Prisma.parsedFile (db w') = Prisma.parsedFile (db w)) ->
  appends 0 key c.
Proof.
  intros H w r w' Hc. exists []. rewrite (H _ _ _ Hc), app_nil_r.
  split; [reflexivity|]. split; [simpl; lia|constructor].
Qed.

Lemma appends_pure {A : Type} (key : string) (c : M A) :
  (forall w, db (c w).2 = db w) -> appends 0 key c.
Proof.
  intros H. apply appends_none. intros w r w' Hc.
  specialize (H w). rewrite Hc in H. simpl in H. rewrite H. reflexivity.
Qed.

Lemma appends_bind {A B : Type} (n1 n2 : nat) (key : string) (c : M A) (k : A -> M B) :
  appends n1 key c ->
  (forall a w w1, c w = (Js.Ok a, w1) -> appends n2 key (k a)) ->
  appends (n1 + n2) key (bind c k).
Proof.
  intros Hc Hk w r w'. unfold bind.
  destruct (c w) as [[a|message] w1] eqn:Hcw.
  - intros Hka. destruct (Hc _ _ _ Hcw) as (new1 & E1 & L1 & F1).
    destruct (Hk a _ _ Hcw _ _ _ Hka) as (new2 & E2 & L2 & F2).
    exists (new1 ++ new2)%list. rewrite E2, E1, app_assoc.
    split; [reflexivity|]. split; [rewrite length_app; lia|].
    apply Forall_app. split; assumption.
  - intros H. injection H as <- <-. destruct (Hc _ _ _ Hcw) as (new1 & E1 & L1 & F1).
    exists new1. split; [exact E1|]. split; [lia|exact F1].
Qed.

Lemma appends_publish (env : Env) (p : JobProgress) (key : string) :
  appends 0 key (publish env p).
Proof.
  apply appends_pure. intros w. unfold publish. destruct (updateProgress env p); reflexivity.
Qed.

Lemma appends_update (key key' : string) (f : Z -> Prisma.UpdateData) :
  appends 0 key (onDb (fun now => Prisma.analysis_update key' (f now))).
Proof.
  apply appends_none. intros w r w'. unfold onDb, Prisma.analysis_update.
  destruct (negb (Prisma.connected (db w))); [intros H; injection H as _ <-; reflexivity|].
  destruct (Prisma.analysis (db w) !! key'); intros H; injection H as _ <-; reflexivity.
Qed.

Lemma appends_save (key key' : string) (tree : TreeBuilder.FileTreeNode)
  (statistics : Metrics.FileTreeStatistics) :
  appends 0 key (onDb (fun _ => FileTreeRepository.save key' tree statistics)).
Proof.
  apply appends_none. intros w r w'.
  unfold onDb, FileTreeRepository.save, Prisma.fileTree_create. simpl.
  destruct (negb (Prisma.connected (db w))); [intros H; injection H as _ <-; reflexivity|].
  destruct (Prisma.analysis (db w) !! key');
    [destruct (Prisma.fileTree (db w) !! key')|];
    intros H; injection H as _ <-; reflexivity.
Qed.

Lemma insert_appends (key : string) (data : list Prisma.ParsedFileData) :
  forall (rows : list Prisma.ParsedFileRow) (next : nat),
    Forall (fun d => Prisma.d_analysisId d = key) data ->
    exists new,
      (Prisma.insertSkippingDuplicates data rows next).1 = (rows ++ new)%list
      /\ (length new <= length data)%nat
      /\ Forall (fun row => Prisma.pf_analysisId row = key) new.
Proof.
  induction data as [|d rest IH]; intros rows next Hid.
  - exists []. simpl. rewrite app_nil_r. split; [reflexivity|].
    split; [lia|constructor].
  - apply Forall_cons in Hid. destruct Hid as [Hd Hrest].
    cbn [Prisma.insertSkippingDuplicates].
    destruct (Prisma.conflicts d rows).
    + destruct (IH rows next Hrest) as (new & E & L & F).
      exists new. split; [exact E|]. split; [simpl; lia|exact F].
    + destruct (IH (rows ++ [Prisma.mkParsedFileRow next (Prisma.d_analysisId d)
                               (Prisma.d_filePath d) (Prisma.d_language d)
                               (Prisma.d_data d)])%list (S next) Hrest)
        as (new & E & L & F).
      eexists (_ :: new). rewrite E, <- app_assoc. split; [reflexivity|].
      split; [simpl; lia|]. constructor; [exact Hd|exact F].
Qed.

Lemma appends_saveParsedFiles (key : string) (files : list Models.ParsedFile) :
  appends (length files) key
    (onDb (fun _ => DependencyRepository.saveParsedFiles key files)).
Proof.
  intros w r w'. unfold onDb, DependencyRepository.saveParsedFiles.
  unfold Prisma.parsedFile_createMany.
  assert (Hnone : exists new : list Prisma.ParsedFileRow,
             Prisma.parsedFile (db w) = (Prisma.parsedFile (db w) ++ new)%list
             /\ (length new <= length files)%nat
             /\ Forall (fun row => Prisma.pf_analysisId row = key) new).
  { exists []. rewrite app_nil_r. split; [reflexivity|]. split; [simpl; lia|constructor]. }
  destruct (negb (Prisma.connected (db w))); [intros H; injection H as _ <-; exact Hnone|].
  destruct (negb (forallb _ _)); [intros H; injection H as _ <-; exact Hnone|].
  destruct (insert_appends key
              (map (fun file => Prisma.mkParsedFileData key (Models.path file)
                                  (Models.language file) file) files)
              (Prisma.parsedFile (db w)) (Prisma.nextId (db w)))
    as (new & E & L & F).
  { apply Forall_forall. intros d Hd. apply list_elem_of_In, in_map_iff in Hd.
    destruct Hd as (f & <- & _). reflexivity. }
  destruct (Prisma.insertSkippingDuplicates _ _ _) as [rows next]. simpl in E.
  intros H. injection H as _ <-. simpl. exists new.
  rewrite length_map in L. auto.
Qed.

Lemma appends_weaken {A : Type} (n m : nat) (key : string) (c : M A) :
  (n <= m)%nat -> appends n key c -> appends m key c.
Proof.
  intros Hnm Hc w r w' H. destruct (Hc _ _ _ H) as (new & E & L & F).
  exists new. split; [exact E|]. split; [lia|exact F].
Qed.

Lemma pipeline_appends (env : Env) (data : AnalysisJobData) :
  appends 100 (analysisId data) (pipeline env data).
Proof.
  unfold pipeline. cbv zeta.
  unfold AnalysisRepository.updateStatus, AnalysisRepository.updateCommitSha.
  apply (appends_bind 0 100); [apply appends_update|intros _ _ _ _].
  apply (appends_bind 0 100); [apply appends_publish|intros _ _ _ _].
  apply (appends_bind 0 100);
    [destruct (isValid _); apply appends_pure; reflexivity|intros _ _ _ _].
  apply (appends_bind 0 100); [apply appends_publish|intros _ _ _ _].
  apply (appends_bind 0 100); [apply appends_pure; reflexivity|intros defaultBranch _ _ _].
  apply (appends_bind 0 100); [apply appends_pure; reflexivity|intros commitSha _ _ _].
  apply (appends_bind 0 100);
    [apply (appends_update _ _ (fun _ => Prisma.mkUpdate None None None None (Some commitSha)))
    |intros _ _ _ _].
  apply (appends_bind 0 100); [apply appends_publish|intros _ _ _ _].
  apply (appends_bind 0 100).
  { apply appends_pure. intros w. unfold cloneRepository, cleanUpFailedClone.
    destruct (fsEnsureDir env), (gitClone env), (gitLog env), (gitRevparse env),
      (fsRemove env); reflexivity. }
  intros localPath _ _ _.
  apply (appends_bind 0 100); [apply appends_publish|intros _ _ _ _].
  apply (appends_bind 0 100).
  { apply appends_pure. intros w. unfold buildFileTree.
    destruct (TreeBuilder.buildFileTree _ _ _ _ _). reflexivity. }
  intros fileTree _ _ _.
  apply (appends_bind 0 100); [apply appends_publish|intros _ _ _ _].
  apply (appends_bind 0 100); [apply appends_save|intros _ _ _ _].
  apply (appends_bind 0 100); [apply appends_publish|intros _ _ _ _].
  apply (appends_bind 0 100); [apply appends_pure; reflexivity|intros root _ _ _].
  apply (appends_bind 0 100); [apply appends_pure; reflexivity|].
  intros parsedFiles w w1 Hparsed.
  assert (Hlen : (length parsedFiles <= 100)%nat).
  { unfold liftResult in Hparsed.
    pose proof (f_equal fst Hparsed) as Hfiles. cbn [fst] in Hfiles. clear Hparsed.
    rewrite parseFilesParallel_resolves in Hfiles.
    apply (f_equal (fun r => match r with Js.Ok l => length l | Js.Throw _ => 0%nat end))
      in Hfiles.
    cbn beta iota in Hfiles. rewrite <- Hfiles.
    etransitivity; [apply length_omap_le|]. rewrite length_take. lia. }
  apply (appends_bind 0 100); [apply appends_publish|intros _ _ _ _].
  apply (appends_bind 100 0).
  { destruct parsedFiles as [|pf rest] eqn:Hpf.
    - apply (appends_weaken 0); [lia|]. apply appends_pure. reflexivity.
    - rewrite <- Hpf in *. eapply appends_weaken; [|apply appends_saveParsedFiles].
      rewrite length_map. exact Hlen. }
  intros _ _ _ _.
  apply (appends_bind 0 0).
  { apply appends_pure. intros w0. unfold deleteRepository.
    destruct (fsRemove env); reflexivity. }
  intros _ _ _ _.
  apply (appends_bind 0 0); [apply appends_publish|intros _ _ _ _].
  apply (appends_bind 0 0); [apply appends_update|intros _ _ _ _].
  apply appends_pure. reflexivity.
Qed.

End StoredRows.

Section StoredRowsClaim.
Import Worker.

(** X28.  One attempt of a job stores the parsed files of at most 100
    paths: whatever the working copy holds and however the attempt ends,
    the rows of parsed files after it are the rows before it followed by at
    most 100 new ones, all of them rows of the analysis of the job. *)
Theorem X28_a_job_stores_at_most_100_parsed_files
  (env : Env) (data : AnalysisJobData) (w : World) :
  exists new,
    Prisma.parsedFile (db (processAnalysisJob env data w).2)
    = (Prisma.parsedFile (db w) ++ new)%list
    /\ (length new <= 100)%nat
    /\ Forall (fun row => Prisma.pf_analysisId row = analysisId data) new.
Proof.
  unfold processAnalysisJob, try_catch.
  destruct (pipeline env data w) as [[r0|message] w0] eqn:Hp.
  - apply (pipeline_appends env data _ _ _ Hp).
  - destruct (pipeline_appends env data _ _ _ Hp) as (new & E & L & F).
    exists new. split; [|auto].
    rewrite <- E. unfold bind, onDb, throw, AnalysisRepository.updateStatus,
      Prisma.analysis_update.
    destruct (negb (Prisma.connected (db w0))); [reflexivity|].
    destruct (Prisma.analysis (db w0) !! analysisId data); reflexivity.
Qed.

End StoredRowsClaim.

(** ** How a job fails *)

Section FailedJobs.
Import Worker.

(** X29.  A job whose [try] block throws is recorded as failed, when the
    store still answers and holds its record: the job rejects with the very
    error that was thrown, the record becomes [failed] with [completedAt]
    set to the time of the failure and [startedAt] kept, the message of the
    error is stored unless it is empty, and the [catch] block touches
    neither the disk nor the progress. *)
Theorem X29_a_failed_job_is_recorded_as_failed
  (env : Env) (data : AnalysisJobData) (w w0 : World) (message : string)
  (r : Prisma.AnalysisRow)
  (Hfail : pipeline env data w = (Js.Throw message, w0))
  (Hconn : Prisma.connected (db w0) = true)
  (Hrecord : Prisma.analysis (db w0) !! analysisId data = Some r) :
  (processAnalysisJob env data w).1 = Js.Throw message
  /\ (exists r',
        Prisma.analysis (db (processAnalysisJob env data w).2) !! analysisId data = Some r'
        /\ Prisma.status r' = Prisma.failed
        /\ Prisma.completedAt r' = Some (clock w0)
        /\ Prisma.startedAt r' = Prisma.startedAt r
        /\ Prisma.error r' = if String.eqb message "" then Prisma.error r else Some message)
  /\ workingCopies (processAnalysisJob env data w).2 = workingCopies w0
  /\ published (processAnalysisJob env data w).2 = published w0.
Proof.
  unfold processAnalysisJob, try_catch. rewrite Hfail.
  unfold bind, onDb, throw, AnalysisRepository.updateStatus, Prisma.analysis_update.
  rewrite Hconn. cbn [negb]. rewrite Hrecord. cbn [fst snd db workingCopies published].
  split; [reflexivity|]. split; [|split; reflexivity].
  eexists. cbn [Prisma.withAnalysis Prisma.analysis]. rewrite lookup_insert_eq.
  split; [reflexivity|].
  unfold Prisma.applyUpdate, AnalysisRepository.statusUpdateData, AnalysisRepository.truthy.
  cbn [Prisma.status Prisma.completedAt Prisma.startedAt Prisma.error Prisma.u_status
       Prisma.u_completedAt Prisma.u_startedAt Prisma.u_error default].
  destruct (String.eqb message ""); simpl; auto.
Qed.

(** X29 on the job that loses the queue after the clone. *)
Lemma X29_witness :
  (processAnalysisJob lostQueueEnv job1 world0).1 = Js.Throw "Connection is closed."
  /\ (exists r',
        Prisma.analysis (db (processAnalysisJob lostQueueEnv job1 world0).2) !! "a1"
        = Some r'
        /\ Prisma.status r' = Prisma.failed
        /\ Prisma.completedAt r' = Some (clock (pipeline lostQueueEnv job1 world0).2)
        /\ Prisma.startedAt r' = Some 1
        /\ Prisma.error r' = Some "Connection is closed.")
  /\ workingCopies (processAnalysisJob lostQueueEnv job1 world0).2
     = workingCopies (pipeline lostQueueEnv job1 world0).2
  /\ published (processAnalysisJob lostQueueEnv job1 world0).2
     = published (pipeline lostQueueEnv job1 world0).2.
Proof.
  refine (X29_a_failed_job_is_recorded_as_failed lostQueueEnv job1 world0
            (pipeline lostQueueEnv job1 world0).2 "Connection is closed."
            (Prisma.mkAnalysis "a1" "https://github.com/acme/widgets" "acme" "widgets"
               "main" (Some "0123abc") Prisma.processing None
               (Prisma.mkAnalysisOptions true 1000 None None false) 0 (Some 1) None)
            _ _ _);
    vm_compute; reflexivity.
Defined.


End FailedJobs.

Section FailedClone.
Import Worker.

(** On a repository without commits, with a disk that refuses the
    removal: [git.clone] fills the directory, [log] fails, and the filled
    directory stays. *)
Example failed_queries_leave_the_clone :
  (cloneRepository noCommitsEnv world0).1 = Js.Throw "Failed to clone repository"
  /\ workingCopies (cloneRepository noCommitsEnv world0).2 !! clonePath = Some fixtureRepo.
Proof. split; vm_compute; reflexivity. Qed.

(** On a remote that cannot be reached: the directory is removed. *)
Example failed_clone_is_removed :
  (cloneRepository noRemoteEnv world0).1 = Js.Throw "Failed to clone repository"
  /\ workingCopies (cloneRepository noRemoteEnv world0).2 !! clonePath = None.
Proof. split; vm_compute; reflexivity. Qed.

End FailedClone.
